(** * LeetBoard: the snapshot / progress / ranking core

    A shallow embedding of the logic of the friends leaderboard
    (src/App.tsx, src/utils/snapshotUtils.ts, src/utils/dateUtils.ts,
    src/types.ts) and the properties of its specification.

    Conventions of the embedding.
    - Solved-problem and job counters are JavaScript numbers holding
      integers: they are modelled in [Z].  The experience score mixes in
      the weight 0.5, so [xp] lives in [Q]; equality of scores is [Qeq],
      which is what [===] decides on exactly represented numbers.
    - [string | undefined | null] fields are [option string].
    - Instants are timestamps in milliseconds since the epoch.  A [Date]
      is modelled by what the date library reads from it, the wall clock
      its local fields spell; which wall clock that is depends on the
      zone of the runtime, which is an explicit parameter.
    - The document database is a list of documents with a schedule of
      faults, threaded explicitly through every operation. *)

From Stdlib Require Import ZArith QArith Qminmax List String Ascii Bool Lia Lqa.
From Stdlib Require Import Permutation Sorted DecimalString.
From Stdlib Require OrderedTypeEx.
Import ListNotations.

Local Open Scope string_scope.
Local Open Scope Z_scope.

(** ** Data model (src/types.ts) *)

(** [UserStats extends DifficultyStats]. *)
Record UserStats : Type := mkUserStats {
  username : string;
  name : option string;
  jobsApplied : Z;
  easy : Z;
  medium : Z;
  hard : Z;
  total : Z;
  xp : Q;
  rank : Z;
  error : option string
}.

(** [SnapshotUserStats]: the fields of a baseline entry. *)
Module Snap.
Record SnapshotUserStats : Type := mk {
  username : string;
  name : option string;
  jobsApplied : Z;
  easy : Z;
  medium : Z;
  hard : Z;
  total : Z;
  xp : Q
}.
End Snap.
Abbreviation SnapshotUserStats := Snap.SnapshotUserStats.

Inductive SnapshotPeriod : Type := weekly | monthly | yearly.

Definition SnapshotPeriod_eqb (p q : SnapshotPeriod) : bool :=
  match p, q with
  | weekly, weekly | monthly, monthly | yearly, yearly => true
  | _, _ => false
  end.

(** Documents of the [leaderboardSnapshots] collection carry no [id]
    field of their own ([Omit<LeaderboardSnapshot, 'id'>]); a loaded
    snapshot is the document's data together with the document id. *)
Abbreviation DocId := nat.

Record SnapshotData : Type := mkSnapshotData {
  period : SnapshotPeriod;
  periodKey : string;
  createdAt : Z;
  users : list SnapshotUserStats
}.

Record LeaderboardSnapshot : Type := mkLeaderboardSnapshot {
  id : option DocId;
  data : SnapshotData
}.

(** ** JavaScript helpers *)

(** [x || 0] on a number. *)
Definition orZero (x : Z) : Z := if x =? 0 then 0 else x.

(** [opt?.field || 0]. *)
Definition fieldOrZero {A : Type} (f : A -> Z) (o : option A) : Z :=
  match o with
  | Some a => orZero (f a)
  | None => 0
  end.

(** The weighting expression that the source repeats wherever a score is
    computed: [(jobs * 0.5) + (easy * 1) + (medium * 2) + (hard * 4)]. *)
Definition xpOf (jobs e m h : Z) : Q :=
  (inject_Z jobs * (1 # 2) + inject_Z e * 1 + inject_Z m * 2 + inject_Z h * 4)%Q.

(** [Array.prototype.indexOf] on strings, [-1] when absent. *)
Fixpoint indexOfFrom (i : Z) (l : list string) (x : string) : Z :=
  match l with
  | [] => -1
  | y :: l' => if String.eqb y x then i else indexOfFrom (i + 1) l' x
  end.

Definition indexOf (l : list string) (x : string) : Z := indexOfFrom 0 l x.

(** ** Job status (src/App.tsx, [getNextStatus]) *)

Definition STATUS_SEQUENCE : list string :=
  ["Applied"; "Assessment"; "Interview"; "Offer"].

(** The status arrives from the database as whatever string was stored,
    so the argument ranges over all strings. *)
Definition getNextStatus (current : string) : string :=
  let idx := indexOf STATUS_SEQUENCE current in
  if idx =? -1 then "Applied"
  else List.nth (Z.to_nat ((idx + 1) mod Z.of_nat (List.length STATUS_SEQUENCE)))
                STATUS_SEQUENCE "Applied".

(** ** Progress engine (src/App.tsx) *)

(** [findSnapshotUser]: [Array.prototype.find] by username. *)
Definition findUser (us : list SnapshotUserStats) (u : string)
  : option SnapshotUserStats :=
  find (fun s => String.eqb (Snap.username s) u) us.

Definition findSnapshotUser (snapshot : option LeaderboardSnapshot) (u : string)
  : option SnapshotUserStats :=
  match snapshot with
  | None => None
  | Some s => findUser (users (data s)) u
  end.

Definition computeProgress (current : UserStats)
    (baseline : option SnapshotUserStats) : UserStats :=
  match baseline with
  | None =>
      {| username := username current;
         name := name current;
         jobsApplied := 0;
         easy := 0;
         medium := 0;
         hard := 0;
         total := 0;
         xp := 0;
         rank := 0;
         error := error current |}
  | Some baseline =>
      let jobsDelta := Z.max 0 (jobsApplied current - orZero (Snap.jobsApplied baseline)) in
      let easyDelta := Z.max 0 (easy current - Snap.easy baseline) in
      let mediumDelta := Z.max 0 (medium current - Snap.medium baseline) in
      let hardDelta := Z.max 0 (hard current - Snap.hard baseline) in
      let totalDelta := Z.max 0 (total current - Snap.total baseline) in
      let xpDelta := xpOf jobsDelta easyDelta mediumDelta hardDelta in
      {| username := username current;
         name := name current;
         jobsApplied := jobsDelta;
         easy := easyDelta;
         medium := mediumDelta;
         hard := hardDelta;
         total := totalDelta;
         xp := xpDelta;
         rank := 0;
         error := error current |}
  end.

(** Replacing the absolute score of a record. *)
Definition withXp (u : UserStats) (q : Q) : UserStats :=
  {| username := username u; name := name u; jobsApplied := jobsApplied u;
     easy := easy u; medium := medium u; hard := hard u; total := total u;
     xp := q; rank := rank u; error := error u |}.

Definition snapWithXp (b : SnapshotUserStats) (q : Q) : SnapshotUserStats :=
  Snap.mk (Snap.username b) (Snap.name b) (Snap.jobsApplied b) (Snap.easy b)
          (Snap.medium b) (Snap.hard b) (Snap.total b) q.

Definition withRank (s : UserStats) (r : Z) : UserStats :=
  {| username := username s; name := name s; jobsApplied := jobsApplied s;
     easy := easy s; medium := medium s; hard := hard s; total := total s;
     xp := xp s; rank := r; error := error s |}.

(** ** Ranking (src/App.tsx, [sortAndRank] inside [loadAllStats]) *)

(** [Array.prototype.sort] with a comparator is stable (ECMAScript 2019):
    among elements the comparator does not separate, the original order
    is kept.  It is modelled by the stable insertion sort; [x] goes in
    front of [y] when [cmp x y <= 0]. *)
Section ArraySort.
Context {A : Type} (cmp : A -> A -> Q).

Fixpoint insertSorted (x : A) (l : list A) : list A :=
  match l with
  | [] => [x]
  | y :: l' => if Qle_bool (cmp x y) 0 then x :: l else y :: insertSorted x l'
  end.

Fixpoint arraySort (l : list A) : list A :=
  match l with
  | [] => []
  | x :: l' => insertSorted x (arraySort l')
  end.
End ArraySort.

(** [(a, b) => { if (b.xp === a.xp) return b.total - a.total; return b.xp - a.xp; }] *)
Definition byXpThenTotal (a b : UserStats) : Q :=
  if Qeq_bool (xp b) (xp a) then inject_Z (total b - total a)
  else (xp b - xp a)%Q.

(** [.map((stat, index) => ({ ...stat, rank: index + 1 }))], from [index]. *)
Fixpoint assignRanks (index : Z) (l : list UserStats) : list UserStats :=
  match l with
  | [] => []
  | stat :: l' => withRank stat (index + 1) :: assignRanks (index + 1) l'
  end.

Definition sortAndRank (items : list UserStats) : list UserStats :=
  assignRanks 0 (arraySort byXpThenTotal items).

(** ** Previous-period leaderboard (src/App.tsx, [computePrevStats]) *)

(** The body of [endSnap.users.map(endUser => ...)]. *)
Definition prevEntry (startSnap : option LeaderboardSnapshot)
    (endUser : SnapshotUserStats) : UserStats :=
  let startUser := findSnapshotUser startSnap (Snap.username endUser) in
  let jobsDelta := Z.max 0 (Snap.jobsApplied endUser - fieldOrZero Snap.jobsApplied startUser) in
  let easyDelta := Z.max 0 (Snap.easy endUser - fieldOrZero Snap.easy startUser) in
  let mediumDelta := Z.max 0 (Snap.medium endUser - fieldOrZero Snap.medium startUser) in
  let hardDelta := Z.max 0 (Snap.hard endUser - fieldOrZero Snap.hard startUser) in
  let xpDelta := xpOf jobsDelta easyDelta mediumDelta hardDelta in
  {| username := Snap.username endUser;
     name := Snap.name endUser;
     jobsApplied := jobsDelta;
     easy := easyDelta;
     medium := mediumDelta;
     hard := hardDelta;
     total := easyDelta + mediumDelta + hardDelta;
     xp := xpDelta;
     rank := 0;
     error := None |}.

(** [(a, b) => b.xp - a.xp] *)
Definition byXp (a b : UserStats) : Q := (xp b - xp a)%Q.

(** The list handed to [setPrevLeaderboardStats]. *)
Definition computePrevStats (endSnap : LeaderboardSnapshot)
    (startSnap : option LeaderboardSnapshot) : list UserStats :=
  assignRanks 0 (arraySort byXp (map (prevEntry startSnap) (users (data endSnap)))).

(** ** Dates (src/utils/dateUtils.ts and the date library it calls)

    date-fns reads and writes a [Date] only through its local fields
    (getFullYear, getMonth, getDate, getDay, setDate, setHours), so a
    [Date] is modelled by the wall-clock reading those fields spell, in
    milliseconds since 1970-01-01T00:00 on that wall clock.  Which wall
    clock it is depends on how the value was made. *)
Definition Date : Type := Z.

(** The environment of a run: the offset from UTC (in milliseconds, at an
    instant) of the zone the runtime is set to, and of every named zone
    of the time-zone database. *)
Record Runtime : Type := mkRuntime {
  localOffset : Z -> Z;
  zoneOffset : string -> Z -> Z
}.

(** [new Date(t)]: the local fields are the runtime's wall clock at [t]. *)
Definition newDate (rt : Runtime) (t : Z) : Date := t + localOffset rt t.

(** [toZonedTime(new Date(t), timeZone)] (date-fns-tz): the [Date] whose
    local fields spell the wall clock of [timeZone] at the instant [t]. *)
Definition toZonedTime (rt : Runtime) (t : Z) (timeZone : string) : Date :=
  t + zoneOffset rt timeZone t.

Definition msPerDay : Z := 86400000.
Definition millisecondsInWeek : Z := 604800000.

(** Local calendar day, counted from 1970-01-01. *)
Definition dayOf (d : Date) : Z := d / msPerDay.

(** Proleptic Gregorian calendar: day number to (year, month 1..12, day). *)
Definition civilFromDays (n : Z) : Z * Z * Z :=
  let z := n + 719468 in
  let era := z / 146097 in
  let doe := z - era * 146097 in
  let yoe := (doe - doe / 1460 + doe / 36524 - doe / 146096) / 365 in
  let doy := doe - (365 * yoe + yoe / 4 - yoe / 100) in
  let mp := (5 * doy + 2) / 153 in
  let d := doy - (153 * mp + 2) / 5 + 1 in
  let m := if mp <? 10 then mp + 3 else mp - 9 in
  ((if m <=? 2 then yoe + era * 400 + 1 else yoe + era * 400), m, d).

Definition daysFromCivil (y m d : Z) : Z :=
  let y' := if m <=? 2 then y - 1 else y in
  let era := y' / 400 in
  let yoe := y' - era * 400 in
  let doy := (153 * (if 2 <? m then m - 3 else m + 9) + 2) / 5 + d - 1 in
  let doe := yoe * 365 + yoe / 4 - yoe / 100 + doy in
  era * 146097 + doe - 719468.

Definition getFullYear (d : Date) : Z := fst (fst (civilFromDays (dayOf d))).
(** Zero-based, as in JavaScript. *)
Definition getMonth (d : Date) : Z := snd (fst (civilFromDays (dayOf d))) - 1.
(** Sunday is 0; 1970-01-01 was a Thursday. *)
Definition getDay (d : Date) : Z := (dayOf d + 4) mod 7.

(** [new Date(year, month, day)] at local midnight. *)
Definition midnightOf (y m d : Z) : Date := daysFromCivil y (m + 1) d * msPerDay.

(** date-fns [startOfISOWeek]: local midnight of the Monday on or before. *)
Definition startOfISOWeek (d : Date) : Date :=
  let day := getDay d in
  let diff := (if day <? 1 then 7 else 0) + day - 1 in
  (dayOf d - diff) * msPerDay.

(** date-fns [getISOWeekYear]. *)
Definition getISOWeekYear (d : Date) : Z :=
  let year := getFullYear d in
  let startOfNextYear := startOfISOWeek (midnightOf (year + 1) 0 4) in
  let startOfThisYear := startOfISOWeek (midnightOf year 0 4) in
  if startOfNextYear <=? d then year + 1
  else if startOfThisYear <=? d then year
  else year - 1.

(** date-fns [startOfISOWeekYear]. *)
Definition startOfISOWeekYear (d : Date) : Date :=
  startOfISOWeek (midnightOf (getISOWeekYear d) 0 4).

(** [Math.round] of a quotient by a positive number. *)
Definition roundDiv (a b : Z) : Z := (2 * a + b) / (2 * b).

(** date-fns [getISOWeek]. *)
Definition getISOWeek (d : Date) : Z :=
  let diff := startOfISOWeek d - startOfISOWeekYear d in
  roundDiv diff millisecondsInWeek + 1.

(** date-fns [subWeeks]: the local day moves back, the time of day stays. *)
Definition subWeeks (d : Date) (amount : Z) : Date := d - amount * 7 * msPerDay.

(** [String(n)] for a natural number and [padStart(targetLength, '0')]. *)
Definition toString (n : Z) : string := NilZero.string_of_uint (N.to_uint (Z.to_N n)).

Fixpoint zeros (n : nat) : string :=
  match n with
  | O => ""
  | S n' => String "0" (zeros n')
  end.

Definition padStart (s : string) (targetLength : nat) : string :=
  zeros (targetLength - String.length s) ++ s.

(** date-fns [addLeadingZeros]. *)
Definition addLeadingZeros (number : Z) (targetLength : nat) : string :=
  (if number <? 0 then "-" else "") ++ padStart (toString (Z.abs number)) targetLength.

(** The format tokens the program uses. *)
Inductive Token : Type :=
| RRRR            (* ISO week-numbering year, at least four digits *)
| II              (* ISO week of the year, two digits *)
| yyyy            (* calendar year, at least four digits *)
| MM              (* month, two digits *)
| Lit (s : string).

Definition formatToken (d : Date) (t : Token) : string :=
  match t with
  | RRRR => addLeadingZeros (getISOWeekYear d) 4
  | II => addLeadingZeros (getISOWeek d) 2
  | yyyy => let signedYear := getFullYear d in
            addLeadingZeros (if 0 <? signedYear then signedYear else 1 - signedYear) 4
  | MM => addLeadingZeros (getMonth d + 1) 2
  | Lit s => s
  end.

(** date-fns-tz [format(date, pattern, { timeZone })].  It prints the
    local fields of [date]: the [timeZone] option only feeds the zone
    tokens (z, O, x, X), none of which occurs in the patterns of this
    program, and never shifts the date; a caller who wants the fields of
    another zone passes the result of [toZonedTime]. *)
Definition format (d : Date) (pattern : list Token) (timeZone : string) : string :=
  String.concat "" (map (formatToken d) pattern).

Definition TIMEZONE : string := "America/Los_Angeles".

(** [getNow], at the instant [clock]. *)
Definition getNow (rt : Runtime) (clock : Z) : Date := toZonedTime rt clock TIMEZONE.

(** The three key functions, applied to an explicit [Date]; the default
    argument of the source is [getNow()]. *)
Definition getWeeklyPeriodKey (date : Date) : string :=
  format date [RRRR; Lit "-"; Lit "W"; II] TIMEZONE.

Definition getMonthlyPeriodKey (date : Date) : string :=
  format date [yyyy; Lit "-"; MM] TIMEZONE.

Definition getYearlyPeriodKey (date : Date) : string :=
  format date [yyyy] TIMEZONE.

(** [getPeriodKey] (src/utils/snapshotUtils.ts), at the instant [clock]. *)
Definition getPeriodKey (rt : Runtime) (clock : Z) (type : SnapshotPeriod) : string :=
  match type with
  | weekly => getWeeklyPeriodKey (getNow rt clock)
  | monthly => getMonthlyPeriodKey (getNow rt clock)
  | yearly => getYearlyPeriodKey (getNow rt clock)
  end.

(** The key [handleViewPreviousLeaderboard] looks up for the weekly tab:
    [getWeeklyPeriodKey(subWeeks(new Date(), 1))]. *)
Definition previousWeeklyKey (rt : Runtime) (clock : Z) : string :=
  getWeeklyPeriodKey (subWeeks (newDate rt clock) 1).

(** ** The document database (collection [leaderboardSnapshots])

    The collection is the list of its documents in the order queries
    return them.  Every request may be rejected (network, permissions):
    [faults] schedules the rejections of the coming requests, [true]
    for a request that fails; an exhausted schedule means success. *)
Record Firestore : Type := mkFirestore {
  docs : list (DocId * SnapshotData);
  nextId : DocId;
  faults : list bool
}.

(** An awaited database operation: [None] is a rejected promise. *)
Definition Op (A : Type) : Type := Firestore -> option A * Firestore.

Definition ret {A : Type} (a : A) : Op A := fun db => (Some a, db).

Definition bind {A B : Type} (m : Op A) (k : A -> Op B) : Op B :=
  fun db =>
    match m db with
    | (Some a, db') => k a db'
    | (None, db') => (None, db')
    end.

Notation "x <- m ;; k" := (bind m (fun x => k))
  (at level 61, m at next level, right associativity).

(** [try { body } catch (error) { handler }] *)
Definition tryCatch {A : Type} (body : Op A) (handler : Op A) : Op A :=
  fun db =>
    match body db with
    | (Some a, db') => (Some a, db')
    | (None, db') => handler db'
    end.

(** One round trip to the database: consumes the head of the schedule. *)
Definition request : Op unit :=
  fun db =>
    match faults db with
    | [] => (Some tt, db)
    | failed :: rest =>
        let db' := mkFirestore (docs db) (nextId db) rest in
        if failed then (None, db') else (Some tt, db')
    end.

(** [getDocs(collection(db, 'leaderboardSnapshots'))] *)
Definition getDocs : Op (list (DocId * SnapshotData)) :=
  _ <- request ;; fun db => (Some (docs db), db).

(** [getDocs(query(ref, where('period', '==', p), where('periodKey', '==', k), limit(1)))] *)
Definition matches (p : SnapshotPeriod) (k : string) (d : DocId * SnapshotData) : bool :=
  SnapshotPeriod_eqb (period (snd d)) p && String.eqb (periodKey (snd d)) k.

Definition getDocsByKey (p : SnapshotPeriod) (k : string)
  : Op (list (DocId * SnapshotData)) :=
  _ <- request ;; fun db => (Some (firstn 1 (filter (matches p k) (docs db))), db).

(** [addDoc(ref, data)]: a new document under a fresh id. *)
Definition addDoc (d : SnapshotData) : Op DocId :=
  _ <- request ;;
  fun db => (Some (nextId db),
             mkFirestore (docs db ++ [(nextId db, d)]) (S (nextId db)) (faults db)).

(** [updateDoc(doc(db, 'leaderboardSnapshots', id), { users })]: rejected
    when no document has this id. *)
Definition setUsers (i : DocId) (us : list SnapshotUserStats)
    (d : DocId * SnapshotData) : DocId * SnapshotData :=
  if Nat.eqb (fst d) i
  then (fst d, mkSnapshotData (period (snd d)) (periodKey (snd d)) (createdAt (snd d)) us)
  else d.

Definition updateDoc (i : DocId) (us : list SnapshotUserStats) : Op unit :=
  _ <- request ;;
  fun db =>
    if existsb (fun d => Nat.eqb (fst d) i) (docs db)
    then (Some tt, mkFirestore (map (setUsers i us) (docs db)) (nextId db) (faults db))
    else (None, db).

(** [await Promise.all(items.map(async item => ...))]: every callback
    runs up to its request in the order of the array, whether or not an
    earlier one is rejected; the whole is rejected when one of them is. *)
Fixpoint promiseAllMap {A : Type} (f : A -> Op unit) (items : list A) : Op unit :=
  fun db =>
    match items with
    | [] => (Some tt, db)
    | x :: rest =>
        let (r, db1) := f x db in
        let (r', db2) := promiseAllMap f rest db1 in
        (match r, r' with Some _, Some _ => Some tt | _, _ => None end, db2)
    end.

(** ** Snapshot store (src/utils/snapshotUtils.ts) *)

Definition toSnapshotUser (user : UserStats) : SnapshotUserStats :=
  Snap.mk (username user) (name user) (jobsApplied user) (easy user)
          (medium user) (hard user) (total user) (xp user).

(** [{ id: doc.id, ...doc.data() }] *)
Definition loaded (doc : DocId * SnapshotData) : LeaderboardSnapshot :=
  mkLeaderboardSnapshot (Some (fst doc)) (snd doc).

(** [ensureSnapshot]; [clock] is the instant at which the period key is
    taken and [stamp] the later instant written into [createdAt]. *)
Definition ensureSnapshot (rt : Runtime) (clock stamp : Z)
    (period : SnapshotPeriod) (currentStats : list UserStats)
  : Op (option LeaderboardSnapshot) :=
  tryCatch
    (let periodKey := getPeriodKey rt clock period in
     snapshotDocs <- getDocsByKey period periodKey ;;
     match snapshotDocs with
     | doc :: _ => ret (Some (loaded doc))
     | [] =>
         let newSnapshot :=
           mkSnapshotData period periodKey stamp (map toSnapshotUser currentStats) in
         ref <- addDoc newSnapshot ;;
         ret (Some (mkLeaderboardSnapshot (Some ref) newSnapshot))
     end)
    (ret None).

(** [loadSnapshotByKey] *)
Definition loadSnapshotByKey (period : SnapshotPeriod) (periodKey : string)
  : Op (option LeaderboardSnapshot) :=
  tryCatch
    (snapshotDocs <- getDocsByKey period periodKey ;;
     match snapshotDocs with
     | doc :: _ => ret (Some (loaded doc))
     | [] => ret None
     end)
    (ret None).

(** ** Patching the current snapshots (src/App.tsx, [addUserToCurrentSnapshots]) *)

Definition hasUser (username : string) (us : list SnapshotUserStats) : bool :=
  existsb (fun u => String.eqb (Snap.username u) username) us.

Definition isCurrent (rt : Runtime) (clock : Z) (d : SnapshotData) : bool :=
  (SnapshotPeriod_eqb (period d) weekly
     && String.eqb (periodKey d) (getWeeklyPeriodKey (getNow rt clock)))
  || (SnapshotPeriod_eqb (period d) monthly
        && String.eqb (periodKey d) (getMonthlyPeriodKey (getNow rt clock)))
  || (SnapshotPeriod_eqb (period d) yearly
        && String.eqb (periodKey d) (getYearlyPeriodKey (getNow rt clock))).

Definition newUserSnapshot (username : string) (stats : UserStats) (name : string)
  : SnapshotUserStats :=
  Snap.mk username (Some name) (jobsApplied stats) (easy stats) (medium stats)
          (hard stats) (total stats) (xp stats).

Definition addUserToCurrentSnapshots (rt : Runtime) (clock : Z)
    (username : string) (stats : UserStats) (name : string) : Op unit :=
  tryCatch
    (snapshotDocs <- getDocs ;;
     promiseAllMap
       (fun docSnap =>
          let data := snd docSnap in
          if isCurrent rt clock data && negb (hasUser username (users data))
          then updateDoc (fst docSnap)
                         (users data ++ [newUserSnapshot username stats name])
          else ret tt)
       snapshotDocs)
    (ret tt).

(** ** Stats fetcher (src/App.tsx, [fetchUserStats])

    Strings are byte strings; [toLowerCase] acts on the ASCII letters. *)
Definition lowerChar (c : ascii) : ascii :=
  let n := nat_of_ascii c in
  if ((65 <=? n) && (n <=? 90))%nat then ascii_of_nat (n + 32) else c.

Fixpoint toLowerCase (s : string) : string :=
  match s with
  | EmptyString => EmptyString
  | String c s' => String (lowerChar c) (toLowerCase s')
  end.

(** [s.includes(sub)] *)
Fixpoint includes (s sub : string) : bool :=
  if String.prefix sub s then true
  else match s with
       | EmptyString => false
       | String _ s' => includes s' sub
       end.

(** The [message] property of a payload: missing (or another falsy
    non-string), a string, or some other truthy value. *)
Inductive Message : Type :=
| MsgAbsent
| MsgString (s : string)
| MsgOther.

(** [LeetCodeResponse], as far as the program reads it.  [status] is
    [None] when the property is missing or not a string. *)
Record LeetCodeResponse : Type := mkLeetCodeResponse {
  status : option string;
  message : Message;
  easySolved : Z;
  mediumSolved : Z;
  hardSolved : Z;
  totalSolved : Z
}.

(** What [response.json()] settles to: a rejection with the parser's
    message, the value [null], or a value whose properties can be read. *)
Inductive Body : Type :=
| Unparsable (parseError : string)
| JsonNull
| Json (data : LeetCodeResponse).

Module Http.
Record Response : Type := mk {
  status : Z;
  body : Body
}.
(** [response.ok]: the status is in the range 200-299. *)
Definition ok (r : Response) : bool := (200 <=? status r) && (status r <=? 299).
End Http.

(** A thrown value: an [Error] with its message, or anything else. *)
Inductive Exn : Type :=
| JsError (msg : string)
| Thrown.

(** How one call of [fetch(url)] ends. *)
Inductive FetchOutcome : Type :=
| Rejected (e : Exn)
| Responded (r : Http.Response).

(** What the run does to the outside, in order. *)
Inductive Event : Type :=
| Fetched
| Slept (ms : Z).

Definition maxRetries : nat := 3.

(** [1000 * Math.pow(2, attempt - 1)] *)
Definition backoffOf (attempt : nat) : Z := 1000 * 2 ^ (Z.of_nat attempt - 1).

(** The record returned on every failure path, with its [error]. *)
Definition failed (username : string) (jobsApplied : Z) (err : string) : UserStats :=
  {| username := username; name := None; jobsApplied := jobsApplied;
     easy := 0; medium := 0; hard := 0; total := 0; xp := 0; rank := 0;
     error := Some err |}.

(** The messages of the [TypeError]s raised by reading a property of
    [null] and by calling a method that a value does not have. *)
Definition nullPropertyError : string :=
  "Cannot read properties of null (reading 'status')".
Definition notAFunctionError : string :=
  "data.message.toLowerCase is not a function".

(** How the body of the [try] block ends. *)
Inductive Completion : Type :=
| Return (stats : UserStats)
| Continue                       (* [attempt++], backoff, [continue] *)
| Throw (e : Exn).

(** [maybeJson && maybeJson.status === 'error'
     && typeof maybeJson.message === 'string'
     && msg.includes('user does not exist')] *)
Definition saysUserDoesNotExist (b : Body) : bool :=
  match b with
  | Json data =>
      match status data, message data with
      | Some st, MsgString m =>
          String.eqb st "error" && includes (toLowerCase m) "user does not exist"
      | _, _ => false
      end
  | _ => false
  end.

Definition tryBlock (username : string) (jobsApplied : Z) (attempt : nat)
    (outcome : FetchOutcome) : Completion :=
  match outcome with
  | Rejected e => Throw e
  | Responded response =>
      if negb (Http.ok response) then
        if (500 <=? Http.status response) && (attempt <? maxRetries)%nat then Continue
        else if saysUserDoesNotExist (Http.body response)
        then Return (failed username jobsApplied "this is not a leetcode user")
        else Throw (JsError ("HTTP error! status: " ++ toString (Http.status response)))
      else
        match Http.body response with
        | Unparsable parseError => Throw (JsError parseError)
        | JsonNull => Throw (JsError nullPropertyError)
        | Json data =>
            let isError := match status data with
                           | Some st => String.eqb st "error"
                           | None => false
                           end in
            match (if isError then message data else MsgAbsent) with
            | MsgOther => Throw (JsError notAFunctionError)
            | m =>
                if match m with
                   | MsgString msg =>
                       negb (String.eqb msg "")
                       && includes (toLowerCase msg) "user does not exist"
                   | _ => false
                   end
                then Return (failed username jobsApplied "this is not a leetcode user")
                else if negb match status data with
                             | Some st => String.eqb st "success"
                             | None => false
                             end
                then Return (failed username jobsApplied "User not found")
                else
                  let easy := easySolved data in
                  let medium := mediumSolved data in
                  let hard := hardSolved data in
                  let total := totalSolved data in
                  let xp := xpOf jobsApplied easy medium hard in
                  Return {| username := username; name := None;
                            jobsApplied := jobsApplied;
                            easy := easy; medium := medium; hard := hard;
                            total := total; xp := xp; rank := 0; error := None |}
            end
        end
  end.

(** [error instanceof Error ? error.message : 'LeetCode API unavailable'] *)
Definition messageOf (e : Exn) : string :=
  match e with
  | JsError msg => msg
  | Thrown => "LeetCode API unavailable"
  end.

(** The [while (attempt <= maxRetries)] loop.  [net k] is how the
    [k]-th call of [fetch] ends; [sent] counts the calls made so far.
    [None] only when [fuel] iterations did not finish the loop. *)
Fixpoint fetchLoop (fuel : nat) (net : nat -> FetchOutcome) (username : string)
    (jobsApplied : Z) (attempt sent : nat) : option (UserStats * list Event) :=
  match fuel with
  | O => None
  | S fuel' =>
      if (attempt <=? maxRetries)%nat then
        match tryBlock username jobsApplied attempt (net sent) with
        | Return stats => Some (stats, [Fetched])
        | Continue =>
            match fetchLoop fuel' net username jobsApplied (S attempt) (S sent) with
            | Some (stats, trace) =>
                Some (stats, Fetched :: Slept (backoffOf (S attempt)) :: trace)
            | None => None
            end
        | Throw e =>
            if (maxRetries <=? attempt)%nat
            then Some (failed username jobsApplied (messageOf e), [Fetched])
            else
              match fetchLoop fuel' net username jobsApplied (S attempt) (S sent) with
              | Some (stats, trace) =>
                  Some (stats, Fetched :: Slept (backoffOf (S attempt)) :: trace)
              | None => None
              end
        end
      else Some (failed username jobsApplied "Error fetching data", [])
  end.

(** [fetchUserStats(username, jobsApplied)] against the network [net];
    the loop is given more iterations than it can use. *)
Definition fetchUserStats (net : nat -> FetchOutcome) (username : string)
    (jobsApplied : Z) : option (UserStats * list Event) :=
  fetchLoop (maxRetries + 2) net username jobsApplied 0 0.

(** [loadLatestSnapshot] (src/utils/snapshotUtils.ts): the snapshot of
    the current period key, read at the instant [clock]. *)
Definition loadLatestSnapshot (rt : Runtime) (clock : Z) (period : SnapshotPeriod)
  : Op (option LeaderboardSnapshot) :=
  tryCatch
    (let periodKey := getPeriodKey rt clock period in
     snapshotDocs <- getDocsByKey period periodKey ;;
     match snapshotDocs with
     | doc :: _ => ret (Some (loaded doc))
     | [] => ret None
     end)
    (ret None).

(** The object [ensureSnapshotsForCurrentPeriods] returns. *)
Module Current.
Record Snapshots : Type := mk {
  weekly : option LeaderboardSnapshot;
  monthly : option LeaderboardSnapshot;
  yearly : option LeaderboardSnapshot
}.
End Current.

(** [ensureSnapshotsForCurrentPeriods]: the three granularities in turn.
    [clock p] and [stamp p] are the instants at which the call for [p]
    reads the clock. *)
Definition ensureSnapshotsForCurrentPeriods (rt : Runtime)
    (clock stamp : SnapshotPeriod -> Z) (currentUsersStats : list UserStats)
  : Op Current.Snapshots :=
  w <- ensureSnapshot rt (clock weekly) (stamp weekly) weekly currentUsersStats ;;
  m <- ensureSnapshot rt (clock monthly) (stamp monthly) monthly currentUsersStats ;;
  y <- ensureSnapshot rt (clock yearly) (stamp yearly) yearly currentUsersStats ;;
  ret (Current.mk w m y).

(** ** The boards of [loadAllStats] (src/App.tsx, lines 624-658) *)

(** [const sortedStats = [...statsWithNames].sort(...)] and
    [rankedStats = sortedStats.map(...)]: the all-time board. *)
Definition rankedStatsOf (statsWithNames : list UserStats) : list UserStats :=
  assignRanks 0 (arraySort byXpThenTotal statsWithNames).

(** [sortAndRank(rankedStats.map(stat =>
       computeProgress(stat, findSnapshotUser(snapshot, stat.username))))]:
    the board of one period. *)
Definition progressBoard (rankedStats : list UserStats)
    (snapshot : option LeaderboardSnapshot) : list UserStats :=
  sortAndRank
    (map (fun stat => computeProgress stat (findSnapshotUser snapshot (username stat)))
         rankedStats).


(** ** More of the date library, and the countdown of
    src/utils/dateUtils.ts ([getTimeUntilNextReset]) *)

(** [date.getDate()], the day of the month. *)
Definition getDate (d : Date) : Z := snd (civilFromDays (dayOf d)).

(** The time since local midnight. *)
Definition timeOfDay (d : Date) : Z := d mod msPerDay.

(** ECMAScript [MakeDay]: the day of [date] in the month of index [month]
    of [year]; a month index outside 0..11 carries into the year and a
    day outside the month into the neighbouring months. *)
Definition makeDay (year month date : Z) : Z :=
  daysFromCivil (year + month / 12) (month mod 12 + 1) 1 + date - 1.

(** [date.setMonth(month, day)] and [date.setFullYear(year, month, day)]:
    the time of day stays. *)
Definition setMonth (d : Date) (month date : Z) : Date :=
  makeDay (getFullYear d) month date * msPerDay + timeOfDay d.

Definition setFullYear (d : Date) (year month date : Z) : Date :=
  makeDay year month date * msPerDay + timeOfDay d.

(** date-fns [addWeeks]: the local day moves on, the time of day stays. *)
Definition addWeeks (d : Date) (amount : Z) : Date := d + amount * 7 * msPerDay.

(** date-fns [addMonths]: the same day of the month, or the last day of
    the target month when that month is shorter. *)
Definition addMonths (d : Date) (amount : Z) : Date :=
  if amount =? 0 then d
  else
    let dayOfMonth := getDate d in
    let endOfDesiredMonth := setMonth d (getMonth d + amount + 1) 0 in
    let daysInMonth := getDate endOfDesiredMonth in
    if daysInMonth <=? dayOfMonth then endOfDesiredMonth
    else setFullYear d (getFullYear endOfDesiredMonth) (getMonth endOfDesiredMonth)
                     dayOfMonth.

(** date-fns [addYears], [subMonths], [subYears]. *)
Definition addYears (d : Date) (amount : Z) : Date := addMonths d (amount * 12).
Definition subMonths (d : Date) (amount : Z) : Date := addMonths d (- amount).
Definition subYears (d : Date) (amount : Z) : Date := addYears d (- amount).

(** date-fns [startOfMonth] ([setDate(1)], [setHours(0, 0, 0, 0)]) and
    [startOfYear] ([setFullYear(year, 0, 1)], [setHours(0, 0, 0, 0)]). *)
Definition startOfMonth (d : Date) : Date :=
  makeDay (getFullYear d) (getMonth d) 1 * msPerDay.

Definition startOfYear (d : Date) : Date :=
  makeDay (getFullYear d) 0 1 * msPerDay.

(** The [nextReset] of [getTimeUntilNextReset]. *)
Definition nextReset (now : Date) (period : SnapshotPeriod) : Date :=
  match period with
  | weekly => startOfISOWeek (addWeeks now 1)
  | monthly => startOfMonth (addMonths now 1)
  | yearly => startOfYear (addYears now 1)
  end.

(** [getTimeUntilNextReset(period)] at the instant [clock].  [getTime]
    is [Date.prototype.getTime]: the instant at which the wall clock of
    the runtime shows the fields of the date. *)
Definition getTimeUntilNextReset (rt : Runtime) (getTime : Date -> Z) (clock : Z)
    (period : SnapshotPeriod) : Z :=
  let now := getNow rt clock in
  getTime (nextReset now period) - getTime now.

(** ** The countdown label (src/App.tsx, [formatTimeRemaining]) *)

(** [String(n)] of an integer. *)
Definition numberToString (n : Z) : string :=
  if n <? 0 then "-" ++ toString (- n) else toString n.

(** [%] is the remainder of the truncated division, [Math.floor] of a
    quotient by a positive number the floored division. *)
Definition formatTimeRemaining (ms : Z) : string :=
  let days := ms / (1000 * 60 * 60 * 24) in
  let hours := Z.rem ms (1000 * 60 * 60 * 24) / (1000 * 60 * 60) in
  let minutes := Z.rem ms (1000 * 60 * 60) / (1000 * 60) in
  numberToString days ++ "d " ++ numberToString hours ++ "h "
    ++ numberToString minutes ++ "m".

(** ** The previous leaderboard (src/App.tsx, [handleViewPreviousLeaderboard]) *)

(** The [prevKey] of the handler: the key of the period one week, month
    or year before [new Date()]. *)
Definition previousKey (rt : Runtime) (clock : Z) (period : SnapshotPeriod) : string :=
  let now := newDate rt clock in
  match period with
  | weekly => getWeeklyPeriodKey (subWeeks now 1)
  | monthly => getMonthlyPeriodKey (subMonths now 1)
  | yearly => getYearlyPeriodKey (subYears now 1)
  end.

(** What the handler leaves in [prevLeaderboardStats] and
    [prevDataMissing]. *)
Module Prev.
Record View : Type := mk {
  stats : list UserStats;
  dataMissing : bool
}.
End Prev.

(** The snapshot of a tab among those the component holds
    ([weeklySnapshot], [monthlySnapshot], [yearlySnapshot]). *)
Definition currentOf (current : Current.Snapshots) (period : SnapshotPeriod)
  : option LeaderboardSnapshot :=
  match period with
  | weekly => Current.weekly current
  | monthly => Current.monthly current
  | yearly => Current.yearly current
  end.

(** [handleViewPreviousLeaderboard(period)] at the instant [clock], with
    the snapshots the component holds in [current]. *)
Definition handleViewPreviousLeaderboard (rt : Runtime) (clock : Z)
    (current : Current.Snapshots) (period : SnapshotPeriod) : Op Prev.View :=
  tryCatch
    (let endSnap := currentOf current period in
     let prevKey := previousKey rt clock period in
     startSnap <- loadSnapshotByKey period prevKey ;;
     match startSnap with
     | None => ret (Prev.mk [] true)
     | Some _ =>
         match endSnap with
         | Some endSnap => ret (Prev.mk (computePrevStats endSnap startSnap) false)
         | None => ret (Prev.mk [] true)
         end
     end)
    (ret (Prev.mk [] true)).

(** ** The collections [users] and [jobs] (src/types.ts) and the job
    counters (src/App.tsx, [syncJobCounts]) *)

Module User.
Record Doc : Type := mk {
  username : string;
  name : option string;
  jobsApplied : option Z
}.
End User.

Module Job.
Record Doc : Type := mk {
  username : string;
  title : string;
  company : string;
  url : string;
  status : string;
  createdAt : string
}.
End Job.

(** The two collections, each the list of its documents, and the
    schedule of the rejections of the coming requests. *)
Record Roster : Type := mkRoster {
  userDocs : list (DocId * User.Doc);
  jobDocs : list (DocId * Job.Doc);
  pending : list bool
}.

(** One round trip: whether it is answered, and the state after it. *)
Definition roundTrip (st : Roster) : bool * Roster :=
  match pending st with
  | [] => (true, st)
  | failed :: rest => (negb failed, mkRoster (userDocs st) (jobDocs st) rest)
  end.

(** [x || 0] on a number that may be undefined. *)
Definition optOrZero (x : option Z) : Z :=
  match x with
  | Some v => orZero v
  | None => 0
  end.

(** A [Map<string, number>] as the list of its entries in insertion
    order: [get] and [set]. *)
Definition mapGet (m : list (string * Z)) (key : string) : option Z :=
  option_map snd (find (fun e => String.eqb (fst e) key) m).

Fixpoint mapSet (m : list (string * Z)) (key : string) (value : Z) : list (string * Z) :=
  match m with
  | [] => [(key, value)]
  | e :: rest =>
      if String.eqb (fst e) key then (key, value) :: rest
      else e :: mapSet rest key value
  end.

(** The [jobCounts] that the [forEach] over the job documents builds. *)
Definition countJobs (jobs : list (DocId * Job.Doc)) : list (string * Z) :=
  fold_left (fun jobCounts doc =>
               let jobData := snd doc in
               mapSet jobCounts (Job.username jobData)
                      (optOrZero (mapGet jobCounts (Job.username jobData)) + 1))
            jobs [].

(** [updateDoc(doc(db, 'users', id), { jobsApplied })]: rejected when no
    document has this id. *)
Definition setJobsApplied (i : DocId) (n : Z) (d : DocId * User.Doc)
  : DocId * User.Doc :=
  if Nat.eqb (fst d) i
  then (fst d, User.mk (User.username (snd d)) (User.name (snd d)) (Some n))
  else d.

Definition updateJobsApplied (i : DocId) (n : Z) (st : Roster) : bool * Roster :=
  let (answered, st1) := roundTrip st in
  if answered then
    if existsb (fun d => Nat.eqb (fst d) i) (userDocs st1)
    then (true, mkRoster (map (setJobsApplied i n) (userDocs st1)) (jobDocs st1)
                         (pending st1))
    else (false, st1)
  else (false, st1).

(** The callback of [usersSnapshot.docs.map]. *)
Definition syncUser (jobCounts : list (string * Z)) (userDoc : DocId * User.Doc)
    (st : Roster) : bool * Roster :=
  let userData := snd userDoc in
  let actualJobCount := optOrZero (mapGet jobCounts (User.username userData)) in
  let currentJobCount := optOrZero (User.jobsApplied userData) in
  if negb (actualJobCount =? currentJobCount)
  then updateJobsApplied (fst userDoc) actualJobCount st
  else (true, st).

(** [await Promise.all(docs.map(async doc => ...))] on this store: every
    callback runs, whether or not an earlier one is rejected. *)
Fixpoint promiseAllUsers (f : DocId * User.Doc -> Roster -> bool * Roster)
    (items : list (DocId * User.Doc)) (st : Roster) : bool * Roster :=
  match items with
  | [] => (true, st)
  | x :: rest =>
      let (ok, st1) := f x st in
      let (ok', st2) := promiseAllUsers f rest st1 in
      (ok && ok', st2)
  end.

(** [syncJobCounts]: every rejection is caught and logged, so the result
    is the state it leaves. *)
Definition syncJobCounts (st : Roster) : Roster :=
  let (answered, st1) := roundTrip st in
  if answered then
    let jobCounts := countJobs (jobDocs st1) in
    let (answered2, st2) := roundTrip st1 in
    if answered2
    then snd (promiseAllUsers (syncUser jobCounts) (userDocs st2) st2)
    else st2
  else st1.

(** ** Fetching the roster in batches (src/App.tsx, [loadAllData] and
    [loadAllStats]) *)

Definition BATCH_SIZE : nat := 3.

(** What the loop does, batch after batch: the requests of a batch run
    concurrently, each with its own trace; between batches it pauses. *)
Inductive BatchEvent : Type :=
| Batch (traces : list (list Event))
| Paused (ms : Z).

(** [await Promise.all(promises)] of fetches. *)
Fixpoint promiseAllFetches (promises : list (option (UserStats * list Event)))
  : option (list (UserStats * list Event)) :=
  match promises with
  | [] => Some []
  | p :: rest =>
      match p, promiseAllFetches rest with
      | Some r, Some rs => Some (r :: rs)
      | _, _ => None
      end
  end.

(** The [for] loop over the batches, from index [i] on, with the
    [stats] collected so far; [net] answers the requests for each
    username. *)
Fixpoint fetchInBatches (fuel : nat) (net : string -> nat -> FetchOutcome)
    (usersToFetch : list (DocId * User.Doc)) (i : nat)
    (stats : list UserStats) (log : list BatchEvent)
  : option (list UserStats * list BatchEvent) :=
  match fuel with
  | O => None
  | S fuel' =>
      if (i <? List.length usersToFetch)%nat then
        let batch := firstn BATCH_SIZE (skipn i usersToFetch) in
        let batchPromises :=
          map (fun u => fetchUserStats (net (User.username (snd u)))
                                       (User.username (snd u))
                                       (optOrZero (User.jobsApplied (snd u))))
              batch in
        match promiseAllFetches batchPromises with
        | None => None
        | Some batchResults =>
            let pause := if (i + BATCH_SIZE <? List.length usersToFetch)%nat
                         then [Paused 1000] else [] in
            fetchInBatches fuel' net usersToFetch (i + BATCH_SIZE)
                           (stats ++ map fst batchResults)
                           (log ++ Batch (map snd batchResults) :: pause)
        end
      else Some (stats, log)
  end.

Definition withName (s : UserStats) (n : option string) : UserStats :=
  {| username := username s; name := n; jobsApplied := jobsApplied s;
     easy := easy s; medium := medium s; hard := hard s; total := total s;
     xp := xp s; rank := rank s; error := error s |}.

(** [stats.map((s, idx) => ({ ...s, name: usersToFetch[idx]?.name }))] *)
Fixpoint addNames (usersToFetch : list (DocId * User.Doc)) (idx : nat)
    (stats : list UserStats) : list UserStats :=
  match stats with
  | [] => []
  | s :: rest =>
      withName s match nth_error usersToFetch idx with
                 | Some u => User.name (snd u)
                 | None => None
                 end
      :: addNames usersToFetch (S idx) rest
  end.

(** The statistics with names that [loadAllData] and [loadAllStats]
    fetch for a roster; the loop is given more iterations than it can
    use. *)
Definition fetchRoster (net : string -> nat -> FetchOutcome)
    (usersToFetch : list (DocId * User.Doc))
  : option (list UserStats * list BatchEvent) :=
  match fetchInBatches (S (List.length usersToFetch)) net usersToFetch 0 [] [] with
  | Some (stats, log) => Some (addNames usersToFetch 0 stats, log)
  | None => None
  end.

(** [loadUsersFromFirestore]: the user documents with their ids, or the
    empty list when the request is rejected. *)
Definition loadUsersFromFirestore (st : Roster) : list (DocId * User.Doc) * Roster :=
  let (answered, st1) := roundTrip st in
  if answered then (userDocs st1, st1) else ([], st1).

(** Steps 1 to 3 of [loadAllData(usersOverride)]: synchronise the job
    counters, take the roster, fetch its statistics. *)
Definition loadCurrentStats (net : string -> nat -> FetchOutcome)
    (usersOverride : option (list (DocId * User.Doc))) (st : Roster)
  : option (list UserStats * list BatchEvent) * Roster :=
  let st1 := syncJobCounts st in
  let (currentUsers, st2) := match usersOverride with
                             | Some override => (override, st1)
                             | None => loadUsersFromFirestore st1
                             end in
  (fetchRoster net currentUsers, st2).

(** * Vocabulary of the statements *)

(** [x] may stand in front of [y] for the comparator. *)
Definition precedes {A : Type} (cmp : A -> A -> Q) (x y : A) : Prop :=
  (cmp x y <= 0)%Q.

(** Descending lexicographic order on (xp, total). *)
Definition rankedBefore (a b : UserStats) : Prop :=
  (xp b < xp a)%Q \/ ((xp a == xp b)%Q /\ total b <= total a).

(** What [computePrevStats] subtracts for a user: the field of the start
    entry, and zero when the start snapshot is absent or does not list
    the user. *)
Definition startValue (f : SnapshotUserStats -> Z)
    (startSnap : option LeaderboardSnapshot) (u : string) : Z :=
  match findSnapshotUser startSnap u with
  | Some b => f b
  | None => 0
  end.

(** No coming request is scheduled to fail. *)
Definition healthy (db : Firestore) : Prop := Forall (fun b => b = false) (faults db).

(** Number of snapshot documents stored for a (period, periodKey) pair. *)
Definition countFor (p : SnapshotPeriod) (k : string) (db : Firestore) : nat :=
  List.length (filter (matches p k) (docs db)).

(** What the patch does to one document: a baseline entry is appended to
    a current snapshot that does not list the user yet. *)
Definition patched (rt : Runtime) (clock : Z) (username : string)
    (stats : UserStats) (name : string) (d : DocId * SnapshotData)
  : DocId * SnapshotData :=
  if isCurrent rt clock (snd d) && negb (hasUser username (users (snd d)))
  then (fst d, mkSnapshotData (period (snd d)) (periodKey (snd d)) (createdAt (snd d))
                 (users (snd d) ++ [newUserSnapshot username stats name]))
  else d.

(** A browser set to UTC, in winter: Los Angeles is eight hours behind. *)
Definition utcRuntime : Runtime :=
  mkRuntime (fun _ => 0) (fun _ _ => -28800000).

(** 2026-01-03T20:00:00Z, a Saturday noon in Los Angeles. *)
Definition saturdayNoon : Z := 1767470400000.
(** 2026-01-05T04:00:00Z, the Sunday evening after it in Los Angeles. *)
Definition sundayEvening : Z := 1767585600000.

Definition ana : UserStats :=
  mkUserStats "ana" (Some "Ana") 2 7 2 1 10 (16 # 1) 1 None.
Definition bo : UserStats :=
  mkUserStats "bo" (Some "Bo") 0 3 1 0 4 (5 # 1) 0 None.

Definition emptyStore : Firestore := mkFirestore [] 0 [].

Definition someStore : Firestore :=
  mkFirestore
    [ (0%nat, mkSnapshotData weekly "2026-W01" 0 [toSnapshotUser ana]);
      (1%nat, mkSnapshotData monthly "2026-01" 0 [toSnapshotUser ana; toSnapshotUser bo]);
      (2%nat, mkSnapshotData weekly "2025-W52" 0 [toSnapshotUser ana]) ]
    3 [].

(** The ISO week functions read only the local calendar day of a date;
    here they are on day numbers. *)
Definition weekStartOfDay (n : Z) : Z :=
  let day := (n + 4) mod 7 in
  n - ((if day <? 1 then 7 else 0) + day - 1).

Definition isoWeekYearOfDay (n : Z) : Z :=
  let year := fst (fst (civilFromDays n)) in
  if weekStartOfDay (daysFromCivil (year + 1) 1 4) <=? n then year + 1
  else if weekStartOfDay (daysFromCivil year 1 4) <=? n then year
  else year - 1.

Definition isoWeekOfDay (n : Z) : Z :=
  (2 * (weekStartOfDay n - weekStartOfDay (daysFromCivil (isoWeekYearOfDay n) 1 4)) + 7)
    / 14 + 1.

Definition weeklyKeyOfDay (n : Z) : string :=
  String.concat "" [addLeadingZeros (isoWeekYearOfDay n) 4; "-"; "W";
                    addLeadingZeros (isoWeekOfDay n) 2].

(** Exhaustive checking of a property of the Mondays from [start] on. *)
Fixpoint allWeeks (f : Z -> bool) (start : Z) (n : nat) : bool :=
  match n with
  | O => true
  | S n' => f start && allWeeks f (start + 7) n'
  end.

(** The weeks from Monday 1969-12-29 to the end of the year 2100. *)
Definition chartedWeeks : Z := 6836.

Definition charted (d : Date) : Prop := 0 <= d < 47849 * msPerDay.

(** The record of a user: the username and job count passed in, and
    zero counters and score whenever it carries an error. *)
Definition wellFormedResult (user : string) (jobs : Z) (r : UserStats) : Prop :=
  username r = user /\ jobsApplied r = jobs /\ rank r = 0 /\
  (error r <> None ->
   easy r = 0 /\ medium r = 0 /\ hard r = 0 /\ total r = 0 /\ xp r = 0%Q).

Definition isFetched (e : Event) : bool :=
  match e with
  | Fetched => true
  | Slept _ => false
  end.

(** Number of requests a run has sent. *)
Definition requests (trace : list Event) : nat := List.length (filter isFetched trace).

Definition isNetworkFailure (o : FetchOutcome) : bool :=
  match o with
  | Rejected _ => true
  | Responded _ => false
  end.

Definition isServerError (o : FetchOutcome) : bool :=
  match o with
  | Rejected _ => false
  | Responded r => 500 <=? Http.status r
  end.

(** An unsuccessful reply below 500 whose body says that the user does
    not exist. *)
Definition isNotFoundReply (o : FetchOutcome) : bool :=
  match o with
  | Rejected _ => false
  | Responded r =>
      negb (Http.ok r) && (Http.status r <? 500) && saysUserDoesNotExist (Http.body r)
  end.

Definition bodySaysNotFound (o : FetchOutcome) : bool :=
  match o with
  | Rejected _ => false
  | Responded r => saysUserDoesNotExist (Http.body r)
  end.

(** The message of the error an attempt ends with. *)
Definition lastError (o : FetchOutcome) : string :=
  match o with
  | Rejected e => messageOf e
  | Responded r => "HTTP error! status: " ++ toString (Http.status r)
  end.

(** The trace of [n] failed attempts from [attempt] on, each followed by
    its pause. *)
Fixpoint retried (attempt n : nat) : list Event :=
  match n with
  | O => []
  | S n' => Fetched :: Slept (backoffOf (S attempt)) :: retried (S attempt) n'
  end.

(** Two replies 503, then a 404 whose body names the missing user. *)
Definition flakyThenMissing (k : nat) : FetchOutcome :=
  if (k <? 2)%nat then Responded (Http.mk 503 (Unparsable "Unexpected token <"))
  else Responded (Http.mk 404
         (Json (mkLeetCodeResponse (Some "error") (MsgString "User does not exist")
                                   0 0 0 0))).

(** Four replies 503, each with a body that names the missing user. *)
Definition unavailableAndMissing (k : nat) : FetchOutcome :=
  Responded (Http.mk 503
    (Json (mkLeetCodeResponse (Some "error") (MsgString "user does not exist")
                              0 0 0 0))).

(** Strictly ahead in the ranking order: more xp, or as much xp and a
    larger total. *)
Definition strictlyAhead (a b : UserStats) : Prop :=
  (xp b < xp a)%Q \/ ((xp a == xp b)%Q /\ total b < total a).

(** An unsuccessful reply below 500 whose body does not say that the
    user does not exist. *)
Definition isRefused (o : FetchOutcome) : bool :=
  match o with
  | Rejected _ => false
  | Responded r =>
      negb (Http.ok r) && (Http.status r <? 500)
      && negb (saysUserDoesNotExist (Http.body r))
  end.

(** A successful reply whose body cannot be read as a payload: it does
    not parse, it is [null], or it is an error whose message is not a
    string. *)
Definition isUnreadable (o : FetchOutcome) : bool :=
  match o with
  | Rejected _ => false
  | Responded r =>
      Http.ok r
      && match Http.body r with
         | Unparsable _ | JsonNull => true
         | Json data =>
             match status data, message data with
             | Some st, MsgOther => String.eqb st "error"
             | _, _ => false
             end
         end
  end.

Definition failsAttempt (o : FetchOutcome) : bool :=
  isServerError o || isNetworkFailure o || isRefused o || isUnreadable o.

(** The message of the error a failing attempt throws. *)
Definition thrownMessage (o : FetchOutcome) : string :=
  match o with
  | Rejected e => messageOf e
  | Responded r =>
      if Http.ok r then
        match Http.body r with
        | Unparsable parseError => parseError
        | JsonNull => nullPropertyError
        | Json _ => notAFunctionError
        end
      else "HTTP error! status: " ++ toString (Http.status r)
  end.

(** A successful reply with a payload whose [status] is ['success']. *)
Definition successReply (o : FetchOutcome) : option LeetCodeResponse :=
  match o with
  | Responded r =>
      if Http.ok r then
        match Http.body r with
        | Json data =>
            match status data with
            | Some st => if String.eqb st "success" then Some data else None
            | None => None
            end
        | _ => None
        end
      else None
  | Rejected _ => None
  end.

(** A successful reply with a readable payload whose [status] is not
    ['success']. *)
Definition isDeclined (o : FetchOutcome) : bool :=
  match o with
  | Rejected _ => false
  | Responded r =>
      Http.ok r
      && match Http.body r with
         | Json data =>
             match status data with
             | Some st =>
                 negb (String.eqb st "success")
                 && negb (String.eqb st "error"
                          && match message data with MsgOther => true | _ => false end)
             | None => true
             end
         | _ => false
         end
  end.

(** The key of a period for a date, and the first moment of the period
    a date lies in. *)
Definition keyOf (period : SnapshotPeriod) (d : Date) : string :=
  match period with
  | weekly => getWeeklyPeriodKey d
  | monthly => getMonthlyPeriodKey d
  | yearly => getYearlyPeriodKey d
  end.

Definition startOfPeriod (period : SnapshotPeriod) (d : Date) : Date :=
  match period with
  | weekly => startOfISOWeek d
  | monthly => startOfMonth d
  | yearly => startOfYear d
  end.

(** The longest a period lasts. *)
Definition longest (period : SnapshotPeriod) : Z :=
  match period with
  | weekly => 7 * msPerDay
  | monthly => 31 * msPerDay
  | yearly => 366 * msPerDay
  end.

(** Months by index: month [k] is month [k mod 12 + 1] of year [k / 12].
    The day its first day falls on, and its keys. *)
Definition firstOfMonth (k : Z) : Z := makeDay 0 k 1.

Definition keyOfMonth (period : SnapshotPeriod) (k : Z) : string :=
  keyOf period (firstOfMonth k * msPerDay).

(** Exhaustive checking of a property of the months from [start] on. *)
Fixpoint allMonths (f : Z -> bool) (start : Z) (n : nat) : bool :=
  match n with
  | O => true
  | S n' => f start && allMonths f (start + 1) n'
  end.

(** The months from January 1969 to December 2102. *)
Definition firstMonth : Z := 12 * 1969.
Definition tabledMonths : Z := 12 * 134.

Definition civilEqb (a b : Z * Z * Z) : bool :=
  (fst (fst a) =? fst (fst b)) && (snd (fst a) =? snd (fst b)) && (snd a =? snd b).

(** The date [d] lies in the month of index [k]. *)
Definition inMonth (k : Z) (d : Date) : Prop :=
  firstMonth <= k < firstMonth + tabledMonths /\
  firstOfMonth k <= dayOf d < firstOfMonth (k + 1).

(** The number of job documents of a user. *)
Definition jobCount (jobs : list (DocId * Job.Doc)) (user : string) : Z :=
  Z.of_nat (List.length (filter (fun j => String.eqb (Job.username (snd j)) user) jobs)).

(** The counter of a user document agrees with the job documents. *)
Definition counted (jobs : list (DocId * Job.Doc)) (d : DocId * User.Doc) : Prop :=
  optOrZero (User.jobsApplied (snd d)) = jobCount jobs (User.username (snd d)).

(** Every request to the roster is answered. *)
Definition answering (st : Roster) : Prop := Forall (fun b => b = false) (pending st).

(** What a synchronisation may do to a user document: nothing, or set
    its counter to the number of the user's jobs. *)
Definition corrected (jobs : list (DocId * Job.Doc)) (d d' : DocId * User.Doc) : Prop :=
  fst d' = fst d /\ User.username (snd d') = User.username (snd d) /\
  User.name (snd d') = User.name (snd d) /\
  (d' = d \/
   User.jobsApplied (snd d') = Some (jobCount jobs (User.username (snd d)))).

(** A roster whose counters are off: two job documents for the first
    user, who is credited with five, and one for the second, who has no
    counter. *)
Definition someRoster : Roster :=
  mkRoster [ (0%nat, User.mk "ana" (Some "Ana") (Some 5));
             (1%nat, User.mk "bo" None None) ]
           [ (7%nat, Job.mk "ana" "Engineer" "Initech" "https://initech.example/1"
                            "Applied" "2026-01-03T12:00:00.000Z");
             (8%nat, Job.mk "bo" "Analyst" "Globex" "https://globex.example/2"
                            "Offer" "2026-01-04T12:00:00.000Z");
             (9%nat, Job.mk "ana" "Designer" "Hooli" "https://hooli.example/3"
                            "Interview" "2026-01-05T12:00:00.000Z") ]
           [].

(** What the callbacks for [items] may do to a document. *)
Definition touched (c : list (string * Z)) (items : list (DocId * User.Doc))
    (d d' : DocId * User.Doc) : Prop :=
  fst d' = fst d /\ User.username (snd d') = User.username (snd d) /\
  User.name (snd d') = User.name (snd d) /\
  (d' = d \/
   exists x, In x items /\ fst x = fst d /\
             User.jobsApplied (snd d')
             = Some (optOrZero (mapGet c (User.username (snd x))))).

(** A user document after a callback whose request is answered. *)
Definition synced (c : list (string * Z)) (d : DocId * User.Doc) : DocId * User.Doc :=
  if negb (optOrZero (mapGet c (User.username (snd d)))
           =? optOrZero (User.jobsApplied (snd d)))
  then (fst d, User.mk (User.username (snd d)) (User.name (snd d))
                       (Some (optOrZero (mapGet c (User.username (snd d))))))
  else d.


(** The number of pauses and the traces of the requests in a log of the
    batch loop. *)
Definition pauses (log : list BatchEvent) : nat :=
  List.length (filter (fun e => match e with Paused _ => true | Batch _ => false end) log).

Definition tracesOf (log : list BatchEvent) : list (list Event) :=
  flat_map (fun e => match e with Batch traces => traces | Paused _ => [] end) log.

Definition batchSizes (log : list BatchEvent) : list nat :=
  flat_map (fun e => match e with Batch traces => [List.length traces] | Paused _ => [] end)
           log.

(** The fetch for one user document. *)
Definition fetchFor (net : string -> nat -> FetchOutcome) (u : DocId * User.Doc)
  : option (UserStats * list Event) :=
  fetchUserStats (net (User.username (snd u))) (User.username (snd u))
                 (optOrZero (User.jobsApplied (snd u))).

(** The result of the fetch for a user document. *)
Definition fetchedFor (net : string -> nat -> FetchOutcome) (u : DocId * User.Doc)
  : UserStats * list Event :=
  match fetchFor net u with
  | Some r => r
  | None => (failed (User.username (snd u)) (optOrZero (User.jobsApplied (snd u))) "", [])
  end.

(** A row of a load belongs to a user document. *)
Definition rowOf (u : DocId * User.Doc) (row : UserStats) : Prop :=
  username row = User.username (snd u) /\ name row = User.name (snd u) /\
  jobsApplied row = optOrZero (User.jobsApplied (snd u)).

(** * Properties *)

Lemma orZero_id (x : Z) : orZero x = x.
Proof.
  unfold orZero. destruct (Z.eqb_spec x 0); congruence.
Qed.

Lemma inject_Z_nonneg (z : Z) : 0 <= z -> (0 <= inject_Z z)%Q.
Proof.
  intro H. change 0%Q with (inject_Z 0). now rewrite <- Zle_Qle.
Qed.

Lemma xpOf_nonneg (j e m h : Z) :
  0 <= j -> 0 <= e -> 0 <= m -> 0 <= h -> (0 <= xpOf j e m h)%Q.
Proof.
  intros Hj He Hm Hh. unfold xpOf.
  apply inject_Z_nonneg in Hj, He, Hm, Hh.
  revert Hj He Hm Hh.
  generalize (inject_Z j) (inject_Z e) (inject_Z m) (inject_Z h).
  intros; lra.
Qed.

(** C2. With a baseline entry, every counter of the progress record is
    [max 0 (current - baseline)], its score is the weighted sum
    0.5*jobs + easy + 2*medium + 4*hard of those clamped deltas, the
    absolute scores of the two inputs play no part in it, and every
    numeric field is non-negative. *)
Theorem computeProgress_baseline (current : UserStats) (baseline : SnapshotUserStats) :
  let p := computeProgress current (Some baseline) in
  easy p = Z.max 0 (easy current - Snap.easy baseline) /\
  medium p = Z.max 0 (medium current - Snap.medium baseline) /\
  hard p = Z.max 0 (hard current - Snap.hard baseline) /\
  total p = Z.max 0 (total current - Snap.total baseline) /\
  jobsApplied p = Z.max 0 (jobsApplied current - Snap.jobsApplied baseline) /\
  (xp p == (1 # 2) * inject_Z (jobsApplied p) + 1 * inject_Z (easy p)
           + 2 * inject_Z (medium p) + 4 * inject_Z (hard p))%Q /\
  (forall q q' : Q,
     xp (computeProgress (withXp current q) (Some (snapWithXp baseline q'))) = xp p) /\
  0 <= easy p /\ 0 <= medium p /\ 0 <= hard p /\ 0 <= total p /\
  0 <= jobsApplied p /\ (0 <= xp p)%Q /\ 0 <= rank p.
Proof.
  cbn zeta. unfold computeProgress; cbn [easy medium hard total jobsApplied xp rank].
  rewrite orZero_id.
  repeat match goal with |- _ /\ _ => split end;
    try reflexivity; try apply Z.le_max_l; try lia.
  - unfold xpOf. ring.
  - intros q q'. cbn. now rewrite orZero_id.
  - apply xpOf_nonneg; apply Z.le_max_l.
Qed.

(** The scenario of the specification: baseline 5/2/1, total 8, one job;
    current 7/2/1, total 10, two jobs. *)
Example computeProgress_scenario :
  let current := mkUserStats "a" None 2 7 2 1 10 (16 # 1) 1 None in
  let baseline := Snap.mk "a" None 1 5 2 1 8 (13 # 1) in
  let p := computeProgress current (Some baseline) in
  (easy p, medium p, hard p, total p, jobsApplied p) = (2, 0, 0, 2, 1) /\
  (xp p == 5 # 2)%Q.
Proof.
  split; reflexivity.
Qed.

(** C3. Without a baseline entry every numeric field of the progress
    record is zero, whatever the current stats are. *)
Theorem computeProgress_absent (current : UserStats) :
  let p := computeProgress current None in
  easy p = 0 /\ medium p = 0 /\ hard p = 0 /\ total p = 0 /\
  jobsApplied p = 0 /\ xp p = 0%Q /\ rank p = 0 /\
  username p = username current /\ name p = name current /\
  error p = error current.
Proof.
  cbn. repeat match goal with |- _ /\ _ => split end; reflexivity.
Qed.

(** C10. Advancing a status walks Applied, Assessment, Interview, Offer
    one step at a time, wraps from Offer to Applied, and sends every
    string outside the sequence to Applied. *)
Theorem getNextStatus_cycle :
  getNextStatus "Applied" = "Assessment" /\
  getNextStatus "Assessment" = "Interview" /\
  getNextStatus "Interview" = "Offer" /\
  getNextStatus "Offer" = "Applied" /\
  (forall s : string, ~ In s STATUS_SEQUENCE -> getNextStatus s = "Applied") /\
  (forall (i : nat) (s : string),
     nth_error STATUS_SEQUENCE i = Some s ->
     nth_error STATUS_SEQUENCE ((i + 1) mod 4)%nat = Some (getNextStatus s)).
Proof.
  repeat split; try reflexivity.
  - intros s Hs. unfold getNextStatus, indexOf, STATUS_SEQUENCE in *.
    cbn [indexOfFrom].
    assert (H : forall a, In a ["Applied"; "Assessment"; "Interview"; "Offer"] ->
                          String.eqb a s = false).
    { intros a Ha. destruct (String.eqb_spec a s); [subst; tauto | reflexivity]. }
    rewrite !H by (cbn; tauto). reflexivity.
  - intros i s Hi.
    do 4 (destruct i as [|i]; [cbn in Hi; injection Hi as <-; reflexivity|]).
    cbn in Hi. destruct i; discriminate.
Qed.

(** ** Sorting *)

Section ArraySortFacts.
Context {A : Type} (cmp : A -> A -> Q).
Hypothesis cmp_total : forall x y, ~ precedes cmp x y -> precedes cmp y x.
Hypothesis cmp_trans :
  forall x y z, precedes cmp x y -> precedes cmp y z -> precedes cmp x z.

Lemma insertSorted_perm (x : A) (l : list A) :
  Permutation (insertSorted cmp x l) (x :: l).
Proof.
  induction l as [|y l IH]; cbn.
  - reflexivity.
  - destruct (Qle_bool (cmp x y) 0).
    + reflexivity.
    + rewrite IH. apply perm_swap.
Qed.

Lemma arraySort_perm (l : list A) : Permutation (arraySort cmp l) l.
Proof.
  induction l as [|x l IH]; cbn.
  - constructor.
  - rewrite insertSorted_perm. now constructor.
Qed.

Lemma insertSorted_sorted (x : A) (l : list A) :
  StronglySorted (precedes cmp) l ->
  StronglySorted (precedes cmp) (insertSorted cmp x l).
Proof.
  induction 1 as [|y l Hl IH Hy]; cbn.
  - repeat constructor.
  - destruct (Qle_bool (cmp x y) 0) eqn:E.
    + apply Qle_bool_iff in E.
      constructor; [now constructor|].
      constructor; [exact E|].
      eapply Forall_impl; [|exact Hy]. intros z Hz. now apply cmp_trans with y.
    + constructor; [exact IH|].
      apply (Permutation_Forall (Permutation_sym (insertSorted_perm x l))).
      constructor; [|exact Hy].
      apply cmp_total. unfold precedes. rewrite <- Qle_bool_iff. congruence.
Qed.

Lemma arraySort_sorted (l : list A) :
  StronglySorted (precedes cmp) (arraySort cmp l).
Proof.
  induction l as [|x l IH]; cbn.
  - constructor.
  - now apply insertSorted_sorted.
Qed.
End ArraySortFacts.

Lemma inject_Z_nonpos (z : Z) : (inject_Z z <= 0)%Q <-> z <= 0.
Proof.
  change 0%Q with (inject_Z 0). rewrite <- Zle_Qle. reflexivity.
Qed.

Lemma precedes_byXpThenTotal (a b : UserStats) :
  precedes byXpThenTotal a b <-> rankedBefore a b.
Proof.
  unfold precedes, byXpThenTotal, rankedBefore.
  destruct (Qeq_bool (xp b) (xp a)) eqn:E.
  - apply Qeq_bool_iff in E. rewrite inject_Z_nonpos. split.
    + intro H. right. split; [symmetry; exact E | lia].
    + intros [H | [_ H]]; [lra | lia].
  - apply Qeq_bool_neq in E. split.
    + intro H. left. lra.
    + intros [H | [H _]]; [lra | symmetry in H; contradiction].
Qed.

Lemma rankedBefore_total (a b : UserStats) :
  ~ rankedBefore a b -> rankedBefore b a.
Proof.
  unfold rankedBefore. intro H.
  destruct (Qlt_le_dec (xp b) (xp a)) as [Hlt | Hle]; [tauto|].
  destruct (Qlt_le_dec (xp a) (xp b)) as [Hlt' | Hle']; [tauto|].
  assert (Heq : (xp a == xp b)%Q) by lra.
  right. split; [symmetry; exact Heq|].
  destruct (Z_le_gt_dec (total b) (total a)); [tauto | lia].
Qed.

Lemma rankedBefore_trans (a b c : UserStats) :
  rankedBefore a b -> rankedBefore b c -> rankedBefore a c.
Proof.
  unfold rankedBefore.
  intros [H1 | [H1 H1']] [H2 | [H2 H2']].
  - left; lra.
  - left; lra.
  - left; lra.
  - right. split; [lra | lia].
Qed.

Lemma rankedBefore_withRank (a b : UserStats) (r r' : Z) :
  rankedBefore a b -> rankedBefore (withRank a r) (withRank b r').
Proof. exact (fun H => H). Qed.

(** ** Rank assignment *)

Lemma assignRanks_length (i : Z) (l : list UserStats) :
  List.length (assignRanks i l) = List.length l.
Proof.
  revert i; induction l as [|s l IH]; intro i; cbn; [reflexivity | now rewrite IH].
Qed.

Lemma assignRanks_rank (i : Z) (l : list UserStats) :
  map rank (assignRanks i l) =
  map (fun k => i + Z.of_nat k) (seq 1 (List.length l)).
Proof.
  revert i; induction l as [|s l IH]; intro i; [reflexivity|].
  cbn [assignRanks map List.length seq rank withRank].
  change (Z.of_nat 1) with 1. f_equal.
  rewrite IH, <- (seq_shift (List.length l) 1), map_map.
  apply map_ext. intro k. lia.
Qed.

Lemma assignRanks_nth (i : Z) (l : list UserStats) (k : nat) (s : UserStats) :
  nth_error (assignRanks i l) k = Some s -> rank s = i + Z.of_nat k + 1.
Proof.
  revert i k; induction l as [|x l IH]; intros i k H.
  - destruct k; discriminate.
  - destruct k as [|k]; cbn in H.
    + injection H as <-. cbn. lia.
    + apply IH in H. lia.
Qed.

Lemma assignRanks_unrank (i : Z) (l : list UserStats) :
  map (fun s => withRank s 0) (assignRanks i l) = map (fun s => withRank s 0) l.
Proof.
  revert i; induction l as [|s l IH]; intro i; cbn; [reflexivity|].
  now rewrite IH.
Qed.

Lemma assignRanks_Forall (R : UserStats -> UserStats -> Prop) (a : UserStats)
    (r i : Z) (l : list UserStats) :
  (forall x y r1 r2, R x y -> R (withRank x r1) (withRank y r2)) ->
  Forall (R a) l -> Forall (R (withRank a r)) (assignRanks i l).
Proof.
  intros HR H. revert i. induction H as [|y l Hy Hl IH]; intro i; cbn.
  - constructor.
  - constructor; [now apply HR | apply IH].
Qed.

Lemma assignRanks_sorted (R : UserStats -> UserStats -> Prop) (i : Z)
    (l : list UserStats) :
  (forall x y r1 r2, R x y -> R (withRank x r1) (withRank y r2)) ->
  StronglySorted R l -> StronglySorted R (assignRanks i l).
Proof.
  intros HR H. revert i. induction H as [|x l Hl IH Hx]; intro i; cbn.
  - constructor.
  - constructor; [apply IH | now apply assignRanks_Forall].
Qed.

Lemma seq_ranks_NoDup (n : nat) : NoDup (map Z.of_nat (seq 1 n)).
Proof.
  generalize 1%nat. induction n as [|n IH]; intro k; cbn; constructor.
  - rewrite in_map_iff. intros [j [Hj Hin]].
    apply Nat2Z.inj in Hj. subst j. apply in_seq in Hin. lia.
  - apply IH.
Qed.

(** C5. The ranked list is the input reordered, descending by xp with
    ties broken by descending total, and the ranks read 1, 2, ..., N
    along the final order: positional, without gaps or repetitions, so
    tied users never share a rank. *)
Theorem sortAndRank_spec (items : list UserStats) :
  let ranked := sortAndRank items in
  StronglySorted rankedBefore ranked /\
  Permutation (map (fun s => withRank s 0) ranked)
              (map (fun s => withRank s 0) items) /\
  map rank ranked = map Z.of_nat (seq 1 (List.length items)) /\
  NoDup (map rank ranked) /\
  (forall (i : nat) (s : UserStats),
     nth_error ranked i = Some s -> rank s = Z.of_nat i + 1).
Proof.
  assert (Hsorted : StronglySorted rankedBefore (arraySort byXpThenTotal items)).
  { eapply StronglySorted_ind with
      (P := fun l => StronglySorted rankedBefore l);
      [constructor | | apply (arraySort_sorted byXpThenTotal)].
    - intros a l _ IH Ha. constructor; [exact IH|].
      eapply Forall_impl; [|exact Ha]. intros b. apply precedes_byXpThenTotal.
    - intros x y H. apply precedes_byXpThenTotal, rankedBefore_total.
      now rewrite <- precedes_byXpThenTotal.
    - intros x y z. rewrite !precedes_byXpThenTotal. apply rankedBefore_trans. }
  assert (Hlen : List.length (arraySort byXpThenTotal items) = List.length items)
    by (apply Permutation_length, arraySort_perm).
  assert (Hrank : map rank (sortAndRank items) =
                  map Z.of_nat (seq 1 (List.length items))).
  { unfold sortAndRank. rewrite assignRanks_rank, Hlen. apply map_ext. intro; lia. }
  cbn zeta. repeat match goal with |- _ /\ _ => split end.
  - apply assignRanks_sorted; [apply rankedBefore_withRank | exact Hsorted].
  - unfold sortAndRank. rewrite assignRanks_unrank.
    apply Permutation_map, arraySort_perm.
  - exact Hrank.
  - rewrite Hrank. apply seq_ranks_NoDup.
  - intros i s Hi. apply assignRanks_nth in Hi. lia.
Qed.

(** ** Previous-period leaderboard *)

Lemma fieldOrZero_startValue (f : SnapshotUserStats -> Z)
    (startSnap : option LeaderboardSnapshot) (u : string) :
  fieldOrZero f (findSnapshotUser startSnap u) = startValue f startSnap u.
Proof.
  unfold fieldOrZero, startValue.
  destruct (findSnapshotUser startSnap u); [apply orZero_id | reflexivity].
Qed.

Lemma precedes_byXp (a b : UserStats) :
  precedes byXp a b <-> (xp b <= xp a)%Q.
Proof.
  unfold precedes, byXp. split; intro; lra.
Qed.

(** C6, as the code has it.  The previous-period list is the list of the
    end snapshot's users, one record each, ordered by descending xp and
    ranked 1..N.  In each record jobsApplied, easy, medium and hard are
    [max 0 (end - start)], where a user missing from the start snapshot
    counts from zero; xp is the weighted sum of those four deltas; and
    total is the sum of the easy, medium and hard deltas (the totals of
    the two snapshots are not read). *)
Theorem computePrevStats_spec (endSnap : LeaderboardSnapshot)
    (startSnap : option LeaderboardSnapshot) :
  let ranked := computePrevStats endSnap startSnap in
  Permutation (map (fun s => withRank s 0) ranked)
              (map (prevEntry startSnap) (users (data endSnap))) /\
  StronglySorted (fun a b => (xp b <= xp a)%Q) ranked /\
  map rank ranked = map Z.of_nat (seq 1 (List.length (users (data endSnap)))) /\
  (forall endUser : SnapshotUserStats,
     let p := prevEntry startSnap endUser in
     let u := Snap.username endUser in
     username p = u /\
     jobsApplied p = Z.max 0 (Snap.jobsApplied endUser - startValue Snap.jobsApplied startSnap u) /\
     easy p = Z.max 0 (Snap.easy endUser - startValue Snap.easy startSnap u) /\
     medium p = Z.max 0 (Snap.medium endUser - startValue Snap.medium startSnap u) /\
     hard p = Z.max 0 (Snap.hard endUser - startValue Snap.hard startSnap u) /\
     total p = easy p + medium p + hard p /\
     (xp p == (1 # 2) * inject_Z (jobsApplied p) + 1 * inject_Z (easy p)
              + 2 * inject_Z (medium p) + 4 * inject_Z (hard p))%Q /\
     (findSnapshotUser startSnap u = None ->
        jobsApplied p = Z.max 0 (Snap.jobsApplied endUser) /\
        easy p = Z.max 0 (Snap.easy endUser) /\
        medium p = Z.max 0 (Snap.medium endUser) /\
        hard p = Z.max 0 (Snap.hard endUser))).
Proof.
  cbn zeta. unfold computePrevStats.
  set (entries := map (prevEntry startSnap) (users (data endSnap))).
  repeat match goal with |- _ /\ _ => split end.
  - rewrite assignRanks_unrank.
    transitivity (map (fun s => withRank s 0) entries).
    + apply Permutation_map, arraySort_perm.
    + subst entries. rewrite map_map. apply Permutation_refl.
  - apply assignRanks_sorted; [intros x y r1 r2 H; exact H|].
    eapply StronglySorted_ind with
      (P := fun l => StronglySorted (fun a b => (xp b <= xp a)%Q) l);
      [constructor | | apply (arraySort_sorted byXp)].
    + intros a l _ IH Ha. constructor; [exact IH|].
      eapply Forall_impl; [|exact Ha]. intros b. apply precedes_byXp.
    + intros x y. rewrite !precedes_byXp. intro H. lra.
    + intros x y z. rewrite !precedes_byXp. intros; lra.
  - rewrite assignRanks_rank.
    rewrite (Permutation_length (arraySort_perm byXp entries)).
    subst entries. rewrite length_map. apply map_ext. intro; lia.
  - intro endUser. unfold prevEntry.
    cbn [username jobsApplied easy medium hard total xp].
    rewrite !fieldOrZero_startValue.
    repeat match goal with |- _ /\ _ => split end; try reflexivity.
    + unfold xpOf. ring.
    + intro Hnone. unfold startValue. rewrite Hnone.
      rewrite !Z.sub_0_r. repeat split.
Qed.

Lemma computePrevStats_spec_witness :
  let newcomer := Snap.mk "bo" (Some "Bo") 1 3 1 0 4 (11 # 2) in
  let endSnap := mkLeaderboardSnapshot (Some 2%nat)
                   (mkSnapshotData weekly "2026-W02" 0 [newcomer]) in
  let p := prevEntry None newcomer in
  jobsApplied p = 1 /\ easy p = 3 /\ medium p = 1 /\ hard p = 0.
Proof.
  cbv zeta.
  destruct (computePrevStats_spec
              (mkLeaderboardSnapshot (Some 2%nat)
                 (mkSnapshotData weekly "2026-W02" 0
                    [Snap.mk "bo" (Some "Bo") 1 3 1 0 4 (11 # 2)]))
              None) as (_ & _ & _ & H).
  destruct (H (Snap.mk "bo" (Some "Bo") 1 3 1 0 4 (11 # 2)))
    as (_ & _ & _ & _ & _ & _ & _ & Habsent).
  exact (Habsent eq_refl).
Defined.

(** C6, as the specification words it, fails on [total]: a user whose easy count
    went from 5 to 3 while medium went from 2 to 5 has totals 7 and 8,
    so [max 0 (8 - 7)] is 1, and the code reports 0 + 3 + 0 = 3. *)
Lemma computePrevStats_total_not_clamped_difference :
  let endUser := Snap.mk "ana" None 0 3 5 0 8 (13 # 1) in
  let startUser := Snap.mk "ana" None 0 5 2 0 7 (9 # 1) in
  let endSnap := mkLeaderboardSnapshot (Some 2%nat)
                   (mkSnapshotData weekly "2026-W02" 0 [endUser]) in
  let startSnap := mkLeaderboardSnapshot (Some 1%nat)
                     (mkSnapshotData weekly "2026-W01" 0 [startUser]) in
  map total (computePrevStats endSnap (Some startSnap)) = [3] /\
  Z.max 0 (Snap.total endUser - Snap.total startUser) = 1 /\
  ~ (forall p, In p (computePrevStats endSnap (Some startSnap)) ->
       total p = Z.max 0 (Snap.total endUser - Snap.total startUser)).
Proof.
  cbn zeta. split; [reflexivity | split; [reflexivity|]].
  intro H. specialize (H _ (or_introl eq_refl)). vm_compute in H. discriminate.
Qed.

(** ** The database model *)

Lemma SnapshotPeriod_eqb_eq (p q : SnapshotPeriod) :
  SnapshotPeriod_eqb p q = true <-> p = q.
Proof.
  destruct p, q; cbn; split; intro H; try reflexivity; discriminate.
Qed.

Lemma matches_iff (p : SnapshotPeriod) (k : string) (d : DocId * SnapshotData) :
  matches p k d = true <-> period (snd d) = p /\ periodKey (snd d) = k.
Proof.
  unfold matches. now rewrite andb_true_iff, SnapshotPeriod_eqb_eq, String.eqb_eq.
Qed.

Lemma matches_own (i : DocId) (d : SnapshotData) :
  matches (period d) (periodKey d) (i, d) = true.
Proof. now apply matches_iff. Qed.

Lemma request_frame (db : Firestore) :
  docs (snd (request db)) = docs db /\ nextId (snd (request db)) = nextId db.
Proof.
  unfold request. destruct (faults db) as [|[] rest]; now cbn.
Qed.

Lemma request_healthy (db : Firestore) :
  healthy db -> fst (request db) = Some tt /\ healthy (snd (request db)).
Proof.
  unfold healthy, request. intro H.
  destruct (faults db) as [|b rest] eqn:E; cbn.
  - split; [reflexivity | now rewrite E].
  - inversion H as [|? ? Hb Hrest]; subst. now split.
Qed.

(** What [ensureSnapshot] does, case by case. *)
Lemma ensureSnapshot_unfold (rt : Runtime) (clock stamp : Z)
    (p : SnapshotPeriod) (currentStats : list UserStats) (db : Firestore) :
  let key := getPeriodKey rt clock p in
  let newSnapshot := mkSnapshotData p key stamp (map toSnapshotUser currentStats) in
  ensureSnapshot rt clock stamp p currentStats db =
  match request db with
  | (None, db1) => (Some None, db1)
  | (Some _, db1) =>
      match filter (matches p key) (docs db1) with
      | doc :: _ => (Some (Some (loaded doc)), db1)
      | [] =>
          match request db1 with
          | (None, db2) => (Some None, db2)
          | (Some _, db2) =>
              (Some (Some (mkLeaderboardSnapshot (Some (nextId db2)) newSnapshot)),
               mkFirestore (docs db2 ++ [(nextId db2, newSnapshot)])
                           (S (nextId db2)) (faults db2))
          end
      end
  end.
Proof.
  cbv beta zeta delta [ensureSnapshot tryCatch bind getDocsByKey addDoc ret].
  destruct (request db) as [[[]|] db1]; [|reflexivity].
  destruct (filter _ (docs db1)) as [|doc rest]; [|reflexivity].
  cbn [firstn]. destruct (request db1) as [[[]|] db2]; reflexivity.
Qed.

(** The store only ever gains the one document [ensureSnapshot] creates. *)
Lemma ensureSnapshot_docs (rt : Runtime) (clock stamp : Z)
    (p : SnapshotPeriod) (currentStats : list UserStats) (db : Firestore) :
  let key := getPeriodKey rt clock p in
  let db' := snd (ensureSnapshot rt clock stamp p currentStats db) in
  docs db' = docs db \/
  (filter (matches p key) (docs db) = [] /\
   exists i, docs db' =
     (docs db ++ [(i, mkSnapshotData p key stamp (map toSnapshotUser currentStats))])%list).
Proof.
  cbn zeta. rewrite ensureSnapshot_unfold.
  pose proof (request_frame db) as [Hd _].
  destruct (request db) as [[[]|] db1]; cbn [snd] in *; [|now left].
  rewrite Hd. destruct (filter _ (docs db)) as [|doc rest] eqn:E; [|now left].
  pose proof (request_frame db1) as [Hd1 _].
  destruct (request db1) as [[[]|] db2]; cbn [snd docs] in *; [|left; congruence].
  right. split; [reflexivity|]. exists (nextId db2). congruence.
Qed.



(** ** Patching the current snapshots with a new user *)

Lemma setUsers_absent (i : DocId) (us : list SnapshotUserStats)
    (l : list (DocId * SnapshotData)) :
  ~ In i (map fst l) -> map (setUsers i us) l = l.
Proof.
  induction l as [|d l IH]; cbn; intro H; [reflexivity|].
  rewrite IH by tauto. f_equal. unfold setUsers.
  destruct (Nat.eqb_spec (fst d) i); [tauto | reflexivity].
Qed.

Lemma updateDoc_healthy (i : DocId) (us : list SnapshotUserStats)
    (pre rest : list (DocId * SnapshotData)) (d : SnapshotData) (db : Firestore) :
  docs db = (pre ++ (i, d) :: rest)%list ->
  NoDup (map fst (docs db)) ->
  healthy db ->
  let out := updateDoc i us db in
  fst out = Some tt /\ healthy (snd out) /\
  docs (snd out) =
    (pre ++ (i, mkSnapshotData (period d) (periodKey d) (createdAt d) us) :: rest)%list.
Proof.
  intros Hdocs Hnodup Hh. cbv beta zeta delta [updateDoc bind].
  pose proof (request_frame db) as [Hd _].
  pose proof (request_healthy db Hh) as [Hok Hh1].
  destruct (request db) as [[[]|] db1]; cbn [fst snd] in *; [|discriminate].
  cbv beta iota. rewrite Hdocs in Hnodup, Hd. rewrite Hd.
  assert (Hex : existsb (fun x : DocId * SnapshotData => Nat.eqb (fst x) i)
                        (pre ++ (i, d) :: rest) = true).
  { apply existsb_exists. exists (i, d). split; [apply in_elt | apply Nat.eqb_refl]. }
  rewrite Hex. cbn [fst snd docs]. repeat split; [exact Hh1|].
  rewrite map_app in Hnodup. cbn [map fst] in Hnodup.
  pose proof (NoDup_remove_2 _ _ _ Hnodup) as Hnot.
  rewrite in_app_iff in Hnot.
  rewrite map_app. cbn [map]. rewrite !setUsers_absent by tauto.
  unfold setUsers at 1. cbn [fst snd]. now rewrite Nat.eqb_refl.
Qed.

Section Patch.
Variables (rt : Runtime) (clock : Z) (username : string)
          (stats : UserStats) (name : string).

Let callback (docSnap : DocId * SnapshotData) : Op unit :=
  let data := snd docSnap in
  if isCurrent rt clock data && negb (hasUser username (users data))
  then updateDoc (fst docSnap) (users data ++ [newUserSnapshot username stats name])
  else ret tt.

Lemma patched_id (d : DocId * SnapshotData) :
  fst (patched rt clock username stats name d) = fst d.
Proof.
  unfold patched. now destruct (_ && _).
Qed.

Lemma promiseAllMap_patched (l pre : list (DocId * SnapshotData)) (db : Firestore) :
  docs db = (pre ++ l)%list ->
  NoDup (map fst (docs db)) ->
  healthy db ->
  let out := promiseAllMap callback l db in
  fst out = Some tt /\
  docs (snd out) = (pre ++ map (patched rt clock username stats name) l)%list.
Proof.
  revert pre db. induction l as [|x l IH]; intros pre db Hdocs Hnodup Hh.
  - cbn. now split.
  - cbn [promiseAllMap map].
    assert (Hx : fst (callback x db) = Some tt /\ healthy (snd (callback x db)) /\
                 docs (snd (callback x db)) =
                 ((pre ++ [patched rt clock username stats name x]) ++ l)%list).
    { unfold callback, patched.
      destruct (isCurrent rt clock (snd x) && negb (hasUser username (users (snd x)))).
      - destruct x as [i d]. cbn [fst snd].
        destruct (updateDoc_healthy i
                    (users d ++ [newUserSnapshot username stats name])
                    pre l d db Hdocs Hnodup Hh) as (H1 & H2 & H3).
        rewrite H3, <- app_assoc. now repeat split.
      - cbn. rewrite <- app_assoc. now repeat split. }
    destruct Hx as (Hr & Hh1 & Hd1).
    destruct (callback x db) as [r db1]. cbn [fst snd] in *.
    assert (Hnodup1 : NoDup (map fst (docs db1))).
    { rewrite Hd1, !map_app. cbn [map]. rewrite patched_id.
      rewrite Hdocs, map_app in Hnodup. cbn [map] in Hnodup.
      now rewrite <- app_assoc. }
    destruct (IH _ db1 Hd1 Hnodup1 Hh1) as [Hr2 Hd2].
    destruct (promiseAllMap callback l db1) as [r' db2]. cbn [fst snd] in *.
    subst r r'. split; [reflexivity|].
    rewrite Hd2, <- app_assoc. reflexivity.
Qed.

Lemma addUserToCurrentSnapshots_docs (db : Firestore) :
  NoDup (map fst (docs db)) ->
  healthy db ->
  docs (snd (addUserToCurrentSnapshots rt clock username stats name db)) =
  map (patched rt clock username stats name) (docs db).
Proof.
  intros Hnodup Hh.
  cbv beta zeta delta [addUserToCurrentSnapshots tryCatch bind getDocs].
  pose proof (request_frame db) as [Hd _].
  pose proof (request_healthy db Hh) as [Hok Hh1].
  destruct (request db) as [[[]|] db1]; cbn [fst snd] in *; [|discriminate].
  rewrite <- Hd in Hnodup |- *.
  destruct (promiseAllMap_patched (docs db1) [] db1 eq_refl Hnodup Hh1) as [Hr Hdocs].
  fold callback.
  destruct (promiseAllMap callback (docs db1) db1) as [r db2]. cbn [fst snd] in *.
  subst r. exact Hdocs.
Qed.
End Patch.

(** The same walk when requests may fail: a document is then either
    patched or left as it was. *)
Lemma updateDoc_any (i : DocId) (us : list SnapshotUserStats)
    (pre rest : list (DocId * SnapshotData)) (d : SnapshotData) (db : Firestore) :
  docs db = (pre ++ (i, d) :: rest)%list ->
  NoDup (map fst (docs db)) ->
  let out := updateDoc i us db in
  docs (snd out) = docs db \/
  docs (snd out) =
    (pre ++ (i, mkSnapshotData (period d) (periodKey d) (createdAt d) us) :: rest)%list.
Proof.
  intros Hdocs Hnodup. cbv beta zeta delta [updateDoc bind].
  pose proof (request_frame db) as [Hd _].
  destruct (request db) as [[[]|] db1]; cbn [fst snd] in *; [|now left].
  cbv beta iota.
  destruct (existsb _ (docs db1)); cbn [snd docs]; [|now left].
  right. rewrite Hd, Hdocs. rewrite Hdocs, map_app in Hnodup. cbn [map fst] in Hnodup.
  pose proof (NoDup_remove_2 _ _ _ Hnodup) as Hnot.
  rewrite in_app_iff in Hnot.
  rewrite map_app. cbn [map]. rewrite !setUsers_absent by tauto.
  unfold setUsers at 1. cbn [fst snd]. now rewrite Nat.eqb_refl.
Qed.

Section PatchAny.
Variables (rt : Runtime) (clock : Z) (username : string)
          (stats : UserStats) (name : string).

Let callback (docSnap : DocId * SnapshotData) : Op unit :=
  let data := snd docSnap in
  if isCurrent rt clock data && negb (hasUser username (users data))
  then updateDoc (fst docSnap) (users data ++ [newUserSnapshot username stats name])
  else ret tt.

Let keptOrPatched (before after : DocId * SnapshotData) : Prop :=
  after = before \/ after = patched rt clock username stats name before.

Lemma promiseAllMap_any (l pre : list (DocId * SnapshotData)) (db : Firestore) :
  docs db = (pre ++ l)%list ->
  NoDup (map fst (docs db)) ->
  exists l', docs (snd (promiseAllMap callback l db)) = (pre ++ l')%list /\
             Forall2 keptOrPatched l l'.
Proof.
  revert pre db. induction l as [|x l IH]; intros pre db Hdocs Hnodup.
  - exists []. split; [exact Hdocs | constructor].
  - cbn [promiseAllMap].
    assert (Hx : exists x', keptOrPatched x x' /\
                 docs (snd (callback x db)) = ((pre ++ [x']) ++ l)%list).
    { unfold callback, keptOrPatched, patched.
      destruct (isCurrent rt clock (snd x) && negb (hasUser username (users (snd x)))).
      - destruct x as [i d]. cbn [fst snd].
        destruct (updateDoc_any i
                    (users d ++ [newUserSnapshot username stats name])
                    pre l d db Hdocs Hnodup) as [H | H]; rewrite H.
        + exists (i, d). rewrite <- app_assoc. now split; [left|].
        + eexists. rewrite <- app_assoc. split; [right; reflexivity | reflexivity].
      - exists x. cbn. rewrite <- app_assoc. now split; [left|]. }
    destruct Hx as (x' & Hx' & Hd1).
    destruct (callback x db) as [r db1]. cbn [fst snd] in *.
    assert (Hnodup1 : NoDup (map fst (docs db1))).
    { rewrite Hd1, !map_app. cbn [map].
      assert (Hid : fst x' = fst x)
        by (destruct Hx' as [-> | ->]; [reflexivity | apply patched_id]).
      rewrite Hid. rewrite Hdocs, map_app in Hnodup. cbn [map] in Hnodup.
      now rewrite <- app_assoc. }
    destruct (IH _ db1 Hd1 Hnodup1) as (l' & Hd2 & Hl').
    destruct (promiseAllMap callback l db1) as [r' db2]. cbn [fst snd] in *.
    exists (x' :: l'). split; [|now constructor].
    rewrite Hd2, <- app_assoc. reflexivity.
Qed.

Lemma addUserToCurrentSnapshots_any (db : Firestore) :
  NoDup (map fst (docs db)) ->
  Forall2 keptOrPatched (docs db)
    (docs (snd (addUserToCurrentSnapshots rt clock username stats name db))).
Proof.
  intros Hnodup.
  cbv beta zeta delta [addUserToCurrentSnapshots tryCatch bind getDocs].
  pose proof (request_frame db) as [Hd _].
  destruct (request db) as [[[]|] db1]; cbn [fst snd] in *.
  - rewrite <- Hd in Hnodup |- *.
    destruct (promiseAllMap_any (docs db1) [] db1 eq_refl Hnodup) as (l' & Hdocs & Hl').
    fold callback.
    cbn [app] in Hdocs.
    destruct (promiseAllMap callback (docs db1) db1) as [[[]|] db2];
      unfold ret; cbn [fst snd] in *; congruence.
  - cbn. rewrite Hd. clear. induction (docs db); constructor; [now left | assumption].
Qed.
End PatchAny.

(** C7. A snapshot that already lists the user, or that is not one of
    the current period's snapshots, comes out of the patch exactly as it
    went in.  A current snapshot that does not list the user gets one
    entry appended, carrying the user's stats at join time, with all its
    earlier entries and its other fields as they were.  When requests
    fail, a document is patched in this way or left as it was; no
    existing entry is ever rewritten. *)
Theorem addUserToCurrentSnapshots_append_only (rt : Runtime) (clock : Z)
    (username : string) (stats : UserStats) (name : string) (db : Firestore) :
  NoDup (map fst (docs db)) ->
  let db' := snd (addUserToCurrentSnapshots rt clock username stats name db) in
  let entry := newUserSnapshot username stats name in
  let patch := patched rt clock username stats name in
  (healthy db -> docs db' = map patch (docs db)) /\
  Forall2 (fun before after => after = before \/ after = patch before)
          (docs db) (docs db') /\
  (forall d : DocId * SnapshotData,
     (hasUser username (users (snd d)) = true -> patch d = d) /\
     (isCurrent rt clock (snd d) = false -> patch d = d) /\
     (isCurrent rt clock (snd d) = true ->
      hasUser username (users (snd d)) = false ->
      patch d = (fst d, mkSnapshotData (period (snd d)) (periodKey (snd d))
                          (createdAt (snd d)) (users (snd d) ++ [entry])))) /\
  Snap.username entry = username /\ Snap.name entry = Some name /\
  Snap.jobsApplied entry = jobsApplied stats /\ Snap.easy entry = easy stats /\
  Snap.medium entry = medium stats /\ Snap.hard entry = hard stats /\
  Snap.total entry = total stats /\ Snap.xp entry = xp stats.
Proof.
  intros Hnodup. cbn zeta.
  repeat match goal with |- _ /\ _ => split end; try reflexivity.
  - intro Hh. now apply addUserToCurrentSnapshots_docs.
  - now apply addUserToCurrentSnapshots_any.
  - intro d. unfold patched. repeat split.
    + intro H. rewrite H. cbn [negb]. now rewrite andb_false_r.
    + intro H. now rewrite H.
    + intros H1 H2. now rewrite H1, H2.
Qed.

Lemma addUserToCurrentSnapshots_append_only_witness :
  map (fun d => map Snap.username (users (snd d)))
      (docs (snd (addUserToCurrentSnapshots utcRuntime saturdayNoon "bo" bo "Bo" someStore)))
  = [["ana"; "bo"]; ["ana"; "bo"]; ["ana"]].
Proof.
  assert (Hn : NoDup (map fst (docs someStore))).
  { cbn. repeat constructor; cbn; intuition discriminate. }
  destruct (addUserToCurrentSnapshots_append_only utcRuntime saturdayNoon "bo" bo "Bo"
              someStore Hn) as (H & _).
  rewrite (H (Forall_nil _)). vm_compute. reflexivity.
Defined.

(** ** Period keys *)

Lemma dayOf_midnight (k : Z) : dayOf (k * msPerDay) = k.
Proof.
  unfold dayOf. apply Z.div_mul. discriminate.
Qed.

Lemma startOfISOWeek_day (d : Date) :
  startOfISOWeek d = weekStartOfDay (dayOf d) * msPerDay.
Proof. reflexivity. Qed.

Lemma leb_day (k : Z) (d : Date) : (k * msPerDay <=? d) = (k <=? dayOf d).
Proof.
  unfold dayOf, msPerDay.
  destruct (Z.leb_spec (k * 86400000) d), (Z.leb_spec k (d / 86400000));
    try reflexivity; exfalso; Z.div_mod_to_equations; lia.
Qed.

Lemma getISOWeekYear_day (d : Date) : getISOWeekYear d = isoWeekYearOfDay (dayOf d).
Proof.
  unfold getISOWeekYear, isoWeekYearOfDay, getFullYear, midnightOf.
  cbv zeta. rewrite !startOfISOWeek_day, !dayOf_midnight, !leb_day.
  reflexivity.
Qed.

Lemma roundDiv_weeks (k : Z) :
  roundDiv (k * msPerDay) millisecondsInWeek = (2 * k + 7) / 14.
Proof.
  unfold roundDiv, millisecondsInWeek, msPerDay.
  replace (2 * (k * 86400000) + 604800000) with ((2 * k + 7) * 86400000) by lia.
  change (2 * 604800000) with (14 * 86400000).
  apply Z.div_mul_cancel_r; discriminate.
Qed.

Lemma getISOWeek_day (d : Date) : getISOWeek d = isoWeekOfDay (dayOf d).
Proof.
  unfold getISOWeek, isoWeekOfDay, startOfISOWeekYear, midnightOf.
  cbv zeta. rewrite !startOfISOWeek_day, !dayOf_midnight, getISOWeekYear_day.
  rewrite <- Z.mul_sub_distr_r, roundDiv_weeks. reflexivity.
Qed.

(** The weekly key only reads the local calendar day of its argument. *)
Lemma getWeeklyPeriodKey_day (d : Date) :
  getWeeklyPeriodKey d = weeklyKeyOfDay (dayOf d).
Proof.
  unfold getWeeklyPeriodKey, weeklyKeyOfDay, format. cbn [map formatToken].
  now rewrite getISOWeekYear_day, getISOWeek_day.
Qed.

Lemma allWeeks_spec (f : Z -> bool) (n : nat) (start k : Z) :
  allWeeks f start n = true -> 0 <= k < Z.of_nat n -> f (start + 7 * k) = true.
Proof.
  revert start k. induction n as [|n IH]; intros start k H Hk; [lia|].
  cbn [allWeeks] in H. apply andb_true_iff in H. destruct H as [H0 H1].
  destruct (Z.eq_dec k 0) as [-> | Hne].
  - now rewrite Z.mul_0_r, Z.add_0_r.
  - replace (start + 7 * k) with (start + 7 + 7 * (k - 1)) by lia.
    apply IH; [exact H1 | lia].
Qed.

(** The seven days of each of these weeks share the ISO week-numbering
    year of their Monday [m]. *)
Lemma sameYear_hold :
  allWeeks (fun m => forallb (fun i => isoWeekYearOfDay (m + i) =? isoWeekYearOfDay m)
                             [1; 2; 3; 4; 5; 6])
           (-3) (Z.to_nat chartedWeeks) = true.
Proof. vm_cast_no_check (@eq_refl bool true). Qed.

(** The key of the next week is a later string. *)
Lemma nextLater_hold :
  allWeeks (fun m => String.ltb (weeklyKeyOfDay m) (weeklyKeyOfDay (m + 7)))
           (-3) (Z.to_nat chartedWeeks) = true.
Proof. vm_cast_no_check (@eq_refl bool true). Qed.

Lemma charted_week (d : Date) :
  charted d ->
  exists k i, 0 <= k < chartedWeeks /\ 0 <= i <= 6 /\
              weekStartOfDay (dayOf d) = -3 + 7 * k /\
              weekStartOfDay (-3 + 7 * k) = -3 + 7 * k /\
              dayOf d = -3 + 7 * k + i.
Proof.
  unfold charted, dayOf, weekStartOfDay, msPerDay, chartedWeeks. intros H.
  exists ((d / 86400000 + 3) / 7), ((d / 86400000 + 3) mod 7).
  cbv zeta.
  destruct (Z.ltb_spec ((d / 86400000 + 4) mod 7) 1),
           (Z.ltb_spec ((-3 + 7 * ((d / 86400000 + 3) / 7) + 4) mod 7) 1);
    Z.div_mod_to_equations; lia.
Qed.

Lemma weeks_covered (k : Z) :
  0 <= k < chartedWeeks -> 0 <= k < Z.of_nat (Z.to_nat chartedWeeks).
Proof.
  intros Hk. rewrite Z2Nat.id; [exact Hk | discriminate].
Qed.

Lemma weeklyKeyOfDay_week (m i : Z) :
  isoWeekYearOfDay (m + i) = isoWeekYearOfDay m ->
  weekStartOfDay (m + i) = m ->
  weekStartOfDay m = m ->
  weeklyKeyOfDay (m + i) = weeklyKeyOfDay m.
Proof.
  intros Hyear Hweek Hmonday.
  unfold weeklyKeyOfDay, isoWeekOfDay. rewrite Hyear, Hweek, Hmonday. reflexivity.
Qed.

Lemma weekChecks_day (d : Date) :
  charted d ->
  weeklyKeyOfDay (dayOf d) = weeklyKeyOfDay (weekStartOfDay (dayOf d)) /\
  String.ltb (weeklyKeyOfDay (weekStartOfDay (dayOf d)))
             (weeklyKeyOfDay (weekStartOfDay (dayOf d) + 7)) = true.
Proof.
  intros Hd.
  destruct (charted_week d Hd) as (k & i & Hk & Hi & Hweek & Hmonday & Hday).
  apply weeks_covered in Hk.
  pose proof (allWeeks_spec _ _ _ _ sameYear_hold Hk) as Hsame.
  pose proof (allWeeks_spec _ _ _ _ nextLater_hold Hk) as Hlater.
  cbv beta in Hsame, Hlater.
  rewrite Hweek. revert Hweek. rewrite Hday. intro Hweek.
  split; [|exact Hlater].
  destruct (Z.eq_dec i 0) as [-> | Hne]; [now rewrite Z.add_0_r|].
  apply weeklyKeyOfDay_week; [|exact Hweek | exact Hmonday].
  rewrite forallb_forall in Hsame.
  apply Z.eqb_eq, Hsame. cbn. lia.
Qed.

(** On the dates of one wall clock, the weekly key is the same throughout
    an ISO week. *)
Lemma getWeeklyPeriodKey_same_week (d1 d2 : Date) :
  charted d1 -> charted d2 ->
  startOfISOWeek d1 = startOfISOWeek d2 ->
  getWeeklyPeriodKey d1 = getWeeklyPeriodKey d2.
Proof.
  intros H1 H2 Hweek.
  rewrite !startOfISOWeek_day in Hweek.
  apply Z.mul_reg_r in Hweek; [|discriminate].
  rewrite !getWeeklyPeriodKey_day.
  destruct (weekChecks_day d1 H1) as [-> _], (weekChecks_day d2 H2) as [-> _].
  now rewrite Hweek.
Qed.

Lemma weekStartOfDay_next_week (d : Date) :
  weekStartOfDay (dayOf (d + millisecondsInWeek)) = weekStartOfDay (dayOf d) + 7.
Proof.
  assert (Hday : dayOf (d + millisecondsInWeek) = dayOf d + 7).
  { unfold dayOf, millisecondsInWeek, msPerDay. Z.div_mod_to_equations. lia. }
  rewrite Hday. generalize (dayOf d). intro n. unfold weekStartOfDay. cbv zeta.
  replace ((n + 7 + 4) mod 7) with ((n + 4) mod 7)
    by (Z.div_mod_to_equations; lia).
  lia.
Qed.

Lemma ltb_irrefl (s : string) : String.ltb s s = false.
Proof.
  unfold String.ltb. pose proof (String.compare_antisym s s) as Ha.
  destruct (String.compare s s); [reflexivity | discriminate | reflexivity].
Qed.

(** On the dates of one wall clock, the key one week later is another
    key, and a later one in the order of strings. *)
Lemma getWeeklyPeriodKey_next_week (d : Date) :
  charted d -> charted (d + millisecondsInWeek) ->
  String.ltb (getWeeklyPeriodKey d) (getWeeklyPeriodKey (d + millisecondsInWeek)) = true /\
  getWeeklyPeriodKey d <> getWeeklyPeriodKey (d + millisecondsInWeek).
Proof.
  intros Hd Hd'.
  assert (Hlt : String.ltb (getWeeklyPeriodKey d)
                           (getWeeklyPeriodKey (d + millisecondsInWeek)) = true).
  { rewrite !getWeeklyPeriodKey_day.
    destruct (weekChecks_day d Hd) as [-> Hlater].
    destruct (weekChecks_day _ Hd') as [-> _].
    rewrite weekStartOfDay_next_week. exact Hlater. }
  split; [exact Hlt|].
  intro Heq. rewrite <- Heq, ltb_irrefl in Hlt. discriminate.
Qed.

(** C4.  [getWeeklyPeriodKey] formats the local fields of the [Date] it is
    given.  For the default argument these are the fields of the
    reference zone, and the key is right.  For a [Date] built from a
    timestamp in a runtime set to another zone they are not: in a browser
    on UTC, the timestamps of Saturday noon and of Sunday evening of the
    same Los Angeles week get the keys 2026-W01 and 2026-W02, and the key
    the program computes for "one week ago" on that Sunday evening is the
    current week's key. *)
Theorem getWeeklyPeriodKey_reads_runtime_zone :
  startOfISOWeek (toZonedTime utcRuntime saturdayNoon TIMEZONE)
    = startOfISOWeek (toZonedTime utcRuntime sundayEvening TIMEZONE) /\
  getWeeklyPeriodKey (newDate utcRuntime saturdayNoon) = "2026-W01" /\
  getWeeklyPeriodKey (newDate utcRuntime sundayEvening) = "2026-W02" /\
  getWeeklyPeriodKey (getNow utcRuntime saturdayNoon) = "2026-W01" /\
  getWeeklyPeriodKey (getNow utcRuntime sundayEvening) = "2026-W01" /\
  previousWeeklyKey utcRuntime sundayEvening = getPeriodKey utcRuntime sundayEvening weekly.
Proof.
  vm_compute. repeat split.
Qed.

(** ** Stats fetcher *)

Lemma failed_wellFormed (user : string) (jobs : Z) (err : string) :
  wellFormedResult user jobs (failed user jobs err).
Proof.
  unfold wellFormedResult, failed; cbn. do 3 (split; [reflexivity|]).
  intros _. repeat split.
Qed.

Lemma tryBlock_wellFormed (user : string) (jobs : Z) (attempt : nat)
    (o : FetchOutcome) (r : UserStats) :
  tryBlock user jobs attempt o = Return r -> wellFormedResult user jobs r.
Proof.
  unfold tryBlock. intro H.
  repeat match type of H with
         | Return _ = Return _ => injection H as <-
         | context [match ?x with _ => _ end] => destruct x; try discriminate
         end;
    try apply failed_wellFormed.
  all: unfold wellFormedResult; cbn; do 3 (split; [reflexivity|]).
  all: intro Hn; now elim Hn.
Qed.

Lemma serverError_not_ok (r : Http.Response) :
  (500 <=? Http.status r) = true -> Http.ok r = false.
Proof.
  unfold Http.ok. intro H. apply Z.leb_le in H.
  apply andb_false_iff. right. apply Z.leb_gt. lia.
Qed.

(** One iteration that ends in a retry. *)
Lemma fetchLoop_retry (fuel : nat) (net : nat -> FetchOutcome) (user : string)
    (jobs : Z) (attempt sent : nat) :
  (attempt < maxRetries)%nat ->
  isServerError (net sent) || isNetworkFailure (net sent) = true ->
  fetchLoop (S fuel) net user jobs attempt sent =
  match fetchLoop fuel net user jobs (S attempt) (S sent) with
  | Some (stats, trace) => Some (stats, Fetched :: Slept (backoffOf (S attempt)) :: trace)
  | None => None
  end.
Proof.
  intros Ha Ho. cbn [fetchLoop].
  assert (H1 : (attempt <=? maxRetries)%nat = true) by (apply Nat.leb_le; lia).
  assert (H2 : (maxRetries <=? attempt)%nat = false) by (apply Nat.leb_gt; lia).
  assert (H3 : (attempt <? maxRetries)%nat = true) by (apply Nat.ltb_lt; lia).
  rewrite H1. unfold tryBlock.
  destruct (net sent) as [e | r]; cbn in Ho.
  - now rewrite H2.
  - rewrite orb_false_r in Ho.
    now rewrite (serverError_not_ok r Ho), Ho, H3.
Qed.

Lemma fetchLoop_retries (net : nat -> FetchOutcome) (user : string) (jobs : Z)
    (n fuel attempt sent : nat) :
  (attempt + n <= maxRetries)%nat ->
  (forall k, (k < n)%nat ->
     isServerError (net (sent + k)%nat) || isNetworkFailure (net (sent + k)%nat) = true) ->
  fetchLoop (n + fuel) net user jobs attempt sent =
  match fetchLoop fuel net user jobs (attempt + n) (sent + n) with
  | Some (stats, trace) => Some (stats, (retried attempt n ++ trace)%list)
  | None => None
  end.
Proof.
  revert attempt sent. induction n as [|n IH]; intros attempt sent Ha Hk.
  - cbn [Nat.add retried app]. rewrite !Nat.add_0_r.
    destruct (fetchLoop fuel net user jobs attempt sent) as [[stats trace]|]; reflexivity.
  - cbn [Nat.add]. rewrite fetchLoop_retry; [|lia|].
    + rewrite IH; [|lia|].
      * rewrite <- !Nat.add_succ_comm. cbn [Nat.add].
        destruct (fetchLoop fuel _ _ _ _ _) as [[stats trace]|]; reflexivity.
      * intros k Hlt. rewrite Nat.add_succ_comm. apply Hk. lia.
    + specialize (Hk 0%nat). rewrite Nat.add_0_r in Hk. apply Hk. lia.
Qed.

(** The last attempt fails for good. *)
Lemma fetchLoop_exhausted (fuel : nat) (net : nat -> FetchOutcome) (user : string)
    (jobs : Z) (sent : nat) :
  isServerError (net sent) || isNetworkFailure (net sent) = true ->
  bodySaysNotFound (net sent) = false ->
  fetchLoop (S fuel) net user jobs maxRetries sent =
  Some (failed user jobs (lastError (net sent)), [Fetched]).
Proof.
  intros Ho Hb. cbn [fetchLoop]. unfold tryBlock. cbn [Nat.leb maxRetries].
  destruct (net sent) as [e | r]; cbn in Ho, Hb |- *; [reflexivity|].
  rewrite orb_false_r in Ho.
  rewrite (serverError_not_ok r Ho), Ho, Hb. reflexivity.
Qed.

(** A reply that says the user does not exist ends the run at once. *)
Lemma fetchLoop_notFound (fuel : nat) (net : nat -> FetchOutcome) (user : string)
    (jobs : Z) (attempt sent : nat) :
  (attempt <= maxRetries)%nat ->
  isNotFoundReply (net sent) = true ->
  fetchLoop (S fuel) net user jobs attempt sent =
  Some (failed user jobs "this is not a leetcode user", [Fetched]).
Proof.
  intros Ha Ho. cbn [fetchLoop].
  assert (H1 : (attempt <=? maxRetries)%nat = true) by (apply Nat.leb_le; lia).
  rewrite H1. unfold tryBlock.
  destruct (net sent) as [e | r]; cbn in Ho; [discriminate|].
  apply andb_true_iff in Ho. destruct Ho as [Ho Hbody].
  apply andb_true_iff in Ho. destruct Ho as [Hok Hlt].
  apply Z.ltb_lt in Hlt.
  assert (H5 : (500 <=? Http.status r) = false) by (apply Z.leb_gt; lia).
  now rewrite Hok, H5, Hbody.
Qed.

(** The loop ends within the iterations it is given, whatever the
    network does. *)
Lemma fetchLoop_total (net : nat -> FetchOutcome) (user : string) (jobs : Z)
    (fuel attempt sent : nat) :
  (0 < fuel)%nat -> (maxRetries + 2 <= fuel + attempt)%nat ->
  exists stats trace,
    fetchLoop fuel net user jobs attempt sent = Some (stats, trace) /\
    wellFormedResult user jobs stats /\
    ((attempt <= maxRetries)%nat -> exists rest, trace = Fetched :: rest) /\
    (requests trace <= maxRetries + 1 - attempt)%nat.
Proof.
  revert attempt sent. induction fuel as [|fuel IH]; intros attempt sent Hf Hb; [lia|].
  cbn [fetchLoop].
  assert (Hrec : (attempt < maxRetries)%nat ->
    exists stats trace,
      match fetchLoop fuel net user jobs (S attempt) (S sent) with
      | Some (stats, trace) =>
          Some (stats, Fetched :: Slept (backoffOf (S attempt)) :: trace)
      | None => None
      end = Some (stats, trace) /\
      wellFormedResult user jobs stats /\
      ((attempt <= maxRetries)%nat -> exists rest, trace = Fetched :: rest) /\
      (requests trace <= maxRetries + 1 - attempt)%nat).
  { intro Hlt. destruct (IH (S attempt) (S sent)) as (stats & trace & -> & Hw & _ & Hn);
      [unfold maxRetries in *; lia | lia |].
    exists stats, (Fetched :: Slept (backoffOf (S attempt)) :: trace).
    refine (conj eq_refl (conj Hw (conj _ _))); [now eexists|].
    unfold requests, maxRetries in *. cbn [filter isFetched List.length]. lia. }
  destruct (Nat.leb_spec attempt maxRetries) as [Hle | Hgt].
  - destruct (tryBlock user jobs attempt (net sent)) as [r | | e] eqn:E.
    + exists r, [Fetched].
      refine (conj eq_refl (conj (tryBlock_wellFormed _ _ _ _ _ E) (conj _ _)));
        [now eexists | unfold maxRetries, requests in *; cbn [filter isFetched List.length]; lia].
    + apply Hrec. unfold tryBlock in E.
      destruct (net sent) as [e | r]; [discriminate|].
      destruct (negb (Http.ok r)).
      * destruct (Nat.ltb_spec attempt maxRetries) as [Hlt | Hge]; [exact Hlt|].
        rewrite andb_false_r in E. destruct (saysUserDoesNotExist _); discriminate.
      * repeat match type of E with
               | context [match ?x with _ => _ end] => destruct x; try discriminate
               end.
    + destruct (Nat.leb_spec maxRetries attempt) as [Hge | Hlt]; [|now apply Hrec].
      exists (failed user jobs (messageOf e)), [Fetched].
      refine (conj eq_refl (conj (failed_wellFormed _ _ _) (conj _ _)));
        [now eexists | unfold maxRetries, requests in *; cbn [filter isFetched List.length]; lia].
  - exists (failed user jobs "Error fetching data"), [].
    refine (conj eq_refl (conj (failed_wellFormed _ _ _) (conj _ _)));
      [intro; lia | unfold maxRetries, requests in *; cbn [filter isFetched List.length]; lia].
Qed.

Lemma backoffOf_doubles (attempt : nat) :
  backoffOf (S (S attempt)) = 2 * backoffOf (S attempt).
Proof.
  unfold backoffOf.
  replace (Z.of_nat (S (S attempt)) - 1) with (Z.succ (Z.of_nat attempt)) by lia.
  replace (Z.of_nat (S attempt) - 1) with (Z.of_nat attempt) by lia.
  rewrite Z.pow_succ_r by lia. lia.
Qed.

Lemma fetchUserStats_after_retries (net : nat -> FetchOutcome) (user : string)
    (jobs : Z) (n : nat) :
  (n <= maxRetries)%nat ->
  (forall k, (k < n)%nat -> isServerError (net k) || isNetworkFailure (net k) = true) ->
  fetchUserStats net user jobs =
  match fetchLoop (maxRetries + 2 - n) net user jobs n n with
  | Some (stats, trace) => Some (stats, (retried 0 n ++ trace)%list)
  | None => None
  end.
Proof.
  intros Hn Hk. unfold fetchUserStats.
  replace (maxRetries + 2)%nat with (n + (maxRetries + 2 - n))%nat at 1 by lia.
  now rewrite fetchLoop_retries.
Qed.

(** C8. A 5xx reply or a failed request is answered by another attempt
    after a pause of 1000 ms that doubles each time; no run sends more
    than four requests; when the fourth attempt fails too, the result
    carries the message of that last error; and an unsuccessful reply
    below 500 whose body says that the user does not exist ends the run
    with the not-found result, without a pause or another request. *)
Theorem fetchUserStats_retry_policy (net : nat -> FetchOutcome) (user : string)
    (jobs : Z) :
  let retryable k := isServerError (net k) || isNetworkFailure (net k) = true in
  retried 0 3 = [Fetched; Slept 1000; Fetched; Slept 2000; Fetched; Slept 4000] /\
  (forall attempt, backoffOf (S (S attempt)) = 2 * backoffOf (S attempt)) /\
  (forall n, (n <= maxRetries)%nat -> (forall k, (k < n)%nat -> retryable k) ->
     exists stats rest,
       fetchUserStats net user jobs = Some (stats, (retried 0 n ++ Fetched :: rest)%list)) /\
  (forall stats trace,
     fetchUserStats net user jobs = Some (stats, trace) ->
     (requests trace <= maxRetries + 1)%nat) /\
  ((forall k, (k <= maxRetries)%nat -> retryable k) ->
   bodySaysNotFound (net maxRetries) = false ->
   fetchUserStats net user jobs =
   Some (failed user jobs (lastError (net maxRetries)),
         (retried 0 maxRetries ++ [Fetched])%list)) /\
  (forall n, (n <= maxRetries)%nat -> (forall k, (k < n)%nat -> retryable k) ->
     isNotFoundReply (net n) = true ->
     fetchUserStats net user jobs =
     Some (failed user jobs "this is not a leetcode user",
           (retried 0 n ++ [Fetched])%list)).
Proof.
  cbv zeta. repeat match goal with |- _ /\ _ => split end.
  - reflexivity.
  - apply backoffOf_doubles.
  - intros n Hn Hk. rewrite (fetchUserStats_after_retries net user jobs n Hn Hk).
    destruct (fetchLoop_total net user jobs (maxRetries + 2 - n) n n)
      as (stats & trace & -> & _ & Hfirst & _); [lia | lia |].
    destruct (Hfirst Hn) as [rest ->]. now exists stats, rest.
  - intros stats trace H. unfold fetchUserStats in H.
    destruct (fetchLoop_total net user jobs (maxRetries + 2) 0 0)
      as (stats' & trace' & H' & _ & _ & Hreq); [unfold maxRetries; lia | lia |].
    rewrite H' in H. injection H as <- <-. lia.
  - intros Hk Hbody.
    rewrite (fetchUserStats_after_retries net user jobs maxRetries); [|lia|].
    + change (maxRetries + 2 - maxRetries)%nat with 2%nat.
      rewrite fetchLoop_exhausted; [reflexivity | apply Hk; lia | exact Hbody].
    + intros k Hlt. apply Hk. lia.
  - intros n Hn Hk Hreply. rewrite (fetchUserStats_after_retries net user jobs n Hn Hk).
    replace (maxRetries + 2 - n)%nat with (S (maxRetries + 1 - n)) by lia.
    now rewrite fetchLoop_notFound.
Qed.


Lemma fetchUserStats_retry_policy_witness :
  fetchUserStats flakyThenMissing "ghost" 2 =
  Some (failed "ghost" 2 "this is not a leetcode user",
        [Fetched; Slept 1000; Fetched; Slept 2000; Fetched]).
Proof.
  destruct (fetchUserStats_retry_policy flakyThenMissing "ghost" 2)
    as (_ & _ & _ & _ & _ & H).
  apply (H 2%nat).
  - unfold maxRetries. lia.
  - intros k Hk. destruct k as [|[|k]]; [reflexivity | reflexivity | lia].
  - reflexivity.
Defined.

(** C8, as the specification words it, fails when the retries are used up on a
    5xx reply whose body says that the user does not exist: the result is
    then the not-found record, not a failure carrying the last error's
    message. *)
Lemma fetchUserStats_exhausted_not_found :
  isServerError (unavailableAndMissing 0) = true /\
  isServerError (unavailableAndMissing 1) = true /\
  isServerError (unavailableAndMissing 2) = true /\
  isServerError (unavailableAndMissing 3) = true /\
  lastError (unavailableAndMissing 3) = "HTTP error! status: 503" /\
  fetchUserStats unavailableAndMissing "ghost" 2 =
  Some (failed "ghost" 2 "this is not a leetcode user",
        [Fetched; Slept 1000; Fetched; Slept 2000; Fetched; Slept 4000; Fetched]).
Proof.
  repeat split.
Qed.

(** * Further properties *)

(** ** Reading and creating snapshots *)

Lemma loadSnapshotByKey_unfold (p : SnapshotPeriod) (k : string) (db : Firestore) :
  loadSnapshotByKey p k db =
  match request db with
  | (None, db1) => (Some None, db1)
  | (Some _, db1) =>
      (Some (option_map loaded (hd_error (filter (matches p k) (docs db1)))), db1)
  end.
Proof.
  cbv beta zeta delta [loadSnapshotByKey tryCatch bind getDocsByKey ret].
  destruct (request db) as [[[]|] db1]; [|reflexivity].
  destruct (filter _ (docs db1)) as [|doc rest]; reflexivity.
Qed.

Lemma loadLatestSnapshot_byKey (rt : Runtime) (clock : Z) (p : SnapshotPeriod)
    (db : Firestore) :
  loadLatestSnapshot rt clock p db = loadSnapshotByKey p (getPeriodKey rt clock p) db.
Proof. reflexivity. Qed.

Lemma hd_filter_In {A : Type} (f : A -> bool) (l : list A) (x : A) :
  hd_error (filter f l) = Some x -> In x l /\ f x = true.
Proof.
  intro H. apply filter_In. destruct (filter f l) as [|y rest]; [discriminate|].
  injection H as ->. now left.
Qed.

Lemma hd_filter_app {A : Type} (f : A -> bool) (l l' : list A) (x : A) :
  hd_error (filter f l) = Some x -> hd_error (filter f (l ++ l')) = Some x.
Proof.
  rewrite filter_app. destruct (filter f l); [discriminate | trivial].
Qed.

(** X1. A point lookup never writes and never rejects; what it returns is
    a stored document of the requested pair, and when no document of the
    pair is stored it returns nothing. *)
Theorem loadSnapshotByKey_reads (p : SnapshotPeriod) (k : string) (db : Firestore) :
  let out := loadSnapshotByKey p k db in
  docs (snd out) = docs db /\ nextId (snd out) = nextId db /\
  (exists r, fst out = Some r) /\
  (forall s, fst out = Some (Some s) ->
     period (data s) = p /\ periodKey (data s) = k /\
     exists i, id s = Some i /\ In (i, data s) (docs db)) /\
  (countFor p k db = 0%nat -> fst out = Some None) /\
  (healthy db ->
   fst out = Some (option_map loaded (hd_error (filter (matches p k) (docs db))))).
Proof.
  cbv zeta. rewrite loadSnapshotByKey_unfold.
  pose proof (request_frame db) as [Hd Hn].
  pose proof (request_healthy db) as Hh.
  destruct (request db) as [[[]|] db1]; cbn [fst snd] in *; rewrite ?Hd.
  - repeat match goal with |- _ /\ _ => split end; trivial.
    + now eexists.
    + intros s Hs. injection Hs as Hs.
      destruct (hd_error (filter (matches p k) (docs db))) as [doc|] eqn:E; [|discriminate].
      injection Hs as <-. apply hd_filter_In in E. destruct E as [Hin Hm].
      apply matches_iff in Hm. destruct Hm as [Hp Hk]. cbn.
      repeat split; trivial. exists (fst doc). split; [reflexivity|]. now destruct doc.
    + unfold countFor. intro H. apply length_zero_iff_nil in H. now rewrite H.
  - repeat match goal with |- _ /\ _ => split end; trivial.
    + now eexists.
    + intros s Hs. discriminate.
    + intro H. apply Hh in H. destruct H; discriminate.
Qed.

Lemma loadSnapshotByKey_reads_witness :
  fst (loadSnapshotByKey weekly "2026-W01" someStore)
  = Some (Some (mkLeaderboardSnapshot (Some 0%nat)
                  (mkSnapshotData weekly "2026-W01" 0 [toSnapshotUser ana]))) /\
  fst (loadSnapshotByKey yearly "2026" someStore) = Some None.
Proof.
  split.
  - destruct (loadSnapshotByKey_reads weekly "2026-W01" someStore) as (_ & _ & _ & _ & _ & H).
    exact (H (Forall_nil _)).
  - destruct (loadSnapshotByKey_reads yearly "2026" someStore) as (_ & _ & _ & _ & H & _).
    exact (H eq_refl).
Defined.

(** What a call of [ensureSnapshot] leaves behind when the database
    answers. *)
Lemma ensureSnapshot_healthy_step (rt : Runtime) (clock stamp : Z)
    (p : SnapshotPeriod) (currentStats : list UserStats) (db : Firestore) :
  healthy db ->
  let key := getPeriodKey rt clock p in
  let out := ensureSnapshot rt clock stamp p currentStats db in
  exists doc,
    fst out = Some (Some (loaded doc)) /\
    healthy (snd out) /\
    hd_error (filter (matches p key) (docs (snd out))) = Some doc /\
    (forall p2 k2 doc2,
       hd_error (filter (matches p2 k2) (docs db)) = Some doc2 ->
       hd_error (filter (matches p2 k2) (docs (snd out))) = Some doc2) /\
    (hd_error (filter (matches p key) (docs db)) <> None -> docs (snd out) = docs db) /\
    (hd_error (filter (matches p key) (docs db)) = None ->
     docs (snd out) = (docs db ++ [doc])%list /\
     snd doc = mkSnapshotData p key stamp (map toSnapshotUser currentStats)).
Proof.
  intros Hh. cbv zeta. rewrite ensureSnapshot_unfold.
  pose proof (request_frame db) as [Hd _].
  pose proof (request_healthy db Hh) as [Hok Hh1].
  destruct (request db) as [[[]|] db1]; cbn [fst snd] in *; [|discriminate].
  rewrite Hd.
  destruct (filter (matches p (getPeriodKey rt clock p)) (docs db)) as [|doc rest] eqn:E.
  - pose proof (request_frame db1) as [Hd1 _].
    pose proof (request_healthy db1 Hh1) as [Hok1 Hh2].
    destruct (request db1) as [[[]|] db2]; cbn [fst snd] in *; [|discriminate].
    set (new := mkSnapshotData p _ stamp _).
    exists (nextId db2, new). cbn [fst snd docs]. rewrite Hd1, Hd.
    repeat match goal with |- _ /\ _ => split end.
    + reflexivity.
    + exact Hh2.
    + rewrite filter_app, E. cbn [app filter].
      change (matches p _ (nextId db2, new)) with
        (matches (period new) (periodKey new) (nextId db2, new)).
      now rewrite matches_own.
    + intros p2 k2 doc2. apply hd_filter_app.
    + intro H. now elim H.
    + intros _. split; reflexivity.
  - exists doc. cbn [fst snd]. rewrite ?Hd, ?E.
    repeat match goal with |- _ /\ _ => split end; trivial.
    intro H. discriminate.
Qed.



(** X3. Whatever the requests do, [ensureSnapshot] never rejects; a
    snapshot it returns is stored under the returned id for the current
    pair, and when it returns null nothing has been written. *)
Theorem ensureSnapshot_result_persisted (rt : Runtime) (clock stamp : Z)
    (p : SnapshotPeriod) (currentStats : list UserStats) (db : Firestore) :
  let key := getPeriodKey rt clock p in
  let out := ensureSnapshot rt clock stamp p currentStats db in
  (exists r, fst out = Some r) /\
  (fst out = Some None -> docs (snd out) = docs db) /\
  (forall s, fst out = Some (Some s) ->
     period (data s) = p /\ periodKey (data s) = key /\
     exists i, id s = Some i /\ In (i, data s) (docs (snd out))).
Proof.
  cbv zeta. rewrite ensureSnapshot_unfold.
  pose proof (request_frame db) as [Hd _].
  destruct (request db) as [[[]|] db1]; cbn [fst snd] in *.
  - rewrite Hd.
    destruct (filter (matches p (getPeriodKey rt clock p)) (docs db)) as [|doc rest] eqn:E.
    + pose proof (request_frame db1) as [Hd1 _].
      destruct (request db1) as [[[]|] db2]; cbn [fst snd docs] in *.
      * repeat match goal with |- _ /\ _ => split end; [now eexists | discriminate |].
        intros s Hs. injection Hs as <-. cbn. repeat split.
        eexists. split; [reflexivity|]. apply in_or_app. right. now left.
      * repeat match goal with |- _ /\ _ => split end;
          [now eexists | congruence | discriminate].
    + repeat match goal with |- _ /\ _ => split end; [now eexists | discriminate |].
      intros s Hs. injection Hs as <-.
      assert (Hin : In doc (filter (matches p (getPeriodKey rt clock p)) (docs db)))
        by (rewrite E; now left).
      apply filter_In in Hin. destruct Hin as [Hin Hm].
      apply matches_iff in Hm. destruct Hm as [Hp Hk]. cbn.
      repeat split; trivial. exists (fst doc). rewrite Hd.
      split; [reflexivity | now destruct doc].
  - repeat match goal with |- _ /\ _ => split end; [now eexists | trivial | discriminate].
Qed.

Lemma ensureSnapshot_result_persisted_witness :
  docs (snd (ensureSnapshot utcRuntime saturdayNoon saturdayNoon yearly [ana]
               (mkFirestore (docs someStore) 3 [false; true])))
  = docs someStore.
Proof.
  destruct (ensureSnapshot_result_persisted utcRuntime saturdayNoon saturdayNoon yearly
              [ana] (mkFirestore (docs someStore) 3 [false; true])) as (_ & H & _).
  exact (H eq_refl).
Defined.

Lemma ensureSnapshot_present (rt : Runtime) (clock stamp : Z)
    (p : SnapshotPeriod) (currentStats : list UserStats) (db : Firestore)
    (doc : DocId * SnapshotData) :
  healthy db ->
  hd_error (filter (matches p (getPeriodKey rt clock p)) (docs db)) = Some doc ->
  let out := ensureSnapshot rt clock stamp p currentStats db in
  fst out = Some (Some (loaded doc)) /\ healthy (snd out) /\ docs (snd out) = docs db.
Proof.
  intros Hh Hdoc. cbv zeta.
  destruct (ensureSnapshot_healthy_step rt clock stamp p currentStats db Hh)
    as (doc' & Hr & Hh1 & Hhd & _ & Hsame & _).
  assert (Hdocs : docs (snd (ensureSnapshot rt clock stamp p currentStats db)) = docs db)
    by (apply Hsame; congruence).
  rewrite Hdocs, Hdoc in Hhd. injection Hhd as <-. now repeat split.
Qed.

Lemma ensureSnapshot_length (rt : Runtime) (clock stamp : Z)
    (p : SnapshotPeriod) (currentStats : list UserStats) (db : Firestore) :
  (List.length (docs (snd (ensureSnapshot rt clock stamp p currentStats db)))
   <= List.length (docs db) + 1)%nat.
Proof.
  destruct (ensureSnapshot_docs rt clock stamp p currentStats db) as [-> | [_ [i ->]]].
  - lia.
  - rewrite length_app. cbn. lia.
Qed.

(** The three calls of [ensureSnapshotsForCurrentPeriods] on a database
    that answers. *)
Lemma ensureSnapshots_healthy (rt : Runtime) (clock stamp : SnapshotPeriod -> Z)
    (currentStats : list UserStats) (db : Firestore) :
  healthy db ->
  let out := ensureSnapshotsForCurrentPeriods rt clock stamp currentStats db in
  exists dw dm dy,
    fst out = Some (Current.mk (Some (loaded dw)) (Some (loaded dm)) (Some (loaded dy))) /\
    healthy (snd out) /\
    hd_error (filter (matches weekly (getPeriodKey rt (clock weekly) weekly))
                     (docs (snd out))) = Some dw /\
    hd_error (filter (matches monthly (getPeriodKey rt (clock monthly) monthly))
                     (docs (snd out))) = Some dm /\
    hd_error (filter (matches yearly (getPeriodKey rt (clock yearly) yearly))
                     (docs (snd out))) = Some dy /\
    (List.length (docs (snd out)) <= List.length (docs db) + 3)%nat.
Proof.
  intros Hh. cbv beta zeta delta [ensureSnapshotsForCurrentPeriods bind ret].
  destruct (ensureSnapshot_healthy_step rt (clock weekly) (stamp weekly) weekly
              currentStats db Hh) as (dw & Hr1 & Hh1 & Hw1 & _ & _ & _).
  pose proof (ensureSnapshot_length rt (clock weekly) (stamp weekly) weekly
                currentStats db) as L1.
  destruct (ensureSnapshot rt (clock weekly) (stamp weekly) weekly currentStats db)
    as [r1 db1]. cbn [fst snd] in *. subst r1.
  destruct (ensureSnapshot_healthy_step rt (clock monthly) (stamp monthly) monthly
              currentStats db1 Hh1) as (dm & Hr2 & Hh2 & Hm2 & Hk2 & _ & _).
  pose proof (ensureSnapshot_length rt (clock monthly) (stamp monthly) monthly
                currentStats db1) as L2.
  destruct (ensureSnapshot rt (clock monthly) (stamp monthly) monthly currentStats db1)
    as [r2 db2]. cbn [fst snd] in *. subst r2.
  destruct (ensureSnapshot_healthy_step rt (clock yearly) (stamp yearly) yearly
              currentStats db2 Hh2) as (dy & Hr3 & Hh3 & Hy3 & Hk3 & _ & _).
  pose proof (ensureSnapshot_length rt (clock yearly) (stamp yearly) yearly
                currentStats db2) as L3.
  destruct (ensureSnapshot rt (clock yearly) (stamp yearly) yearly currentStats db2)
    as [r3 db3]. cbn [fst snd] in *. subst r3.
  exists dw, dm, dy.
  repeat match goal with |- _ /\ _ => split end; trivial.
  - apply Hk3, Hk2, Hw1.
  - apply Hk3, Hm2.
  - cbn [fst snd]. lia.
Qed.

Lemma ensureSnapshots_present (rt : Runtime) (clock stamp : SnapshotPeriod -> Z)
    (currentStats : list UserStats) (db : Firestore)
    (dw dm dy : DocId * SnapshotData) :
  healthy db ->
  hd_error (filter (matches weekly (getPeriodKey rt (clock weekly) weekly)) (docs db))
    = Some dw ->
  hd_error (filter (matches monthly (getPeriodKey rt (clock monthly) monthly)) (docs db))
    = Some dm ->
  hd_error (filter (matches yearly (getPeriodKey rt (clock yearly) yearly)) (docs db))
    = Some dy ->
  let out := ensureSnapshotsForCurrentPeriods rt clock stamp currentStats db in
  fst out = Some (Current.mk (Some (loaded dw)) (Some (loaded dm)) (Some (loaded dy))) /\
  docs (snd out) = docs db.
Proof.
  intros Hh Hw Hm Hy. cbv beta zeta delta [ensureSnapshotsForCurrentPeriods bind ret].
  destruct (ensureSnapshot_present rt (clock weekly) (stamp weekly) weekly
              currentStats db dw Hh Hw) as (Hr1 & Hh1 & Hd1).
  destruct (ensureSnapshot rt (clock weekly) (stamp weekly) weekly currentStats db)
    as [r1 db1]. cbn [fst snd] in *. subst r1. rewrite <- Hd1 in Hm, Hy.
  destruct (ensureSnapshot_present rt (clock monthly) (stamp monthly) monthly
              currentStats db1 dm Hh1 Hm) as (Hr2 & Hh2 & Hd2).
  destruct (ensureSnapshot rt (clock monthly) (stamp monthly) monthly currentStats db1)
    as [r2 db2]. cbn [fst snd] in *. subst r2. rewrite <- Hd2 in Hy.
  destruct (ensureSnapshot_present rt (clock yearly) (stamp yearly) yearly
              currentStats db2 dy Hh2 Hy) as (Hr3 & Hh3 & Hd3).
  destruct (ensureSnapshot rt (clock yearly) (stamp yearly) yearly currentStats db2)
    as [r3 db3]. cbn [fst snd] in *. subst r3.
  cbn [fst snd]. split; [reflexivity | congruence].
Qed.



Lemma findUser_own (stats : list UserStats) (u : UserStats) :
  NoDup (map username stats) -> In u stats ->
  findUser (map toSnapshotUser stats) (username u) = Some (toSnapshotUser u).
Proof.
  unfold findUser. induction stats as [|s stats IH]; intros Hnd Hin; [contradiction|].
  cbn [map find toSnapshotUser Snap.username]. inversion Hnd as [|? ? Hnot Hnd']; subst.
  destruct Hin as [-> | Hin].
  - now rewrite String.eqb_refl.
  - destruct (String.eqb_spec (username s) (username u)) as [Heq | Hne].
    + exfalso. apply Hnot. rewrite Heq. now apply in_map.
    + now apply IH.
Qed.

Lemma computeProgress_own (u : UserStats) :
  let p := computeProgress u (Some (toSnapshotUser u)) in
  easy p = 0 /\ medium p = 0 /\ hard p = 0 /\ total p = 0 /\ jobsApplied p = 0 /\
  (xp p == 0)%Q.
Proof.
  cbn. rewrite orZero_id, !Z.sub_diag. cbn. repeat split.
Qed.



(** ** A new user's baseline *)

Lemma request_keeps_healthy (db : Firestore) : healthy db -> healthy (snd (request db)).
Proof. intro H. now apply request_healthy. Qed.

Lemma updateDoc_keeps_healthy (i : DocId) (us : list SnapshotUserStats) (db : Firestore) :
  healthy db -> healthy (snd (updateDoc i us db)).
Proof.
  intro H. cbv beta zeta delta [updateDoc bind].
  pose proof (request_keeps_healthy db H) as H1.
  destruct (request db) as [[[]|] db1]; cbn [fst snd] in *; [|exact H1].
  cbv beta iota. destruct (existsb _ (docs db1)); exact H1.
Qed.

Lemma promiseAllMap_keeps_healthy {A : Type} (f : A -> Op unit) (l : list A)
    (db : Firestore) :
  (forall x db', healthy db' -> healthy (snd (f x db'))) ->
  healthy db -> healthy (snd (promiseAllMap f l db)).
Proof.
  intro Hf. revert db. induction l as [|x l IH]; intros db H; [exact H|].
  cbn [promiseAllMap]. specialize (Hf x db H).
  destruct (f x db) as [r db1]. cbn [snd] in Hf. specialize (IH db1 Hf).
  now destruct (promiseAllMap f l db1) as [r' db2].
Qed.

Lemma addUserToCurrentSnapshots_keeps_healthy (rt : Runtime) (clock : Z)
    (user : string) (stats : UserStats) (name : string) (db : Firestore) :
  healthy db -> healthy (snd (addUserToCurrentSnapshots rt clock user stats name db)).
Proof.
  intro H. cbv beta zeta delta [addUserToCurrentSnapshots tryCatch bind getDocs].
  pose proof (request_keeps_healthy db H) as H1.
  destruct (request db) as [[[]|] db1]; cbn [fst snd] in *; [|exact H1].
  cbv beta iota.
  pose proof (promiseAllMap_keeps_healthy
    (fun docSnap : DocId * SnapshotData =>
       if isCurrent rt clock (snd docSnap) && negb (hasUser user (users (snd docSnap)))
       then updateDoc (fst docSnap)
                      (users (snd docSnap) ++ [newUserSnapshot user stats name])
       else ret tt) (docs db1) db1) as H2.
  cbv beta in H2.
  match type of H2 with ?P -> _ => assert (Hf : P) end.
  { intros x db' Hdb'. destruct (_ && _); [now apply updateDoc_keeps_healthy | exact Hdb']. }
  specialize (H2 Hf H1).
  destruct (promiseAllMap _ (docs db1) db1) as [[[]|] db2]; exact H2.
Qed.

Lemma hasUser_app_new (user : string) (stats : UserStats) (name : string)
    (us : list SnapshotUserStats) :
  hasUser user (us ++ [newUserSnapshot user stats name]) = true.
Proof.
  unfold hasUser. rewrite existsb_app. cbn. now rewrite String.eqb_refl, !orb_true_r.
Qed.

Lemma findUser_app_new (user : string) (stats : UserStats) (name : string)
    (us : list SnapshotUserStats) :
  findUser (us ++ [newUserSnapshot user stats name]) user =
  Some match findUser us user with
       | Some b => b
       | None => newUserSnapshot user stats name
       end.
Proof.
  unfold findUser. induction us as [|s us IH]; cbn.
  - now rewrite String.eqb_refl.
  - destruct (String.eqb (Snap.username s) user); [reflexivity | exact IH].
Qed.

Lemma hasUser_findUser (user : string) (us : list SnapshotUserStats) :
  hasUser user us = true -> exists b, findUser us user = Some b.
Proof.
  unfold hasUser, findUser. induction us as [|s us IH]; cbn; [discriminate|].
  destruct (String.eqb (Snap.username s) user); [now eexists | exact IH].
Qed.

Lemma isCurrent_fields (rt : Runtime) (clock : Z) (x : SnapshotData) (c : Z)
    (us : list SnapshotUserStats) :
  isCurrent rt clock (mkSnapshotData (period x) (periodKey x) c us) = isCurrent rt clock x.
Proof.
  unfold isCurrent. cbn [period periodKey]. reflexivity.
Qed.

Lemma patched_twice (rt : Runtime) (clock : Z) (user : string)
    (stats stats' : UserStats) (name name' : string) (d : DocId * SnapshotData) :
  patched rt clock user stats' name' (patched rt clock user stats name d)
  = patched rt clock user stats name d.
Proof.
  unfold patched at 2 3.
  destruct (isCurrent rt clock (snd d)) eqn:Ec;
    destruct (hasUser user (users (snd d))) eqn:Eh;
    cbn [andb negb]; unfold patched; cbn [fst snd users];
    rewrite ?isCurrent_fields, ?Ec, ?Eh, ?hasUser_app_new; reflexivity.
Qed.

(** X6. After the patch, on a database that answers, every snapshot of
    the current period keys lists the user; patching again for the same
    user, whatever stats and display name are passed, changes nothing. *)
Theorem addUserToCurrentSnapshots_listed_once (rt : Runtime) (clock : Z)
    (user : string) (stats stats' : UserStats) (name name' : string) (db : Firestore) :
  NoDup (map fst (docs db)) ->
  healthy db ->
  let db1 := snd (addUserToCurrentSnapshots rt clock user stats name db) in
  Forall (fun d => isCurrent rt clock (snd d) = true ->
                   hasUser user (users (snd d)) = true) (docs db1) /\
  map fst (docs db1) = map fst (docs db) /\
  docs (snd (addUserToCurrentSnapshots rt clock user stats' name' db1)) = docs db1.
Proof.
  intros Hnd Hh. cbv zeta.
  pose proof (addUserToCurrentSnapshots_docs rt clock user stats name db Hnd Hh) as Hd.
  pose proof (addUserToCurrentSnapshots_keeps_healthy rt clock user stats name db Hh) as Hh1.
  assert (Hids : map fst (docs (snd (addUserToCurrentSnapshots rt clock user stats name db)))
                 = map fst (docs db)).
  { rewrite Hd, map_map. apply map_ext. intro d. apply patched_id. }
  repeat match goal with |- _ /\ _ => split end.
  - rewrite Hd. apply Forall_forall. intros d' Hin.
    apply in_map_iff in Hin. destruct Hin as (d & <- & _).
    unfold patched. destruct (isCurrent rt clock (snd d)) eqn:Ec; cbn [andb].
    + destruct (hasUser user (users (snd d))) eqn:Eh; cbn [negb fst snd users].
      * now rewrite Eh.
      * intros _. apply hasUser_app_new.
    + rewrite Ec. discriminate.
  - exact Hids.
  - rewrite addUserToCurrentSnapshots_docs; [| now rewrite Hids | exact Hh1].
    rewrite Hd, map_map. apply map_ext. intro d. apply patched_twice.
Qed.

Lemma addUserToCurrentSnapshots_listed_once_witness :
  docs (snd (addUserToCurrentSnapshots utcRuntime saturdayNoon "bo" ana "Robert"
          (snd (addUserToCurrentSnapshots utcRuntime saturdayNoon "bo" bo "Bo" someStore))))
  = docs (snd (addUserToCurrentSnapshots utcRuntime saturdayNoon "bo" bo "Bo" someStore)).
Proof.
  assert (Hn : NoDup (map fst (docs someStore))).
  { cbn. repeat constructor; cbn; intuition discriminate. }
  destruct (addUserToCurrentSnapshots_listed_once utcRuntime saturdayNoon "bo" bo ana
              "Bo" "Robert" someStore Hn (Forall_nil _)) as (_ & _ & H).
  exact H.
Defined.

(** X7. The baseline the progress engine finds for the user after the
    patch, in a snapshot of the current period keys: the entry the
    snapshot already had for the user if there was one, otherwise the
    entry made from the stats at join time, against which those stats
    show zero progress. *)
Theorem addUserToCurrentSnapshots_baseline (rt : Runtime) (clock : Z)
    (user : string) (stats : UserStats) (name : string) (db : Firestore) :
  NoDup (map fst (docs db)) ->
  healthy db ->
  let db1 := snd (addUserToCurrentSnapshots rt clock user stats name db) in
  let entry := newUserSnapshot user stats name in
  Forall2 (fun before after =>
             isCurrent rt clock (snd before) = true ->
             findUser (users (snd after)) user =
             Some match findUser (users (snd before)) user with
                  | Some b => b
                  | None => entry
                  end)
          (docs db) (docs db1) /\
  (let p := computeProgress stats (Some entry) in
   easy p = 0 /\ medium p = 0 /\ hard p = 0 /\ total p = 0 /\ jobsApplied p = 0 /\
   (xp p == 0)%Q).
Proof.
  intros Hnd Hh. cbv zeta. split.
  - rewrite (addUserToCurrentSnapshots_docs rt clock user stats name db Hnd Hh).
    clear Hnd Hh. induction (docs db) as [|d l IH]; cbn [map]; [constructor|].
    constructor; [|exact IH].
    intro Ec. unfold patched. rewrite Ec. cbn [andb].
    destruct (hasUser user (users (snd d))) eqn:Eh; cbn [negb fst snd users].
    + destruct (hasUser_findUser _ _ Eh) as [b ->]. reflexivity.
    + apply findUser_app_new.
  - cbn. rewrite orZero_id, !Z.sub_diag. cbn. repeat split.
Qed.

Lemma addUserToCurrentSnapshots_baseline_witness :
  let p := computeProgress bo (Some (newUserSnapshot "bo" bo "Bo")) in
  easy p = 0 /\ medium p = 0 /\ hard p = 0 /\ total p = 0 /\ jobsApplied p = 0 /\
  (xp p == 0)%Q.
Proof.
  assert (Hn : NoDup (map fst (docs someStore))).
  { cbn. repeat constructor; cbn; intuition discriminate. }
  destruct (addUserToCurrentSnapshots_baseline utcRuntime saturdayNoon "bo" bo "Bo"
              someStore Hn (Forall_nil _)) as (_ & H).
  exact H.
Defined.

(** ** Boards *)

Section ArraySortStable.
Context {A : Type} (cmp : A -> A -> Q).

Lemma insertSorted_front (x : A) (l : list A) :
  Forall (precedes cmp x) l -> insertSorted cmp x l = x :: l.
Proof.
  destruct 1 as [|y l Hy _]; cbn; [reflexivity|].
  apply Qle_bool_iff in Hy. now rewrite Hy.
Qed.

(** The sort leaves a list alone that is already in order. *)
Lemma arraySort_sorted_id (l : list A) :
  StronglySorted (precedes cmp) l -> arraySort cmp l = l.
Proof.
  induction 1 as [|x l Hl IH Hx]; cbn; [reflexivity|].
  rewrite IH. now apply insertSorted_front.
Qed.
End ArraySortStable.

Lemma StronglySorted_impl {A : Type} (R R' : A -> A -> Prop) (l : list A) :
  (forall a b, R a b -> R' a b) -> StronglySorted R l -> StronglySorted R' l.
Proof.
  intros HR. induction 1 as [|x l Hl IH Hx]; constructor; [exact IH|].
  eapply Forall_impl; [|exact Hx]. intros b. apply HR.
Qed.

Lemma arraySort_ranked (l : list UserStats) :
  StronglySorted rankedBefore (arraySort byXpThenTotal l).
Proof.
  apply StronglySorted_impl with (R := precedes byXpThenTotal).
  - intros a b. apply precedes_byXpThenTotal.
  - apply arraySort_sorted.
    + intros x y H. apply precedes_byXpThenTotal, rankedBefore_total.
      now rewrite <- precedes_byXpThenTotal.
    + intros x y z. rewrite !precedes_byXpThenTotal. apply rankedBefore_trans.
Qed.

Lemma assignRanks_again (i j : Z) (l : list UserStats) :
  assignRanks i (assignRanks j l) = assignRanks i l.
Proof.
  revert i j. induction l as [|s l IH]; intros i j; cbn; [reflexivity|].
  now rewrite IH.
Qed.

Lemma assignRanks_map (f : UserStats -> UserStats) (i : Z) (l : list UserStats) :
  (forall s r, withRank (f s) r = withRank s r) ->
  assignRanks i (map f l) = assignRanks i l.
Proof.
  intro Hf. revert i. induction l as [|s l IH]; intro i; cbn; [reflexivity|].
  now rewrite IH, Hf.
Qed.

(** X8. A list that is already in ranking order keeps its order under
    [sortAndRank]: equal keys are never swapped, only the ranks are
    written anew. *)
Theorem sortAndRank_keeps_order (items : list UserStats) :
  StronglySorted rankedBefore items ->
  sortAndRank items = assignRanks 0 items /\
  map (fun s => withRank s 0) (sortAndRank items) = map (fun s => withRank s 0) items.
Proof.
  intros Hs.
  assert (H : sortAndRank items = assignRanks 0 items).
  { unfold sortAndRank. f_equal. apply arraySort_sorted_id.
    apply StronglySorted_impl with (R := rankedBefore); [|exact Hs].
    intros a b. apply precedes_byXpThenTotal. }
  split; [exact H|]. rewrite H. apply assignRanks_unrank.
Qed.

Lemma sortAndRank_keeps_order_witness :
  map username (sortAndRank [ana; bo; withXp bo (5 # 1)]) = ["ana"; "bo"; "bo"].
Proof.
  destruct (sortAndRank_keeps_order [ana; bo; withXp bo (5 # 1)]) as [H _].
  - repeat first [apply SSorted_nil | apply SSorted_cons | apply Forall_nil
                 | apply Forall_cons];
      unfold rankedBefore; cbn;
      first [left; reflexivity | right; split; [reflexivity | lia]].
  - rewrite H. reflexivity.
Defined.

(** X9. Ranking a ranked board again gives the same board. *)
Theorem sortAndRank_idempotent (items : list UserStats) :
  sortAndRank (sortAndRank items) = sortAndRank items.
Proof.
  unfold sortAndRank at 1.
  rewrite (arraySort_sorted_id byXpThenTotal (sortAndRank items)).
  - unfold sortAndRank. apply assignRanks_again.
  - unfold sortAndRank. apply assignRanks_sorted.
    + intros x y r1 r2 H. exact H.
    + apply arraySort_sorted.
      * intros x y H. apply precedes_byXpThenTotal, rankedBefore_total.
        now rewrite <- precedes_byXpThenTotal.
      * intros x y z. rewrite !precedes_byXpThenTotal. apply rankedBefore_trans.
Qed.

(** X10. Without a baseline snapshot the board of a period lists the
    users in the order of the board it is computed from, every one with
    zero counters and score and with the ranks 1..N. *)
Theorem progressBoard_without_snapshot (rankedStats : list UserStats) :
  let board := progressBoard rankedStats None in
  board = assignRanks 0 (map (fun stat => computeProgress stat None) rankedStats) /\
  map username board = map username rankedStats /\
  map error board = map error rankedStats /\
  map rank board = map Z.of_nat (seq 1 (List.length rankedStats)) /\
  Forall (fun p => easy p = 0 /\ medium p = 0 /\ hard p = 0 /\ total p = 0 /\
                   jobsApplied p = 0 /\ xp p = 0%Q) board.
Proof.
  cbv zeta. unfold progressBoard. cbn [findSnapshotUser].
  set (zeroed := map (fun stat => computeProgress stat None) rankedStats).
  assert (Hsorted : StronglySorted rankedBefore zeroed).
  { subst zeroed. induction rankedStats as [|s l IH]; cbn [map]; constructor; [exact IH|].
    apply Forall_forall. intros b Hb. apply in_map_iff in Hb. destruct Hb as (b0 & <- & _).
    right. cbn. split; [reflexivity | lia]. }
  assert (H : sortAndRank zeroed = assignRanks 0 zeroed).
  { unfold sortAndRank. f_equal. apply arraySort_sorted_id.
    apply StronglySorted_impl with (R := rankedBefore); [|exact Hsorted].
    intros a b. apply precedes_byXpThenTotal. }
  rewrite H. subst zeroed. clear.
  repeat match goal with |- _ /\ _ => split end.
  - reflexivity.
  - generalize 0. induction rankedStats as [|s l IH]; intro i; cbn; [reflexivity|].
    now rewrite IH.
  - generalize 0. induction rankedStats as [|s l IH]; intro i; cbn; [reflexivity|].
    now rewrite IH.
  - rewrite assignRanks_rank, length_map. apply map_ext. intro k. lia.
  - assert (H : forall i,
      Forall (fun p => easy p = 0 /\ medium p = 0 /\ hard p = 0 /\ total p = 0 /\
                       jobsApplied p = 0 /\ xp p = 0%Q)
             (assignRanks i (map (fun stat => computeProgress stat None) rankedStats))).
    { induction rankedStats as [|s l IH]; intro i; cbn; constructor.
      - cbn. now repeat split.
      - apply IH. }
    apply H.
Qed.

Lemma In_assignRanks (i : Z) (l : list UserStats) (a : UserStats) :
  In a (assignRanks i l) ->
  exists a0, In a0 l /\ a = withRank a0 (rank a) /\ i < rank a.
Proof.
  revert i. induction l as [|s l IH]; intros i H; [contradiction|].
  cbn in H. destruct H as [<- | H].
  - exists s. cbn. repeat split; [now left | lia].
  - destruct (IH _ H) as (a0 & Hin & Ha & Hr). exists a0.
    repeat split; [now right | exact Ha | lia].
Qed.

Lemma assignRanks_strict (i : Z) (l : list UserStats) :
  StronglySorted rankedBefore l ->
  forall a b, In a (assignRanks i l) -> In b (assignRanks i l) ->
              strictlyAhead a b -> rank a < rank b.
Proof.
  intros Hs. revert i. induction Hs as [|x l Hl IH Hx]; intros i a b Ha Hb Hab;
    [contradiction|].
  cbn in Ha, Hb. destruct Ha as [<- | Ha], Hb as [<- | Hb].
  - exfalso. unfold strictlyAhead in Hab. cbn in Hab.
    destruct Hab as [H | [_ H]]; [now apply Qlt_irrefl in H | lia].
  - apply In_assignRanks in Hb. destruct Hb as (_ & _ & _ & Hr). cbn. lia.
  - exfalso. apply In_assignRanks in Ha. destruct Ha as (a0 & Hin & Ha & _).
    rewrite Forall_forall in Hx. specialize (Hx a0 Hin).
    rewrite Ha in Hab. unfold strictlyAhead, rankedBefore in *. cbn in Hab.
    destruct Hab as [H | [H1 H2]], Hx as [H' | [H1' H2']]; try lia.
    + apply (Qlt_irrefl (xp x)). now apply Qlt_trans with (xp a0).
    + rewrite H1' in H. now apply Qlt_irrefl in H.
    + rewrite H1 in H'. now apply Qlt_irrefl in H'.
  - now apply (IH (i + 1)).
Qed.

(** X11. Ranks follow the scores strictly: on every board made by
    [sortAndRank], a user with more xp than another, or with the same xp
    and a larger total, has the smaller rank. *)
Theorem sortAndRank_rank_strict (items : list UserStats) (a b : UserStats) :
  In a (sortAndRank items) -> In b (sortAndRank items) ->
  strictlyAhead a b -> rank a < rank b.
Proof.
  unfold sortAndRank. apply assignRanks_strict, arraySort_ranked.
Qed.

Lemma sortAndRank_rank_strict_witness :
  rank (withRank ana 1) < rank (withRank bo 2).
Proof.
  apply (sortAndRank_rank_strict [bo; ana]).
  - left. reflexivity.
  - right. left. reflexivity.
  - left. reflexivity.
Defined.

(** ** More on the stats fetcher *)

(** One iteration that ends in a retry, for every kind of failure. *)
Lemma fetchLoop_fails_retry (fuel : nat) (net : nat -> FetchOutcome) (user : string)
    (jobs : Z) (attempt sent : nat) :
  (attempt < maxRetries)%nat ->
  failsAttempt (net sent) = true ->
  fetchLoop (S fuel) net user jobs attempt sent =
  match fetchLoop fuel net user jobs (S attempt) (S sent) with
  | Some (stats, trace) => Some (stats, Fetched :: Slept (backoffOf (S attempt)) :: trace)
  | None => None
  end.
Proof.
  intros Ha Ho.
  destruct (isServerError (net sent) || isNetworkFailure (net sent)) eqn:E;
    [now apply fetchLoop_retry|].
  unfold failsAttempt in Ho. rewrite E in Ho. cbn [orb] in Ho.
  apply orb_false_iff in E. destruct E as [Es _].
  cbn [fetchLoop].
  assert (H1 : (attempt <=? maxRetries)%nat = true) by (apply Nat.leb_le; lia).
  assert (H2 : (maxRetries <=? attempt)%nat = false) by (apply Nat.leb_gt; lia).
  rewrite H1. unfold tryBlock.
  destruct (net sent) as [e | r]; cbn in Ho, Es; [discriminate|].
  rewrite Es. cbn [andb].
  destruct (Http.ok r) eqn:Eok; cbn [negb andb orb] in Ho |- *.
  - destruct (Http.body r) as [parseError | | data]; [now rewrite H2 | now rewrite H2 |].
    destruct (status data) as [st|]; [|discriminate].
    destruct (message data); try discriminate.
    rewrite Ho. now rewrite H2.
  - rewrite orb_false_r in Ho.
    apply andb_true_iff in Ho. destruct Ho as [_ Hb]. apply negb_true_iff in Hb.
    rewrite Hb. now rewrite H2.
Qed.

Lemma fetchLoop_fails_retries (net : nat -> FetchOutcome) (user : string) (jobs : Z)
    (n fuel attempt sent : nat) :
  (attempt + n <= maxRetries)%nat ->
  (forall k, (k < n)%nat -> failsAttempt (net (sent + k)%nat) = true) ->
  fetchLoop (n + fuel) net user jobs attempt sent =
  match fetchLoop fuel net user jobs (attempt + n) (sent + n) with
  | Some (stats, trace) => Some (stats, (retried attempt n ++ trace)%list)
  | None => None
  end.
Proof.
  revert attempt sent. induction n as [|n IH]; intros attempt sent Ha Hk.
  - cbn [Nat.add retried app]. rewrite !Nat.add_0_r.
    destruct (fetchLoop fuel net user jobs attempt sent) as [[stats trace]|]; reflexivity.
  - cbn [Nat.add]. rewrite fetchLoop_fails_retry; [|lia|].
    + rewrite IH; [|lia|].
      * rewrite <- !Nat.add_succ_comm. cbn [Nat.add].
        destruct (fetchLoop fuel _ _ _ _ _) as [[stats trace]|]; reflexivity.
      * intros k Hlt. rewrite Nat.add_succ_comm. apply Hk. lia.
    + specialize (Hk 0%nat). rewrite Nat.add_0_r in Hk. apply Hk. lia.
Qed.

Lemma fetchUserStats_after_failures (net : nat -> FetchOutcome) (user : string)
    (jobs : Z) (n : nat) :
  (n <= maxRetries)%nat ->
  (forall k, (k < n)%nat -> failsAttempt (net k) = true) ->
  fetchUserStats net user jobs =
  match fetchLoop (maxRetries + 2 - n) net user jobs n n with
  | Some (stats, trace) => Some (stats, (retried 0 n ++ trace)%list)
  | None => None
  end.
Proof.
  intros Hn Hk. unfold fetchUserStats.
  replace (maxRetries + 2)%nat with (n + (maxRetries + 2 - n))%nat at 1 by lia.
  now rewrite fetchLoop_fails_retries.
Qed.

Lemma fetchLoop_last_failure (fuel : nat) (net : nat -> FetchOutcome) (user : string)
    (jobs : Z) (sent : nat) :
  failsAttempt (net sent) = true ->
  bodySaysNotFound (net sent) = false ->
  fetchLoop (S fuel) net user jobs maxRetries sent =
  Some (failed user jobs (thrownMessage (net sent)), [Fetched]).
Proof.
  intros Ho Hb. cbn [fetchLoop]. unfold tryBlock. cbn [Nat.leb maxRetries].
  unfold failsAttempt in Ho.
  destruct (net sent) as [e | r]; cbn in Ho, Hb |- *; [reflexivity|].
  rewrite orb_false_r in Ho. rewrite Hb.
  destruct (Http.ok r) eqn:Eok; cbn [negb andb orb] in Ho |- *.
  - destruct (500 <=? Http.status r) eqn:E5.
    + apply serverError_not_ok in E5. congruence.
    + cbn [orb] in Ho.
      destruct (Http.body r) as [parseError | | data]; [reflexivity | reflexivity |].
      destruct (status data) as [st|]; [|discriminate].
      destruct (message data); try discriminate.
      now rewrite Ho.
  - rewrite andb_false_r. reflexivity.
Qed.

(** X12. Every attempt that fails, not only a 5xx reply or a failed
    request but also any other unsuccessful reply that does not name a
    missing user and any successful reply whose body cannot be read, is
    followed by the same pauses and another attempt, up to the fourth;
    when the fourth fails too, the record carries the message of the
    error it threw. *)
Theorem fetchUserStats_retries_every_failure (net : nat -> FetchOutcome)
    (user : string) (jobs : Z) :
  (forall n, (n <= maxRetries)%nat ->
     (forall k, (k < n)%nat -> failsAttempt (net k) = true) ->
     exists stats rest,
       fetchUserStats net user jobs = Some (stats, (retried 0 n ++ Fetched :: rest)%list)) /\
  ((forall k, (k <= maxRetries)%nat -> failsAttempt (net k) = true) ->
   bodySaysNotFound (net maxRetries) = false ->
   fetchUserStats net user jobs =
   Some (failed user jobs (thrownMessage (net maxRetries)),
         [Fetched; Slept 1000; Fetched; Slept 2000; Fetched; Slept 4000; Fetched])).
Proof.
  split.
  - intros n Hn Hk. rewrite (fetchUserStats_after_failures net user jobs n Hn Hk).
    destruct (fetchLoop_total net user jobs (maxRetries + 2 - n) n n)
      as (stats & trace & -> & _ & Hfirst & _); [lia | lia |].
    destruct (Hfirst Hn) as [rest ->]. now exists stats, rest.
  - intros Hk Hbody.
    rewrite (fetchUserStats_after_failures net user jobs maxRetries); [|lia|].
    + change (maxRetries + 2 - maxRetries)%nat with 2%nat.
      rewrite fetchLoop_last_failure; [reflexivity | apply Hk; lia | exact Hbody].
    + intros k Hlt. apply Hk. lia.
Qed.

Lemma fetchUserStats_retries_every_failure_witness :
  fetchUserStats (fun _ => Responded (Http.mk 429 JsonNull)) "ana" 2 =
  Some (failed "ana" 2 "HTTP error! status: 429",
        [Fetched; Slept 1000; Fetched; Slept 2000; Fetched; Slept 4000; Fetched]).
Proof.
  destruct (fetchUserStats_retries_every_failure
              (fun _ => Responded (Http.mk 429 JsonNull)) "ana" 2) as [_ H].
  apply H; reflexivity.
Defined.

Lemma fetchLoop_success (fuel : nat) (net : nat -> FetchOutcome) (user : string)
    (jobs : Z) (attempt sent : nat) (data : LeetCodeResponse) :
  (attempt <= maxRetries)%nat ->
  successReply (net sent) = Some data ->
  fetchLoop (S fuel) net user jobs attempt sent =
  Some (mkUserStats user None jobs (easySolved data) (mediumSolved data)
          (hardSolved data) (totalSolved data)
          (xpOf jobs (easySolved data) (mediumSolved data) (hardSolved data)) 0 None,
        [Fetched]).
Proof.
  intros Ha Ho. cbn [fetchLoop].
  assert (H1 : (attempt <=? maxRetries)%nat = true) by (apply Nat.leb_le; lia).
  rewrite H1. unfold tryBlock, successReply in *.
  destruct (net sent) as [e | r]; [discriminate|].
  destruct (Http.ok r); [|discriminate]. cbn [negb].
  destruct (Http.body r) as [parseError | | d]; try discriminate.
  destruct (status d) as [st|] eqn:Est; [|discriminate].
  destruct (String.eqb_spec st "success") as [-> | Hne]; [|discriminate].
  injection Ho as ->. cbn. reflexivity.
Qed.

(** X13. Retries do not show in the result: when an attempt is answered
    successfully with a ['success'] payload, after any number of failed
    attempts before it, the record carries the solved counts of that
    payload, the job count passed in, the score
    0.5*jobs + easy + 2*medium + 4*hard, and no error. *)
Theorem fetchUserStats_success (net : nat -> FetchOutcome) (user : string)
    (jobs : Z) (n : nat) (data : LeetCodeResponse) :
  (n <= maxRetries)%nat ->
  (forall k, (k < n)%nat -> failsAttempt (net k) = true) ->
  successReply (net n) = Some data ->
  exists stats,
    fetchUserStats net user jobs = Some (stats, (retried 0 n ++ [Fetched])%list) /\
    username stats = user /\ jobsApplied stats = jobs /\ error stats = None /\
    easy stats = easySolved data /\ medium stats = mediumSolved data /\
    hard stats = hardSolved data /\ total stats = totalSolved data /\
    (xp stats == (1 # 2) * inject_Z jobs + 1 * inject_Z (easy stats)
                 + 2 * inject_Z (medium stats) + 4 * inject_Z (hard stats))%Q.
Proof.
  intros Hn Hk Hs. rewrite (fetchUserStats_after_failures net user jobs n Hn Hk).
  replace (maxRetries + 2 - n)%nat with (S (maxRetries + 1 - n)) by lia.
  rewrite (fetchLoop_success _ net user jobs n n data Hn Hs).
  eexists. split; [reflexivity|]. cbn.
  repeat match goal with |- _ /\ _ => split end; try reflexivity.
  unfold xpOf. ring.
Qed.

Lemma fetchUserStats_success_witness :
  exists stats,
    fetchUserStats
      (fun k => match k with
                | O => Rejected (JsError "Failed to fetch")
                | _ => Responded (Http.mk 200
                         (Json (mkLeetCodeResponse (Some "success") MsgAbsent 7 2 1 10)))
                end) "ana" 2
    = Some (stats, [Fetched; Slept 1000; Fetched]) /\
    (xp stats == 16 # 1)%Q.
Proof.
  destruct (fetchUserStats_success
              (fun k => match k with
                        | O => Rejected (JsError "Failed to fetch")
                        | _ => Responded (Http.mk 200
                                 (Json (mkLeetCodeResponse (Some "success") MsgAbsent
                                                           7 2 1 10)))
                        end) "ana" 2 1%nat
              (mkLeetCodeResponse (Some "success") MsgAbsent 7 2 1 10))
    as (stats & H & _ & _ & _ & He & Hm & Hh & _ & Hxp).
  - unfold maxRetries. lia.
  - intros k Hk. assert (k = 0%nat) as -> by lia. reflexivity.
  - reflexivity.
  - exists stats. split; [exact H|]. rewrite Hxp, He, Hm, Hh. reflexivity.
Defined.

Lemma fetchLoop_declined (fuel : nat) (net : nat -> FetchOutcome) (user : string)
    (jobs : Z) (attempt sent : nat) :
  (attempt <= maxRetries)%nat ->
  isDeclined (net sent) = true ->
  exists err,
    fetchLoop (S fuel) net user jobs attempt sent = Some (failed user jobs err, [Fetched]) /\
    (err = "User not found" \/ err = "this is not a leetcode user").
Proof.
  intros Ha Ho. cbn [fetchLoop].
  assert (H1 : (attempt <=? maxRetries)%nat = true) by (apply Nat.leb_le; lia).
  rewrite H1. unfold tryBlock, isDeclined in *.
  destruct (net sent) as [e | r]; [discriminate|].
  destruct (Http.ok r); [|discriminate]. cbn [negb andb] in *.
  destruct (Http.body r) as [parseError | | d]; try discriminate.
  destruct (status d) as [st|] eqn:Est.
  - apply andb_true_iff in Ho. destruct Ho as [Hns Hne].
    apply negb_true_iff in Hns. rewrite Hns. cbn [negb].
    destruct (String.eqb st "error"); cbn [andb negb] in Hne |- *.
    + destruct (message d) as [|msg|]; [| |discriminate].
      * eexists; split; [reflexivity | now left].
      * destruct (negb (String.eqb msg "") && _);
          eexists; (split; [reflexivity | tauto]).
    + eexists; split; [reflexivity | now left].
  - cbn. eexists; split; [reflexivity | now left].
Qed.

(** X14. A successful reply with a readable payload that is not a
    ['success'] ends the run at once: the record carries 'User not
    found' or 'this is not a leetcode user' and zero counters, and no
    pause or further request follows. *)
Theorem fetchUserStats_declined (net : nat -> FetchOutcome) (user : string)
    (jobs : Z) (n : nat) :
  (n <= maxRetries)%nat ->
  (forall k, (k < n)%nat -> failsAttempt (net k) = true) ->
  isDeclined (net n) = true ->
  exists err,
    fetchUserStats net user jobs
    = Some (failed user jobs err, (retried 0 n ++ [Fetched])%list) /\
    (err = "User not found" \/ err = "this is not a leetcode user").
Proof.
  intros Hn Hk Hd. rewrite (fetchUserStats_after_failures net user jobs n Hn Hk).
  replace (maxRetries + 2 - n)%nat with (S (maxRetries + 1 - n)) by lia.
  destruct (fetchLoop_declined (maxRetries + 1 - n) net user jobs n n Hn Hd)
    as (err & -> & Herr).
  now exists err.
Qed.

Lemma fetchUserStats_declined_witness :
  exists err,
    fetchUserStats
      (fun _ => Responded (Http.mk 200
                  (Json (mkLeetCodeResponse (Some "error") (MsgString "rate limited")
                                            0 0 0 0)))) "ana" 2
    = Some (failed "ana" 2 err, [Fetched]) /\
    (err = "User not found" \/ err = "this is not a leetcode user").
Proof.
  apply (fetchUserStats_declined _ "ana" 2 0%nat).
  - unfold maxRetries. lia.
  - intros k Hk. lia.
  - reflexivity.
Defined.

(** ** The calendar, month by month *)

Lemma allMonths_spec (f : Z -> bool) (n : nat) (start k : Z) :
  allMonths f start n = true -> 0 <= k < Z.of_nat n -> f (start + k) = true.
Proof.
  revert start k. induction n as [|n IH]; intros start k H Hk; [lia|].
  cbn [allMonths] in H. apply andb_true_iff in H. destruct H as [H0 H1].
  destruct (Z.eq_dec k 0) as [-> | Hne].
  - now rewrite Z.add_0_r.
  - replace (start + k) with (start + 1 + (k - 1)) by lia.
    apply IH; [exact H1 | lia].
Qed.

(** Every month of the table has 28 to 31 days, and twelve of them at
    most 366. *)
Lemma lengths_hold :
  allMonths (fun k => (28 <=? firstOfMonth (k + 1) - firstOfMonth k)
                      && (firstOfMonth (k + 1) - firstOfMonth k <=? 31)
                      && (firstOfMonth (k + 12) - firstOfMonth k <=? 366))
            firstMonth (Z.to_nat tabledMonths) = true.
Proof. vm_cast_no_check (@eq_refl bool true). Qed.

(** The days of a month read as that month, numbered from 1. *)
Lemma days_hold :
  allMonths (fun k => forallb (fun i => (firstOfMonth (k + 1) <=? firstOfMonth k + Z.of_nat i)
                                        || civilEqb (civilFromDays (firstOfMonth k + Z.of_nat i))
                                                    (k / 12, k mod 12 + 1, Z.of_nat i + 1))
                              (seq 0 31))
            firstMonth (Z.to_nat tabledMonths) = true.
Proof. vm_cast_no_check (@eq_refl bool true). Qed.

(** The keys of the next month and of the next year are later strings. *)
Lemma keys_hold :
  allMonths (fun k => String.ltb (keyOfMonth monthly k) (keyOfMonth monthly (k + 1))
                      && String.ltb (keyOfMonth yearly k) (keyOfMonth yearly (k + 12)))
            firstMonth (Z.to_nat tabledMonths) = true.
Proof. vm_cast_no_check (@eq_refl bool true). Qed.

Lemma months_covered (k : Z) :
  firstMonth <= k < firstMonth + tabledMonths ->
  0 <= k - firstMonth < Z.of_nat (Z.to_nat tabledMonths).
Proof.
  intros Hk. rewrite Z2Nat.id; [lia | discriminate].
Qed.

Lemma month_length (k : Z) :
  firstMonth <= k < firstMonth + tabledMonths ->
  28 <= firstOfMonth (k + 1) - firstOfMonth k <= 31 /\
  firstOfMonth (k + 12) - firstOfMonth k <= 366.
Proof.
  intros Hk.
  pose proof (allMonths_spec _ _ _ _ lengths_hold (months_covered k Hk)) as H.
  cbv beta in H. replace (firstMonth + (k - firstMonth)) with k in H by lia.
  apply andb_true_iff in H. destruct H as [H H3].
  apply andb_true_iff in H. destruct H as [H1 H2].
  apply Z.leb_le in H1, H2, H3. lia.
Qed.

Lemma firstOfMonth_mono (a : Z) (j : nat) :
  firstMonth <= a -> a + Z.of_nat j <= firstMonth + tabledMonths ->
  firstOfMonth a + 28 * Z.of_nat j <= firstOfMonth (a + Z.of_nat j).
Proof.
  intros Ha. induction j as [|j IH]; intros Hb.
  - replace (a + Z.of_nat 0) with a by lia. lia.
  - replace (a + Z.of_nat (S j)) with (a + Z.of_nat j + 1) by lia.
    specialize (IH ltac:(lia)).
    destruct (month_length (a + Z.of_nat j)) as [Hl _]; lia.
Qed.

Lemma firstOfMonth_le (a b : Z) :
  firstMonth <= a -> a <= b -> b <= firstMonth + tabledMonths ->
  firstOfMonth a + 28 * (b - a) <= firstOfMonth b.
Proof.
  intros Ha Hab Hb.
  pose proof (firstOfMonth_mono a (Z.to_nat (b - a)) Ha) as H.
  rewrite Z2Nat.id in H by lia. replace (a + (b - a)) with b in H by lia.
  apply H. exact Hb.
Qed.

Lemma inMonth_unique (k k' : Z) (d d' : Date) :
  inMonth k d -> inMonth k' d' -> firstOfMonth k <= dayOf d' < firstOfMonth (k + 1) ->
  k' = k.
Proof.
  intros [Hk _] [Hk' Hd'] Hd.
  destruct (Z.lt_trichotomy k' k) as [Hlt | [-> | Hgt]]; [|reflexivity|].
  - pose proof (firstOfMonth_le (k' + 1) k) as H. lia.
  - pose proof (firstOfMonth_le (k + 1) k') as H. lia.
Qed.

Lemma month_covers (n : Z) (j : nat) :
  Z.of_nat j <= tabledMonths ->
  firstOfMonth firstMonth <= n < firstOfMonth (firstMonth + Z.of_nat j) ->
  exists k, firstMonth <= k < firstMonth + Z.of_nat j /\
            firstOfMonth k <= n < firstOfMonth (k + 1).
Proof.
  induction j as [|j IH]; intros Hj Hn.
  - replace (firstMonth + Z.of_nat 0) with firstMonth in Hn by lia. lia.
  - destruct (Z.lt_ge_cases n (firstOfMonth (firstMonth + Z.of_nat j))) as [Hlt | Hge].
    + destruct IH as (k & Hk & Hin); [lia | lia |]. exists k. split; [lia | exact Hin].
    + exists (firstMonth + Z.of_nat j). split; [lia|].
      replace (firstMonth + Z.of_nat j + 1) with (firstMonth + Z.of_nat (S j)) by lia.
      lia.
Qed.

Lemma charted_inMonth (d : Date) :
  charted d -> exists k, 12 * 1970 <= k <= 12 * 2101 /\ inMonth k d.
Proof.
  intros Hd.
  assert (Hn : 0 <= dayOf d < 47849).
  { unfold charted, dayOf, msPerDay in *. Z.div_mod_to_equations. lia. }
  destruct (month_covers (dayOf d) (Z.to_nat tabledMonths)) as (k & Hk & Hin).
  - rewrite Z2Nat.id; [lia | discriminate].
  - rewrite Z2Nat.id by discriminate.
    change (firstOfMonth firstMonth) with (-365).
    change (firstOfMonth (firstMonth + tabledMonths)) with 48577. lia.
  - rewrite Z2Nat.id in Hk by discriminate.
    exists k. split; [|split; assumption].
    split.
    + destruct (Z.lt_ge_cases k (12 * 1970)) as [Hlt|]; [|assumption].
      pose proof (firstOfMonth_le (k + 1) (12 * 1970)) as H.
      change (firstOfMonth (12 * 1970)) with 0 in H.
      unfold firstMonth, tabledMonths in *. lia.
    + destruct (Z.lt_ge_cases (12 * 2101) k) as [Hlt|]; [|lia].
      pose proof (firstOfMonth_le (12 * 2101 + 1) k) as H.
      change (firstOfMonth (12 * 2101 + 1)) with 47878 in H.
      unfold firstMonth, tabledMonths in *. lia.
Qed.

Lemma civil_inMonth (k : Z) (d : Date) :
  inMonth k d ->
  civilFromDays (dayOf d) = (k / 12, k mod 12 + 1, dayOf d - firstOfMonth k + 1).
Proof.
  intros [Hk Hd].
  pose proof (allMonths_spec _ _ _ _ days_hold (months_covered k Hk)) as H.
  cbv beta in H. replace (firstMonth + (k - firstMonth)) with k in H by lia.
  rewrite forallb_forall in H.
  pose proof (month_length k Hk) as [Hl _].
  specialize (H (Z.to_nat (dayOf d - firstOfMonth k))).
  rewrite Z2Nat.id in H by lia.
  replace (firstOfMonth k + (dayOf d - firstOfMonth k)) with (dayOf d) in H by lia.
  destruct (Z.leb_spec (firstOfMonth (k + 1)) (dayOf d)) as [Hle|_]; [lia|].
  cbn [orb] in H.
  assert (Hc : civilEqb (civilFromDays (dayOf d))
                        (k / 12, k mod 12 + 1, dayOf d - firstOfMonth k + 1) = true).
  { apply H. apply in_seq. lia. }
  unfold civilEqb in Hc. cbn [fst snd] in Hc.
  apply andb_true_iff in Hc. destruct Hc as [Hc H3].
  apply andb_true_iff in Hc. destruct Hc as [H1 H2].
  apply Z.eqb_eq in H1, H2, H3.
  destruct (civilFromDays (dayOf d)) as [[y m] dd]. cbn [fst snd] in *. congruence.
Qed.
Lemma timeOfDay_bound (d : Date) : 0 <= timeOfDay d < msPerDay.
Proof. unfold timeOfDay. apply Z.mod_pos_bound. reflexivity. Qed.

Lemma dayOf_compose (n t : Z) : 0 <= t < msPerDay -> dayOf (n * msPerDay + t) = n.
Proof.
  intros Ht. unfold dayOf. rewrite Z.div_add_l by discriminate.
  rewrite Z.div_small by exact Ht. lia.
Qed.

Lemma day_bounds (d : Date) : dayOf d * msPerDay <= d < dayOf d * msPerDay + msPerDay.
Proof. unfold dayOf, msPerDay. Z.div_mod_to_equations. lia. Qed.

Lemma makeDay_first (y mi dt : Z) : makeDay y mi dt = firstOfMonth (12 * y + mi) + dt - 1.
Proof.
  unfold firstOfMonth, makeDay.
  replace ((12 * y + mi) / 12) with (y + mi / 12) by (Z.div_mod_to_equations; lia).
  replace ((12 * y + mi) mod 12) with (mi mod 12) by (Z.div_mod_to_equations; lia).
  rewrite Z.add_0_l. lia.
Qed.

Lemma makeDay_month (k c dt : Z) :
  makeDay (k / 12) (k mod 12 + c) dt = firstOfMonth (k + c) + dt - 1.
Proof.
  rewrite makeDay_first. f_equal. f_equal. f_equal.
  Z.div_mod_to_equations. lia.
Qed.

Lemma inMonth_fields (k : Z) (d : Date) :
  inMonth k d ->
  getFullYear d = k / 12 /\ getMonth d = k mod 12 /\
  getDate d = dayOf d - firstOfMonth k + 1.
Proof.
  intros H. unfold getFullYear, getMonth, getDate.
  rewrite (civil_inMonth k d H). cbn [fst snd]. repeat split. lia.
Qed.

Lemma inMonth_day (k n t : Z) :
  firstMonth <= k < firstMonth + tabledMonths ->
  firstOfMonth k <= n < firstOfMonth (k + 1) -> 0 <= t < msPerDay ->
  inMonth k (n * msPerDay + t).
Proof.
  intros Hk Hn Ht. split; [exact Hk|]. now rewrite dayOf_compose.
Qed.

Lemma inMonth_first (k : Z) :
  firstMonth <= k < firstMonth + tabledMonths -> inMonth k (firstOfMonth k * msPerDay).
Proof.
  intros Hk. rewrite <- (Z.add_0_r (firstOfMonth k * msPerDay)).
  apply inMonth_day; [exact Hk | | unfold msPerDay; lia].
  destruct (month_length k Hk) as [Hl _]. lia.
Qed.

Lemma startOfMonth_inMonth (k : Z) (d : Date) :
  inMonth k d -> startOfMonth d = firstOfMonth k * msPerDay.
Proof.
  intros H. destruct (inMonth_fields k d H) as (Hy & Hm & _).
  unfold startOfMonth. rewrite Hy, Hm.
  rewrite <- (Z.add_0_r (k mod 12)), makeDay_month. f_equal. rewrite Z.add_0_r. lia.
Qed.

Lemma startOfYear_inMonth (k : Z) (d : Date) :
  inMonth k d -> startOfYear d = firstOfMonth (12 * (k / 12)) * msPerDay.
Proof.
  intros H. destruct (inMonth_fields k d H) as (Hy & _ & _).
  unfold startOfYear. rewrite Hy, makeDay_first. f_equal. rewrite Z.add_0_r. lia.
Qed.

Lemma addMonths_inMonth (k a : Z) (d : Date) :
  inMonth k d -> firstMonth <= k + a < firstMonth + tabledMonths ->
  inMonth (k + a) (addMonths d a).
Proof.
  intros H Ha. unfold addMonths.
  destruct (Z.eqb_spec a 0) as [-> | Hne]; [now rewrite Z.add_0_r|].
  destruct (inMonth_fields k d H) as (Hy & Hm & Hdd).
  destruct H as [Hk Hd].
  cbv zeta. unfold setMonth. rewrite Hy, Hm, Hdd.
  replace (k mod 12 + a + 1) with (k mod 12 + (a + 1)) by lia.
  rewrite makeDay_month. replace (k + (a + 1)) with (k + a + 1) by lia.
  pose proof (timeOfDay_bound d) as Ht.
  destruct (month_length (k + a) Ha) as [Hl _].
  assert (Hend : inMonth (k + a)
                   ((firstOfMonth (k + a + 1) + 0 - 1) * msPerDay + timeOfDay d)).
  { apply inMonth_day; [exact Ha | lia | exact Ht]. }
  destruct (inMonth_fields _ _ Hend) as (Hy' & Hm' & Hdd').
  rewrite Hdd'. rewrite dayOf_compose by exact Ht.
  destruct (Z.leb_spec (firstOfMonth (k + a + 1) + 0 - 1 - firstOfMonth (k + a) + 1)
                       (dayOf d - firstOfMonth k + 1)) as [Hle | Hgt]; [exact Hend|].
  unfold setFullYear. rewrite Hy', Hm'.
  rewrite <- (Z.add_0_r ((k + a) mod 12)), makeDay_month, Z.add_0_r.
  apply inMonth_day; [exact Ha | lia | exact Ht].
Qed.

Lemma keyOf_same_month (d1 d2 : Date) :
  getFullYear d1 = getFullYear d2 -> getMonth d1 = getMonth d2 ->
  keyOf monthly d1 = keyOf monthly d2.
Proof.
  intros Hy Hm. unfold keyOf, getMonthlyPeriodKey, format. cbn [map formatToken].
  now rewrite Hy, Hm.
Qed.

Lemma keyOf_same_year (d1 d2 : Date) :
  getFullYear d1 = getFullYear d2 -> keyOf yearly d1 = keyOf yearly d2.
Proof.
  intros Hy. unfold keyOf, getYearlyPeriodKey, format. cbn [map formatToken].
  now rewrite Hy.
Qed.

Lemma keyOf_inMonth (k : Z) (d : Date) :
  inMonth k d -> keyOf monthly d = keyOfMonth monthly k.
Proof.
  intros H. destruct (inMonth_fields k d H) as (Hy & Hm & _).
  destruct (inMonth_fields k _ (inMonth_first k (proj1 H))) as (Hy' & Hm' & _).
  unfold keyOfMonth. apply keyOf_same_month; congruence.
Qed.

Lemma keyOf_inYear (k k' : Z) (d : Date) :
  inMonth k d -> firstMonth <= k' < firstMonth + tabledMonths -> k / 12 = k' / 12 ->
  keyOf yearly d = keyOfMonth yearly k'.
Proof.
  intros H Hk' Hsame. destruct (inMonth_fields k d H) as (Hy & _ & _).
  destruct (inMonth_fields k' _ (inMonth_first k' Hk')) as (Hy' & _ & _).
  unfold keyOfMonth. apply keyOf_same_year; congruence.
Qed.

Lemma keys_later (k : Z) :
  firstMonth <= k < firstMonth + tabledMonths ->
  String.ltb (keyOfMonth monthly k) (keyOfMonth monthly (k + 1)) = true /\
  String.ltb (keyOfMonth yearly k) (keyOfMonth yearly (k + 12)) = true.
Proof.
  intros Hk.
  pose proof (allMonths_spec _ _ _ _ keys_hold (months_covered k Hk)) as H.
  cbv beta in H. replace (firstMonth + (k - firstMonth)) with k in H by lia.
  now apply andb_true_iff in H.
Qed.
Lemma tabled_inMonth (n : Z) :
  firstOfMonth firstMonth <= n < firstOfMonth (firstMonth + tabledMonths) ->
  exists k, firstMonth <= k < firstMonth + tabledMonths /\
            firstOfMonth k <= n < firstOfMonth (k + 1).
Proof.
  intros Hn. destruct (month_covers n (Z.to_nat tabledMonths)) as (k & Hk & Hin).
  - rewrite Z2Nat.id; [lia | discriminate].
  - now rewrite Z2Nat.id by discriminate.
  - rewrite Z2Nat.id in Hk by discriminate. now exists k.
Qed.

Lemma weekStartOfDay_bounds (n : Z) :
  n - 6 <= weekStartOfDay n <= n /\ (weekStartOfDay n + 3) mod 7 = 0.
Proof.
  unfold weekStartOfDay. cbv zeta.
  destruct (Z.ltb_spec ((n + 4) mod 7) 1); Z.div_mod_to_equations; lia.
Qed.

Lemma weekStartOfDay_within (n n' : Z) :
  weekStartOfDay n <= n' < weekStartOfDay n + 7 -> weekStartOfDay n' = weekStartOfDay n.
Proof.
  pose proof (weekStartOfDay_bounds n) as [Hb Hm].
  pose proof (weekStartOfDay_bounds n') as [Hb' Hm'].
  intros H. Z.div_mod_to_equations. lia.
Qed.

Lemma dayOf_between (d : Date) (a b : Z) :
  a * msPerDay <= d < b * msPerDay -> a <= dayOf d < b.
Proof.
  unfold dayOf, msPerDay. intros H. Z.div_mod_to_equations. lia.
Qed.

Lemma dayOf_le (d1 d2 : Date) : d1 <= d2 -> dayOf d1 <= dayOf d2.
Proof. intros H. unfold dayOf. apply Z.div_le_mono; [reflexivity | exact H]. Qed.

Lemma nextReset_weekly (now : Date) :
  charted now ->
  now < nextReset now weekly <= now + longest weekly /\
  startOfPeriod weekly (nextReset now weekly) = nextReset now weekly /\
  (forall d, now <= d < nextReset now weekly -> keyOf weekly d = keyOf weekly now) /\
  String.ltb (keyOf weekly now) (keyOf weekly (nextReset now weekly)) = true.
Proof.
  intros Hnow. pose proof (day_bounds now) as Hday.
  unfold nextReset, startOfPeriod, longest.
  unfold keyOf.
  assert (Hnr : startOfISOWeek (addWeeks now 1)
                = (weekStartOfDay (dayOf now) + 7) * msPerDay).
  { rewrite startOfISOWeek_day. unfold addWeeks.
    change (1 * 7 * msPerDay) with millisecondsInWeek.
    now rewrite weekStartOfDay_next_week. }
  rewrite Hnr.
  pose proof (weekStartOfDay_bounds (dayOf now)) as [Hb Hm].
  assert (Hend : weekStartOfDay (dayOf now) + 7 <= 47849).
  { unfold charted in Hnow.
    assert (dayOf now < 47849) by (apply (dayOf_between now 0 47849); lia).
    Z.div_mod_to_equations. lia. }
  repeat match goal with |- _ /\ _ => split end.
  + unfold msPerDay in *. lia.
  + unfold msPerDay in *. lia.
  + rewrite startOfISOWeek_day, dayOf_midnight. f_equal.
    rewrite <- (weekStartOfDay_within (dayOf now) (weekStartOfDay (dayOf now))) at 2 by lia.
    pose proof (weekStartOfDay_bounds (weekStartOfDay (dayOf now) + 7)) as [Hb' Hm'].
    pose proof (weekStartOfDay_bounds (weekStartOfDay (dayOf now))) as [Hb2 Hm2].
    Z.div_mod_to_equations. lia.
  + intros d Hd. apply getWeeklyPeriodKey_same_week; [| exact Hnow |].
    * unfold charted in *. unfold msPerDay in *. lia.
    * rewrite !startOfISOWeek_day. f_equal. apply weekStartOfDay_within.
      pose proof (dayOf_le now d (proj1 Hd)).
      assert (dayOf d < weekStartOfDay (dayOf now) + 7)
        by (apply (dayOf_between d (dayOf now)); unfold msPerDay in *; lia).
      lia.
  + rewrite !getWeeklyPeriodKey_day, dayOf_midnight.
    destruct (weekChecks_day now Hnow) as [-> Hlater]. exact Hlater.
Qed.

Lemma nextReset_monthly (now : Date) :
  charted now ->
  now < nextReset now monthly <= now + longest monthly /\
  startOfPeriod monthly (nextReset now monthly) = nextReset now monthly /\
  (forall d, now <= d < nextReset now monthly -> keyOf monthly d = keyOf monthly now) /\
  String.ltb (keyOf monthly now) (keyOf monthly (nextReset now monthly)) = true.
Proof.
  intros Hnow. pose proof (day_bounds now) as Hday.
  unfold nextReset, startOfPeriod, longest.
  destruct (charted_inMonth now Hnow) as (k & Hk & Hin).
  assert (Hk1 : firstMonth <= k + 1 < firstMonth + tabledMonths)
    by (unfold firstMonth, tabledMonths; lia).
  rewrite (startOfMonth_inMonth (k + 1) _ (addMonths_inMonth k 1 now Hin Hk1)).
  destruct Hin as [Hkr Hd]. destruct (month_length k Hkr) as [Hl _].
  repeat match goal with |- _ /\ _ => split end.
  + unfold msPerDay in *. lia.
  + unfold msPerDay in *. lia.
  + apply startOfMonth_inMonth, inMonth_first, Hk1.
  + intros d Hd'.
    assert (Hin' : inMonth k d).
    { split; [exact Hkr|]. pose proof (dayOf_le now d (proj1 Hd')).
      assert (dayOf d < firstOfMonth (k + 1))
        by (apply (dayOf_between d (dayOf now)); unfold msPerDay in *; lia).
      lia. }
    rewrite (keyOf_inMonth k d Hin'). symmetry. apply keyOf_inMonth. now split.
  + rewrite (keyOf_inMonth k now (conj Hkr Hd)).
    rewrite (keyOf_inMonth (k + 1) _ (inMonth_first _ Hk1)).
    destruct (keys_later k Hkr) as [Hlater _]. exact Hlater.
Qed.

Lemma nextReset_yearly (now : Date) :
  charted now ->
  now < nextReset now yearly <= now + longest yearly /\
  startOfPeriod yearly (nextReset now yearly) = nextReset now yearly /\
  (forall d, now <= d < nextReset now yearly -> keyOf yearly d = keyOf yearly now) /\
  String.ltb (keyOf yearly now) (keyOf yearly (nextReset now yearly)) = true.
Proof.
  intros Hnow. pose proof (day_bounds now) as Hday.
  unfold nextReset, startOfPeriod, longest.
  destruct (charted_inMonth now Hnow) as (k & Hk & Hin).
  assert (Hk12 : firstMonth <= k + 1 * 12 < firstMonth + tabledMonths)
    by (unfold firstMonth, tabledMonths; lia).
  unfold addYears.
  rewrite (startOfYear_inMonth (k + 1 * 12) _ (addMonths_inMonth k (1 * 12) now Hin Hk12)).
  replace (12 * ((k + 1 * 12) / 12)) with (12 * (k / 12) + 12)
    by (Z.div_mod_to_equations; lia).
  set (K0 := 12 * (k / 12)).
  assert (HK0 : K0 <= k < K0 + 12) by (unfold K0; Z.div_mod_to_equations; lia).
  assert (HK0r : firstMonth <= K0 < firstMonth + tabledMonths)
    by (unfold firstMonth, tabledMonths, K0 in *; Z.div_mod_to_equations; lia).
  assert (HKr : firstMonth <= K0 + 12 < firstMonth + tabledMonths)
    by (unfold firstMonth, tabledMonths, K0 in *; Z.div_mod_to_equations; lia).
  destruct Hin as [Hkr Hd].
  destruct (month_length K0 HK0r) as [_ Hl].
  pose proof (firstOfMonth_le K0 k) as Hlow.
  pose proof (firstOfMonth_le (k + 1) (K0 + 12)) as Hhigh.
  assert (HnowK : firstOfMonth K0 <= dayOf now < firstOfMonth (K0 + 12))
    by (unfold firstMonth, tabledMonths in *; lia).
  repeat match goal with |- _ /\ _ => split end.
  + unfold msPerDay in *. lia.
  + unfold msPerDay in *. lia.
  + rewrite (startOfYear_inMonth (K0 + 12) _ (inMonth_first _ HKr)).
    do 2 f_equal. unfold K0. Z.div_mod_to_equations. lia.
  + intros d Hd'.
    pose proof (dayOf_le now d (proj1 Hd')) as Hge.
    assert (Hlt : dayOf d < firstOfMonth (K0 + 12))
      by (apply (dayOf_between d (dayOf now)); unfold msPerDay in *; lia).
    destruct (tabled_inMonth (dayOf d)) as (k' & Hk' & Hin').
    { pose proof (firstOfMonth_le firstMonth K0).
      pose proof (firstOfMonth_le (K0 + 12) (firstMonth + tabledMonths)).
      unfold firstMonth, tabledMonths in *. lia. }
    assert (Hrange : K0 <= k' < K0 + 12).
    { split.
      - destruct (Z.lt_ge_cases k' K0) as [Hc|]; [|assumption].
        pose proof (firstOfMonth_le (k' + 1) K0). lia.
      - destruct (Z.lt_ge_cases k' (K0 + 12)) as [|Hc]; [assumption|].
        pose proof (firstOfMonth_le (K0 + 12) k'). lia. }
    rewrite (keyOf_inYear k' k d (conj Hk' Hin') Hkr)
      by (unfold K0 in *; Z.div_mod_to_equations; lia).
    symmetry. apply (keyOf_inYear k k now (conj Hkr Hd) Hkr). reflexivity.
  + rewrite (keyOf_inYear k k now (conj Hkr Hd) Hkr eq_refl).
    rewrite (keyOf_inYear (K0 + 12) (k + 12) _ (inMonth_first _ HKr))
      by (unfold firstMonth, tabledMonths, K0 in *; Z.div_mod_to_equations; lia).
    destruct (keys_later k Hkr) as [_ Hlater]. exact Hlater.
Qed.

(** The next reset of a period, on the dates of one wall clock. *)
Lemma nextReset_spec (now : Date) (period : SnapshotPeriod) :
  charted now ->
  now < nextReset now period <= now + longest period /\
  startOfPeriod period (nextReset now period) = nextReset now period /\
  (forall d, now <= d < nextReset now period -> keyOf period d = keyOf period now) /\
  String.ltb (keyOf period now) (keyOf period (nextReset now period)) = true.
Proof.
  destruct period;
    [apply nextReset_weekly | apply nextReset_monthly | apply nextReset_yearly].
Qed.
Lemma getPeriodKey_keyOf (rt : Runtime) (clock : Z) (period : SnapshotPeriod) :
  getPeriodKey rt clock period = keyOf period (getNow rt clock).
Proof. destruct period; unfold getPeriodKey, keyOf; reflexivity. Qed.



Lemma subWeeks_week (d : Date) : subWeeks d 1 + millisecondsInWeek = d.
Proof. unfold subWeeks, millisecondsInWeek, msPerDay. lia. Qed.

Lemma previous_weekly (now : Date) :
  charted now -> charted (now - millisecondsInWeek) ->
  String.ltb (keyOf weekly (subWeeks now 1)) (keyOf weekly now) = true /\
  keyOf weekly (subWeeks now 1) = keyOf weekly (startOfPeriod weekly now - 1).
Proof.
  intros Hnow Hprev. unfold keyOf, startOfPeriod.
  assert (Hsub : subWeeks now 1 = now - millisecondsInWeek)
    by (unfold subWeeks, millisecondsInWeek, msPerDay; lia).
  rewrite Hsub.
  split.
  - destruct (getWeeklyPeriodKey_next_week (now - millisecondsInWeek) Hprev) as [Hlt _].
    + now replace (now - millisecondsInWeek + millisecondsInWeek) with now by lia.
    + now replace (now - millisecondsInWeek + millisecondsInWeek) with now in Hlt by lia.
  - pose proof (weekStartOfDay_next_week (now - millisecondsInWeek)) as Hw.
    replace (now - millisecondsInWeek + millisecondsInWeek) with now in Hw by lia.
    pose proof (weekStartOfDay_bounds (dayOf now)) as [Hb Hm].
    pose proof (weekStartOfDay_bounds (dayOf (now - millisecondsInWeek))) as [Hb' Hm'].
    assert (Hday : dayOf (startOfISOWeek now - 1) = weekStartOfDay (dayOf now) - 1).
    { rewrite startOfISOWeek_day.
      replace (weekStartOfDay (dayOf now) * msPerDay - 1)
        with ((weekStartOfDay (dayOf now) - 1) * msPerDay + (msPerDay - 1))
        by (unfold msPerDay; lia).
      apply dayOf_compose. unfold msPerDay. lia. }
    assert (H0 : 0 <= dayOf (now - millisecondsInWeek))
      by (apply (dayOf_between _ 0 47849); unfold charted, msPerDay in *; lia).
    apply getWeeklyPeriodKey_same_week; [exact Hprev | |].
    + pose proof (day_bounds now). pose proof (day_bounds (startOfISOWeek now - 1)).
      rewrite Hday in *. unfold charted, msPerDay in *. lia.
    + rewrite (startOfISOWeek_day (now - millisecondsInWeek)),
        (startOfISOWeek_day (startOfISOWeek now - 1)), Hday.
      f_equal. symmetry. apply weekStartOfDay_within. lia.
Qed.

Lemma inMonth_last (k : Z) :
  firstMonth < k <= firstMonth + tabledMonths ->
  inMonth (k - 1) (firstOfMonth k * msPerDay - 1).
Proof.
  intros Hk.
  replace (firstOfMonth k * msPerDay - 1)
    with ((firstOfMonth k - 1) * msPerDay + (msPerDay - 1)) by (unfold msPerDay; lia).
  assert (Hr : firstMonth <= k - 1 < firstMonth + tabledMonths) by lia.
  destruct (month_length (k - 1) Hr) as [Hl _].
  replace (k - 1 + 1) with k in Hl by lia.
  apply inMonth_day; [exact Hr | | unfold msPerDay; lia].
  replace (k - 1 + 1) with k by lia. lia.
Qed.

Lemma previous_monthly (now : Date) :
  charted now ->
  String.ltb (keyOf monthly (subMonths now 1)) (keyOf monthly now) = true /\
  keyOf monthly (subMonths now 1) = keyOf monthly (startOfPeriod monthly now - 1).
Proof.
  intros Hnow. unfold startOfPeriod, subMonths.
  destruct (charted_inMonth now Hnow) as (k & Hk & Hin).
  assert (Hp : firstMonth <= k + - (1) < firstMonth + tabledMonths)
    by (unfold firstMonth, tabledMonths; lia).
  rewrite (keyOf_inMonth _ _ (addMonths_inMonth k (- (1)) now Hin Hp)).
  rewrite (keyOf_inMonth k now Hin), (startOfMonth_inMonth k now Hin).
  assert (Hl : firstMonth < k <= firstMonth + tabledMonths)
    by (unfold firstMonth, tabledMonths; lia).
  rewrite (keyOf_inMonth _ _ (inMonth_last k Hl)).
  replace (k + - (1)) with (k - 1) by lia.
  split; [|reflexivity].
  destruct (keys_later (k - 1)) as [Hlater _]; [lia|].
  now replace (k - 1 + 1) with k in Hlater by lia.
Qed.

Lemma previous_yearly (now : Date) :
  charted now ->
  String.ltb (keyOf yearly (subYears now 1)) (keyOf yearly now) = true /\
  keyOf yearly (subYears now 1) = keyOf yearly (startOfPeriod yearly now - 1).
Proof.
  intros Hnow. unfold startOfPeriod, subYears, addYears.
  destruct (charted_inMonth now Hnow) as (k & Hk & Hin).
  assert (Hp : firstMonth <= k + - (1) * 12 < firstMonth + tabledMonths)
    by (unfold firstMonth, tabledMonths; lia).
  assert (Hp' : firstMonth <= k - 12 < firstMonth + tabledMonths) by lia.
  rewrite (keyOf_inYear _ (k - 12) _ (addMonths_inMonth k (- (1) * 12) now Hin Hp) Hp')
    by (f_equal; lia).
  rewrite (keyOf_inYear k k now Hin (proj1 Hin) eq_refl), (startOfYear_inMonth k now Hin).
  assert (Hl : firstMonth < 12 * (k / 12) <= firstMonth + tabledMonths)
    by (unfold firstMonth, tabledMonths in *; Z.div_mod_to_equations; lia).
  rewrite (keyOf_inYear _ (k - 12) _ (inMonth_last _ Hl) Hp')
    by (Z.div_mod_to_equations; lia).
  split; [|reflexivity].
  destruct (keys_later (k - 12) Hp') as [_ Hlater].
  now replace (k - 12 + 12) with k in Hlater by lia.
Qed.

Lemma previousKey_keyOf (rt : Runtime) (clock : Z) (period : SnapshotPeriod) :
  previousKey rt clock period
  = keyOf period match period with
                 | weekly => subWeeks (newDate rt clock) 1
                 | monthly => subMonths (newDate rt clock) 1
                 | yearly => subYears (newDate rt clock) 1
                 end.
Proof. destruct period; cbv beta iota zeta delta [previousKey keyOf]; reflexivity. Qed.

(** X16. The key under which [handleViewPreviousLeaderboard] looks for
    the start of the previous period is the key of the last moment
    before the current period began, and an earlier string than the key
    of the date it starts from; when the clock of the runtime reads as
    the reference zone, it therefore differs from the current period
    key. *)
Theorem previousKey_is_the_period_before (rt : Runtime) (clock : Z)
    (period : SnapshotPeriod) :
  charted (newDate rt clock) ->
  charted (newDate rt clock - millisecondsInWeek) ->
  previousKey rt clock period
  = keyOf period (startOfPeriod period (newDate rt clock) - 1) /\
  String.ltb (previousKey rt clock period) (keyOf period (newDate rt clock)) = true /\
  (localOffset rt clock = zoneOffset rt TIMEZONE clock ->
   previousKey rt clock period <> getPeriodKey rt clock period).
Proof.
  intros Hnow Hprev.
  assert (H : String.ltb (previousKey rt clock period) (keyOf period (newDate rt clock)) = true /\
              previousKey rt clock period
              = keyOf period (startOfPeriod period (newDate rt clock) - 1)).
  { rewrite previousKey_keyOf.
    destruct period; cbv beta iota;
      [apply previous_weekly | apply previous_monthly | apply previous_yearly]; assumption. }
  destruct H as [Hlt Heq].
  split; [exact Heq | split; [exact Hlt|]].
  intros Hzone Hsame.
  assert (Hdate : getNow rt clock = newDate rt clock).
  { unfold getNow, toZonedTime, newDate. now rewrite Hzone. }
  rewrite Hsame, getPeriodKey_keyOf, Hdate, ltb_irrefl in Hlt. discriminate.
Qed.

Lemma previousKey_is_the_period_before_witness :
  previousKey utcRuntime sundayEvening monthly
  = keyOf monthly (startOfPeriod monthly (newDate utcRuntime sundayEvening) - 1).
Proof.
  apply (previousKey_is_the_period_before utcRuntime sundayEvening monthly).
  - unfold charted. vm_compute. split; [discriminate | reflexivity].
  - unfold charted. vm_compute. split; [discriminate | reflexivity].
Defined.
(** ** Period keys identify periods *)

Lemma ltb_trans (a b c : string) :
  String.ltb a b = true -> String.ltb b c = true -> String.ltb a c = true.
Proof.
  unfold String.ltb. intros Hab Hbc.
  destruct (String.compare a b) eqn:Eab; try discriminate.
  destruct (String.compare b c) eqn:Ebc; try discriminate.
  apply OrderedTypeEx.String_as_OT.cmp_lt in Eab, Ebc.
  pose proof (OrderedTypeEx.String_as_OT.lt_trans _ _ _ Eab Ebc) as Hac.
  apply OrderedTypeEx.String_as_OT.cmp_lt in Hac.
  unfold OrderedTypeEx.String_as_OT.cmp in Hac. now rewrite Hac.
Qed.

Lemma monthly_keys_increase (k : Z) (j : nat) :
  firstMonth <= k -> k + Z.of_nat (S j) <= firstMonth + tabledMonths ->
  String.ltb (keyOfMonth monthly k) (keyOfMonth monthly (k + Z.of_nat (S j))) = true.
Proof.
  intros Hk. induction j as [|j IH]; intros Hb.
  - destruct (keys_later k) as [H _]; [lia|]. exact H.
  - apply ltb_trans with (b := keyOfMonth monthly (k + Z.of_nat (S j))); [apply IH; lia|].
    replace (k + Z.of_nat (S (S j))) with (k + Z.of_nat (S j) + 1) by lia.
    destruct (keys_later (k + Z.of_nat (S j))) as [H _]; [lia|]. exact H.
Qed.

Lemma yearly_keys_increase (k : Z) (j : nat) :
  firstMonth <= k -> k + 12 * Z.of_nat (S j) < firstMonth + tabledMonths ->
  String.ltb (keyOfMonth yearly k) (keyOfMonth yearly (k + 12 * Z.of_nat (S j))) = true.
Proof.
  intros Hk. induction j as [|j IH]; intros Hb.
  - destruct (keys_later k) as [_ H]; [lia|]. exact H.
  - apply ltb_trans with (b := keyOfMonth yearly (k + 12 * Z.of_nat (S j)));
      [apply IH; lia|].
    replace (k + 12 * Z.of_nat (S (S j))) with (k + 12 * Z.of_nat (S j) + 12) by lia.
    destruct (keys_later (k + 12 * Z.of_nat (S j))) as [_ H]; [lia|]. exact H.
Qed.

Lemma weekly_keys_increase (k : Z) (j : nat) :
  0 <= k -> k + Z.of_nat (S j) <= chartedWeeks ->
  String.ltb (weeklyKeyOfDay (-3 + 7 * k))
             (weeklyKeyOfDay (-3 + 7 * (k + Z.of_nat (S j)))) = true.
Proof.
  intros Hk.
  assert (Hstep : forall i, 0 <= i < chartedWeeks ->
            String.ltb (weeklyKeyOfDay (-3 + 7 * i)) (weeklyKeyOfDay (-3 + 7 * (i + 1))) = true).
  { intros i Hi. pose proof (allWeeks_spec _ _ _ _ nextLater_hold (weeks_covered i Hi)) as H.
    cbv beta in H. now replace (-3 + 7 * (i + 1)) with (-3 + 7 * i + 7) by lia. }
  induction j as [|j IH]; intros Hb.
  - apply Hstep. lia.
  - apply ltb_trans with (b := weeklyKeyOfDay (-3 + 7 * (k + Z.of_nat (S j))));
      [apply IH; lia|].
    replace (k + Z.of_nat (S (S j))) with (k + Z.of_nat (S j) + 1) by lia.
    apply Hstep. lia.
Qed.

Lemma keys_follow_weeks (d1 d2 : Date) :
  charted d1 -> charted d2 ->
  (startOfPeriod weekly d1 = startOfPeriod weekly d2 -> keyOf weekly d1 = keyOf weekly d2) /\
  (startOfPeriod weekly d1 < startOfPeriod weekly d2 ->
   String.ltb (keyOf weekly d1) (keyOf weekly d2) = true).
Proof.
  intros H1 H2. unfold startOfPeriod, keyOf. split.
  - now apply getWeeklyPeriodKey_same_week.
  - rewrite !startOfISOWeek_day, !getWeeklyPeriodKey_day. intros Hlt.
    destruct (weekChecks_day d1 H1) as [-> _], (weekChecks_day d2 H2) as [-> _].
    destruct (charted_week d1 H1) as (k1 & i1 & Hk1 & _ & Hw1 & _ & _).
    destruct (charted_week d2 H2) as (k2 & i2 & Hk2 & _ & Hw2 & _ & _).
    rewrite Hw1, Hw2 in Hlt |- *.
    assert (Hk : k1 < k2) by (unfold msPerDay in Hlt; lia).
    replace k2 with (k1 + Z.of_nat (S (Z.to_nat (k2 - k1 - 1)))) by lia.
    apply weekly_keys_increase; lia.
Qed.

Lemma keys_follow_months (d1 d2 : Date) :
  charted d1 -> charted d2 ->
  (startOfPeriod monthly d1 = startOfPeriod monthly d2 ->
   keyOf monthly d1 = keyOf monthly d2) /\
  (startOfPeriod monthly d1 < startOfPeriod monthly d2 ->
   String.ltb (keyOf monthly d1) (keyOf monthly d2) = true).
Proof.
  intros H1 H2. unfold startOfPeriod.
  destruct (charted_inMonth d1 H1) as (k1 & Hk1 & Hin1).
  destruct (charted_inMonth d2 H2) as (k2 & Hk2 & Hin2).
  rewrite (startOfMonth_inMonth k1 d1 Hin1), (startOfMonth_inMonth k2 d2 Hin2).
  rewrite (keyOf_inMonth k1 d1 Hin1), (keyOf_inMonth k2 d2 Hin2).
  assert (Hr1 : firstMonth <= k1 < firstMonth + tabledMonths) by apply Hin1.
  assert (Hr2 : firstMonth <= k2 < firstMonth + tabledMonths) by apply Hin2.
  assert (Hmono : forall a b, firstMonth <= a -> a < b -> b <= firstMonth + tabledMonths ->
                              firstOfMonth a < firstOfMonth b).
  { intros a b Ha Hab Hb. pose proof (firstOfMonth_le a b Ha). lia. }
  split; intros H.
  - assert (He : firstOfMonth k1 = firstOfMonth k2) by (unfold msPerDay in H; lia).
    destruct (Z.lt_trichotomy k1 k2) as [Hlt | [-> | Hgt]]; [|reflexivity|].
    + pose proof (Hmono k1 k2). lia.
    + pose proof (Hmono k2 k1). lia.
  - assert (Hf : firstOfMonth k1 < firstOfMonth k2) by (unfold msPerDay in H; lia).
    assert (Hk : k1 < k2).
    { destruct (Z.lt_ge_cases k1 k2) as [|Hge]; [assumption|].
      pose proof (firstOfMonth_le k2 k1). lia. }
    replace k2 with (k1 + Z.of_nat (S (Z.to_nat (k2 - k1 - 1)))) by lia.
    apply monthly_keys_increase; lia.
Qed.

Lemma keys_follow_years (d1 d2 : Date) :
  charted d1 -> charted d2 ->
  (startOfPeriod yearly d1 = startOfPeriod yearly d2 ->
   keyOf yearly d1 = keyOf yearly d2) /\
  (startOfPeriod yearly d1 < startOfPeriod yearly d2 ->
   String.ltb (keyOf yearly d1) (keyOf yearly d2) = true).
Proof.
  intros H1 H2. unfold startOfPeriod.
  destruct (charted_inMonth d1 H1) as (k1 & Hk1 & Hin1).
  destruct (charted_inMonth d2 H2) as (k2 & Hk2 & Hin2).
  rewrite (startOfYear_inMonth k1 d1 Hin1), (startOfYear_inMonth k2 d2 Hin2).
  assert (Hr1 : firstMonth <= 12 * (k1 / 12) < firstMonth + tabledMonths)
    by (unfold firstMonth, tabledMonths; Z.div_mod_to_equations; lia).
  assert (Hr2 : firstMonth <= 12 * (k2 / 12) < firstMonth + tabledMonths)
    by (unfold firstMonth, tabledMonths; Z.div_mod_to_equations; lia).
  rewrite (keyOf_inYear k1 (12 * (k1 / 12)) d1 Hin1 Hr1)
    by (Z.div_mod_to_equations; lia).
  rewrite (keyOf_inYear k2 (12 * (k2 / 12)) d2 Hin2 Hr2)
    by (Z.div_mod_to_equations; lia).
  assert (Hmono : forall a b, firstMonth <= a -> a < b -> b <= firstMonth + tabledMonths ->
                              firstOfMonth a < firstOfMonth b).
  { intros a b Ha Hab Hb. pose proof (firstOfMonth_le a b Ha). lia. }
  generalize dependent (k1 / 12). generalize dependent (k2 / 12).
  intros y2 Hr2 y1 Hr1.
  split; intros H.
  - assert (He : firstOfMonth (12 * y1) = firstOfMonth (12 * y2))
      by (unfold msPerDay in H; lia).
    destruct (Z.lt_trichotomy y1 y2) as [Hlt | [-> | Hgt]]; [|reflexivity|].
    + pose proof (Hmono (12 * y1) (12 * y2)). lia.
    + pose proof (Hmono (12 * y2) (12 * y1)). lia.
  - assert (Hf : firstOfMonth (12 * y1) < firstOfMonth (12 * y2))
      by (unfold msPerDay in H; lia).
    assert (Hy : y1 < y2).
    { destruct (Z.lt_ge_cases y1 y2) as [|Hge]; [assumption|].
      pose proof (firstOfMonth_le (12 * y2) (12 * y1)). lia. }
    replace (12 * y2) with (12 * y1 + 12 * Z.of_nat (S (Z.to_nat (y2 - y1 - 1)))) by lia.
    apply yearly_keys_increase; lia.
Qed.

(** X23. Period keys identify periods and sort with them: two dates get
    the same key exactly when they lie in the same ISO week, month or
    year, and the key of a date in an earlier period is an earlier
    string. *)
Theorem periodKey_identifies_period (period : SnapshotPeriod) (d1 d2 : Date) :
  charted d1 -> charted d2 ->
  (keyOf period d1 = keyOf period d2 <->
   startOfPeriod period d1 = startOfPeriod period d2) /\
  (String.ltb (keyOf period d1) (keyOf period d2) = true <->
   startOfPeriod period d1 < startOfPeriod period d2).
Proof.
  intros H1 H2.
  assert (Hfwd : forall a b, charted a -> charted b ->
            (startOfPeriod period a = startOfPeriod period b ->
             keyOf period a = keyOf period b) /\
            (startOfPeriod period a < startOfPeriod period b ->
             String.ltb (keyOf period a) (keyOf period b) = true)).
  { intros a b Ha Hb.
    destruct period;
      [apply keys_follow_weeks | apply keys_follow_months | apply keys_follow_years];
      assumption. }
  destruct (Hfwd d1 d2 H1 H2) as [Hsame Hless].
  destruct (Hfwd d2 d1 H2 H1) as [_ Hmore].
  destruct (Z.lt_trichotomy (startOfPeriod period d1) (startOfPeriod period d2))
    as [Hlt | [Heq | Hgt]].
  - specialize (Hless Hlt). split; split; intro H; try lia; trivial.
    rewrite H, ltb_irrefl in Hless. discriminate.
  - specialize (Hsame Heq). split; split; intro H; trivial; try lia.
    rewrite Hsame, ltb_irrefl in H. discriminate.
  - specialize (Hmore Hgt). split; split; intro H; try lia.
    + rewrite H, ltb_irrefl in Hmore. discriminate.
    + pose proof (ltb_trans _ _ _ H Hmore) as Hc. rewrite ltb_irrefl in Hc. discriminate.
Qed.

Lemma periodKey_identifies_period_witness :
  keyOf monthly (newDate utcRuntime saturdayNoon) = keyOf monthly (newDate utcRuntime sundayEvening).
Proof.
  apply (periodKey_identifies_period monthly).
  - unfold charted. vm_compute. split; [discriminate | reflexivity].
  - unfold charted. vm_compute. split; [discriminate | reflexivity].
  - vm_compute. reflexivity.
Defined.

(** ** The countdown label *)

(** X17. For a time that is not negative, the label shows whole days,
    hours below 24 and minutes below 60, and together they fall short of
    the time by less than a minute. *)
Theorem formatTimeRemaining_parts (ms : Z) :
  0 <= ms ->
  exists days hours minutes,
    formatTimeRemaining ms
    = toString days ++ "d " ++ toString hours ++ "h " ++ toString minutes ++ "m" /\
    0 <= days /\ 0 <= hours < 24 /\ 0 <= minutes < 60 /\
    0 <= ms - (days * 86400000 + hours * 3600000 + minutes * 60000) < 60000.
Proof.
  intros Hms.
  exists (ms / 86400000), (ms mod 86400000 / 3600000), (ms mod 3600000 / 60000).
  split.
  - unfold formatTimeRemaining. cbv zeta.
    change (1000 * 60 * 60 * 24) with 86400000.
    change (1000 * 60 * 60) with 3600000.
    change (1000 * 60) with 60000.
    rewrite !Z.rem_mod_nonneg by lia.
    unfold numberToString.
    assert (H1 : (ms / 86400000 <? 0) = false)
      by (apply Z.ltb_ge; Z.div_mod_to_equations; lia).
    assert (H2 : (ms mod 86400000 / 3600000 <? 0) = false)
      by (apply Z.ltb_ge; Z.div_mod_to_equations; lia).
    assert (H3 : (ms mod 3600000 / 60000 <? 0) = false)
      by (apply Z.ltb_ge; Z.div_mod_to_equations; lia).
    now rewrite H1, H2, H3.
  - Z.div_mod_to_equations. lia.
Qed.

Lemma formatTimeRemaining_parts_witness :
  exists days hours minutes,
    formatTimeRemaining 200000000
    = toString days ++ "d " ++ toString hours ++ "h " ++ toString minutes ++ "m" /\
    0 <= days /\ 0 <= hours < 24 /\ 0 <= minutes < 60 /\
    0 <= 200000000 - (days * 86400000 + hours * 3600000 + minutes * 60000) < 60000.
Proof.
  apply (formatTimeRemaining_parts 200000000). lia.
Defined.

(** ** The previous leaderboard *)

Lemma handleViewPreviousLeaderboard_unfold (rt : Runtime) (clock : Z)
    (current : Current.Snapshots) (p : SnapshotPeriod) (db : Firestore) :
  handleViewPreviousLeaderboard rt clock current p db =
  match loadSnapshotByKey p (previousKey rt clock p) db with
  | (Some (Some s), db1) =>
      (Some match currentOf current p with
            | Some e => Prev.mk (computePrevStats e (Some s)) false
            | None => Prev.mk [] true
            end, db1)
  | (_, db1) => (Some (Prev.mk [] true), db1)
  end.
Proof.
  cbv beta zeta delta [handleViewPreviousLeaderboard tryCatch bind ret].
  destruct (loadSnapshotByKey p (previousKey rt clock p) db) as [[[s|]|] db1];
    [|reflexivity|reflexivity].
  destruct (currentOf current p); reflexivity.
Qed.

(** X18. Opening the previous leaderboard never writes to the database
    and never fails.  It shows rows only when the tab has a current
    snapshot and a snapshot is stored under the previous key: the rows
    are then the progress from that stored snapshot to the current one.
    In every other case, also when the lookup is rejected, it shows no
    row and raises the missing-data flag. *)
Theorem handleViewPreviousLeaderboard_outcome (rt : Runtime) (clock : Z)
    (current : Current.Snapshots) (p : SnapshotPeriod) (db : Firestore) :
  let out := handleViewPreviousLeaderboard rt clock current p db in
  docs (snd out) = docs db /\
  exists view,
    fst out = Some view /\
    (Prev.dataMissing view = true -> Prev.stats view = []) /\
    (Prev.dataMissing view = false ->
     exists e s i,
       currentOf current p = Some e /\
       id s = Some i /\ In (i, data s) (docs db) /\
       period (data s) = p /\ periodKey (data s) = previousKey rt clock p /\
       Prev.stats view = computePrevStats e (Some s)) /\
    (currentOf current p = None -> Prev.dataMissing view = true) /\
    (countFor p (previousKey rt clock p) db = 0%nat -> Prev.dataMissing view = true) /\
    (healthy db ->
     forall e doc,
       currentOf current p = Some e ->
       hd_error (filter (matches p (previousKey rt clock p)) (docs db)) = Some doc ->
       view = Prev.mk (computePrevStats e (Some (loaded doc))) false).
Proof.
  cbv zeta. rewrite handleViewPreviousLeaderboard_unfold, loadSnapshotByKey_unfold.
  pose proof (request_frame db) as [Hd _].
  pose proof (request_healthy db) as Hh.
  generalize (previousKey rt clock p). intros key.
  destruct (request db) as [[[]|] db1]; cbn [fst snd] in *.
  - rewrite Hd.
    destruct (hd_error (filter (matches p key) (docs db))) as [doc|] eqn:E;
      cbn [option_map fst snd].
    + split; [exact Hd|].
      pose proof E as E'. apply hd_filter_In in E'. destruct E' as [Hin Hm].
      apply matches_iff in Hm. destruct Hm as [Hp Hk].
      destruct (currentOf current p) as [e|]; eexists; (split; [reflexivity|]);
        cbn [Prev.dataMissing Prev.stats].
      * split; [discriminate|]. split; [|split; [discriminate|split]].
        -- intros _. exists e, (loaded doc), (fst doc). cbn [loaded id data].
           repeat match goal with |- _ /\ _ => split end; trivial.
           now destruct doc.
        -- intro H. unfold countFor in H. apply length_zero_iff_nil in H.
           rewrite H in E. discriminate.
        -- intros _ e' doc' He' Hdoc'. injection He' as <-. now injection Hdoc' as <-.
      * split; [reflexivity|]. split; [discriminate|]. split; [reflexivity|].
        split; [reflexivity|]. intros _ e' doc' He'. discriminate.
    + split; [exact Hd|].
      eexists; split; [reflexivity|]; cbn [Prev.dataMissing Prev.stats].
      split; [reflexivity|]. split; [discriminate|]. split; [reflexivity|].
      split; [reflexivity|]. intros _ e doc _ Hdoc. discriminate.
  - split; [exact Hd|].
    eexists; split; [reflexivity|]; cbn [Prev.dataMissing Prev.stats].
    split; [reflexivity|]. split; [discriminate|]. split; [reflexivity|].
    split; [reflexivity|]. intros H. apply Hh in H. destruct H; discriminate.
Qed.


(** ** Job counters *)

Lemma mapGet_mapSet (m : list (string * Z)) (key key' : string) (value : Z) :
  mapGet (mapSet m key value) key'
  = if String.eqb key key' then Some value else mapGet m key'.
Proof.
  unfold mapGet. induction m as [|e rest IH]; cbn [mapSet find fst].
  - destruct (String.eqb key key'); reflexivity.
  - destruct (String.eqb_spec (fst e) key) as [-> | Hne]; cbn [find fst].
    + destruct (String.eqb key key'); reflexivity.
    + destruct (String.eqb_spec (fst e) key') as [<- | Hne'].
      * destruct (String.eqb_spec key (fst e)) as [Heq|_]; [now elim Hne | reflexivity].
      * exact IH.
Qed.

Lemma countJobs_from (jobs : list (DocId * Job.Doc)) (acc : list (string * Z))
    (user : string) :
  optOrZero (mapGet (fold_left
                       (fun jobCounts doc =>
                          let jobData := snd doc in
                          mapSet jobCounts (Job.username jobData)
                                 (optOrZero (mapGet jobCounts (Job.username jobData)) + 1))
                       jobs acc) user)
  = optOrZero (mapGet acc user) + jobCount jobs user.
Proof.
  revert acc. induction jobs as [|j rest IH]; intros acc.
  - unfold jobCount. cbn. lia.
  - cbn [fold_left]. rewrite IH. cbv zeta. rewrite mapGet_mapSet.
    unfold jobCount. cbn [filter].
    destruct (String.eqb (Job.username (snd j)) user) eqn:E.
    + apply String.eqb_eq in E. subst user.
      cbn [optOrZero List.length]. rewrite orZero_id. lia.
    + lia.
Qed.

Lemma countJobs_count (jobs : list (DocId * Job.Doc)) (user : string) :
  optOrZero (mapGet (countJobs jobs) user) = jobCount jobs user.
Proof. unfold countJobs. now rewrite countJobs_from. Qed.

Lemma roundTrip_frame (st : Roster) :
  userDocs (snd (roundTrip st)) = userDocs st /\
  jobDocs (snd (roundTrip st)) = jobDocs st.
Proof.
  unfold roundTrip. destruct (pending st) as [|b rest]; split; reflexivity.
Qed.

Lemma roundTrip_answering (st : Roster) :
  answering st -> fst (roundTrip st) = true /\ answering (snd (roundTrip st)).
Proof.
  unfold answering, roundTrip. intros H.
  destruct (pending st) as [|b rest] eqn:E; cbn [fst snd pending].
  - split; [reflexivity | now rewrite E].
  - inversion H as [|? ? Hb Hrest]. subst b. split; [reflexivity | exact Hrest].
Qed.

Lemma setJobsApplied_key (i : DocId) (n : Z) (d : DocId * User.Doc) :
  fst (setJobsApplied i n d) = fst d /\
  User.username (snd (setJobsApplied i n d)) = User.username (snd d) /\
  User.name (snd (setJobsApplied i n d)) = User.name (snd d).
Proof.
  unfold setJobsApplied. destruct (Nat.eqb (fst d) i); repeat split.
Qed.

(** What one callback does to the user documents. *)
Lemma syncUser_step (c : list (string * Z)) (x : DocId * User.Doc) (st : Roster) :
  jobDocs (snd (syncUser c x st)) = jobDocs st /\
  (userDocs (snd (syncUser c x st)) = userDocs st \/
   userDocs (snd (syncUser c x st))
   = map (setJobsApplied (fst x) (optOrZero (mapGet c (User.username (snd x)))))
         (userDocs st)).
Proof.
  unfold syncUser. cbv zeta.
  destruct (negb _); [|split; [reflexivity | now left]].
  unfold updateJobsApplied.
  pose proof (roundTrip_frame st) as [Hu Hj].
  destruct (roundTrip st) as [[] st1]; cbn [fst snd] in *.
  - destruct (existsb _ (userDocs st1)); cbn [snd userDocs jobDocs].
    + split; [exact Hj | right; now rewrite Hu].
    + split; [exact Hj | now left].
  - split; [exact Hj | now left].
Qed.

Lemma syncUser_answering (c : list (string * Z)) (x : DocId * User.Doc) (st : Roster) :
  answering st -> In x (userDocs st) ->
  answering (snd (syncUser c x st)) /\
  userDocs (snd (syncUser c x st))
  = if negb (optOrZero (mapGet c (User.username (snd x)))
             =? optOrZero (User.jobsApplied (snd x)))
    then map (setJobsApplied (fst x) (optOrZero (mapGet c (User.username (snd x)))))
             (userDocs st)
    else userDocs st.
Proof.
  intros Ha Hin. unfold syncUser. cbv zeta.
  destruct (negb _); [|split; [exact Ha | reflexivity]].
  unfold updateJobsApplied.
  pose proof (roundTrip_frame st) as [Hu _].
  pose proof (roundTrip_answering st Ha) as [Hok Ha1].
  destruct (roundTrip st) as [ok st1]; cbn [fst snd] in *. subst ok.
  assert (He : existsb (fun d => Nat.eqb (fst d) (fst x)) (userDocs st1) = true).
  { apply existsb_exists. exists x. rewrite Hu. split; [exact Hin | apply Nat.eqb_refl]. }
  rewrite He. cbn [snd userDocs]. split; [exact Ha1 | now rewrite Hu].
Qed.

Lemma Forall2_map_r_In {A : Type} (R : A -> A -> Prop) (f : A -> A) (l : list A) :
  (forall a, In a l -> R a (f a)) -> Forall2 R l (map f l).
Proof.
  induction l as [|a l IH]; intros H; cbn [map]; constructor.
  - apply H. now left.
  - apply IH. intros b Hb. apply H. now right.
Qed.

Lemma Forall2_compose {A B C : Type} (R1 : A -> B -> Prop) (R2 : B -> C -> Prop)
    (R3 : A -> C -> Prop) (l1 : list A) (l2 : list B) (l3 : list C) :
  (forall a b c, R1 a b -> R2 b c -> R3 a c) ->
  Forall2 R1 l1 l2 -> Forall2 R2 l2 l3 -> Forall2 R3 l1 l3.
Proof.
  intros H H12. revert l3. induction H12 as [|a b l1 l2 Hab _ IH]; intros l3 H23.
  - inversion H23. constructor.
  - inversion H23 as [|? c ? l3' Hbc Hrest]; subst. constructor; [eauto | now apply IH].
Qed.

Lemma promiseAllUsers_touched (c : list (string * Z)) (items : list (DocId * User.Doc))
    (st : Roster) :
  jobDocs (snd (promiseAllUsers (syncUser c) items st)) = jobDocs st /\
  Forall2 (touched c items) (userDocs st)
          (userDocs (snd (promiseAllUsers (syncUser c) items st))).
Proof.
  revert st. induction items as [|x rest IH]; intros st; cbn [promiseAllUsers].
  - cbn [snd]. split; [reflexivity|].
    rewrite <- (map_id (userDocs st)) at 2.
    apply Forall2_map_r_In. intros a _. repeat split. now left.
  - destruct (syncUser_step c x st) as [Hj Hu].
    destruct (syncUser c x st) as [ok st1]. cbn [snd] in Hj, Hu.
    destruct (IH st1) as [Hj' Hu'].
    destruct (promiseAllUsers (syncUser c) rest st1) as [ok' st2]. cbn [snd] in *.
    split; [congruence|].
    apply (Forall2_compose (touched c [x]) (touched c rest) _ _ (userDocs st1)).
    + intros a b d (Hi & Hn & Hm & Hab) (Hi' & Hn' & Hm' & Hbd).
      repeat split; try congruence.
      destruct Hbd as [-> | (y & Hy & Hid & Hv)].
      * destruct Hab as [-> | (y & Hy & Hid & Hv)]; [now left|].
        right. exists y. repeat split; trivial.
        destruct Hy as [<- | []]. now left.
      * right. exists y. repeat split; [now right | congruence | exact Hv].
    + destruct Hu as [-> | ->].
      * rewrite <- (map_id (userDocs st)) at 2.
        apply Forall2_map_r_In. intros a _. repeat split. now left.
      * apply Forall2_map_r_In. intros a _.
        destruct (setJobsApplied_key (fst x)
                    (optOrZero (mapGet c (User.username (snd x)))) a) as (H1 & H2 & H3).
        repeat split; trivial.
        unfold setJobsApplied. destruct (Nat.eqb_spec (fst a) (fst x)) as [He|]; [|now left].
        right. exists x. repeat split; [now left | now symmetry].
    + exact Hu'.
Qed.

Lemma NoDup_fst_inj {A B : Type} (l : list (A * B)) (x y : A * B) :
  NoDup (map fst l) -> In x l -> In y l -> fst x = fst y -> x = y.
Proof.
  induction l as [|a l IH]; intros Hnd Hx Hy Heq; [destruct Hx|].
  cbn [map] in Hnd. inversion Hnd as [|? ? Hnot Hnd']; subst.
  destruct Hx as [-> | Hx], Hy as [-> | Hy]; trivial.
  - elim Hnot. rewrite Heq. now apply in_map.
  - elim Hnot. rewrite <- Heq. now apply in_map.
  - now apply IH.
Qed.

Lemma Forall2_impl_In {A : Type} (R R' : A -> A -> Prop) (l l' : list A) :
  (forall a b, In a l -> R a b -> R' a b) -> Forall2 R l l' -> Forall2 R' l l'.
Proof.
  intros H H2. induction H2 as [|a b l l' Hab _ IH]; constructor.
  - apply H; [now left | exact Hab].
  - apply IH. intros a' b' Hin. apply H. now right.
Qed.

Lemma synced_fst (c : list (string * Z)) (d : DocId * User.Doc) :
  fst (synced c d) = fst d.
Proof. unfold synced. destruct (negb _); reflexivity. Qed.

Lemma promiseAllUsers_answering (c : list (string * Z)) (items : list (DocId * User.Doc))
    (st : Roster) :
  answering st -> NoDup (map fst (userDocs st)) -> NoDup (map fst items) ->
  incl items (userDocs st) ->
  userDocs (snd (promiseAllUsers (syncUser c) items st))
  = map (fun d => if existsb (fun x => Nat.eqb (fst x) (fst d)) items
                  then synced c d else d) (userDocs st).
Proof.
  revert st. induction items as [|x rest IH]; intros st Ha Hnd Hni Hincl;
    cbn [promiseAllUsers].
  - cbn [snd existsb]. now rewrite map_id.
  - assert (Hx : In x (userDocs st)) by (apply Hincl; now left).
    destruct (syncUser_answering c x st Ha Hx) as [Ha1 Hu].
    destruct (syncUser c x st) as [ok st1]. cbn [snd] in Ha1, Hu.
    cbn [map] in Hni. inversion Hni as [|? ? Hnot Hni']; subst.
    assert (Hstep : userDocs st1
                    = map (fun d => if Nat.eqb (fst x) (fst d) then synced c d else d)
                          (userDocs st)).
    { rewrite Hu. unfold synced at 1.
      destruct (negb _) eqn:En.
      - apply map_ext_in. intros d Hd. unfold setJobsApplied.
        rewrite (Nat.eqb_sym (fst d) (fst x)).
        destruct (Nat.eqb_spec (fst x) (fst d)) as [He|]; [|reflexivity].
        assert (x = d) as <- by (now apply (NoDup_fst_inj (userDocs st))).
        unfold synced. now rewrite En.
      - rewrite <- (map_id (userDocs st)) at 1.
        apply map_ext_in. intros d Hd.
        destruct (Nat.eqb_spec (fst x) (fst d)) as [He|]; [|reflexivity].
        assert (x = d) as <- by (now apply (NoDup_fst_inj (userDocs st))).
        unfold synced. now rewrite En. }
    assert (Hids : map fst (userDocs st1) = map fst (userDocs st)).
    { rewrite Hstep, map_map. apply map_ext. intros d.
      destruct (Nat.eqb (fst x) (fst d)); [apply synced_fst | reflexivity]. }
    assert (Hincl1 : incl rest (userDocs st1)).
    { intros y Hy. rewrite Hstep. apply in_map_iff. exists y.
      split; [|apply Hincl; now right].
      destruct (Nat.eqb_spec (fst x) (fst y)) as [He|]; [|reflexivity].
      elim Hnot. rewrite He. now apply in_map. }
    specialize (IH st1 Ha1 ltac:(now rewrite Hids) Hni' Hincl1).
    destruct (promiseAllUsers (syncUser c) rest st1) as [ok' st2]. cbn [snd] in *.
    rewrite IH, Hstep, map_map. apply map_ext_in. intros d Hd. cbn [existsb].
    destruct (Nat.eqb_spec (fst x) (fst d)) as [He|Hne]; cbn [orb].
    + assert (x = d) as <- by (now apply (NoDup_fst_inj (userDocs st))).
      assert (Hno : existsb (fun y => Nat.eqb (fst y) (fst (synced c x))) rest = false).
      { apply not_true_is_false. intro H. apply existsb_exists in H.
        destruct H as (y & Hy & Heq). apply Nat.eqb_eq in Heq.
        elim Hnot. replace (fst x) with (fst y).
        - now apply in_map.
        - rewrite Heq. apply synced_fst. }
      now rewrite Hno.
    + reflexivity.
Qed.

Lemma promiseAllUsers_idle (c : list (string * Z)) (items : list (DocId * User.Doc))
    (st : Roster) :
  (forall x, In x items ->
     optOrZero (mapGet c (User.username (snd x))) = optOrZero (User.jobsApplied (snd x))) ->
  promiseAllUsers (syncUser c) items st = (true, st).
Proof.
  induction items as [|x rest IH]; intros H; cbn [promiseAllUsers]; [reflexivity|].
  unfold syncUser at 1. cbv zeta. rewrite (H x) by now left.
  rewrite Z.eqb_refl. cbn [negb]. rewrite IH; [reflexivity|].
  intros y Hy. apply H. now right.
Qed.

Lemma syncJobCounts_idle (st : Roster) :
  Forall (counted (jobDocs st)) (userDocs st) ->
  userDocs (syncJobCounts st) = userDocs st.
Proof.
  intros Hc. unfold syncJobCounts.
  pose proof (roundTrip_frame st) as [Hu Hj].
  destruct (roundTrip st) as [[] st1]; cbn [fst snd] in *; [|exact Hu].
  pose proof (roundTrip_frame st1) as [Hu1 Hj1].
  destruct (roundTrip st1) as [[] st2]; cbn [fst snd] in *; [|congruence].
  rewrite promiseAllUsers_idle; [cbn [snd]; congruence|].
  intros x Hx. rewrite countJobs_count, Hj.
  rewrite Forall_forall in Hc. symmetry. apply Hc. congruence.
Qed.

Lemma counted_synced (jobs : list (DocId * Job.Doc)) (d : DocId * User.Doc) :
  counted jobs (synced (countJobs jobs) d).
Proof.
  unfold counted, synced. rewrite countJobs_count.
  destruct (Z.eqb_spec (jobCount jobs (User.username (snd d)))
                       (optOrZero (User.jobsApplied (snd d)))) as [He | Hne];
    cbn [negb snd User.jobsApplied User.username optOrZero].
  - now symmetry.
  - apply orZero_id.
Qed.

Lemma syncJobCounts_run (st : Roster) :
  NoDup (map fst (userDocs st)) ->
  jobDocs (syncJobCounts st) = jobDocs st /\
  Forall2 (corrected (jobDocs st)) (userDocs st) (userDocs (syncJobCounts st)) /\
  (answering st -> Forall (counted (jobDocs st)) (userDocs (syncJobCounts st))).
Proof.
  intros Hnd.
  assert (Hsame : forall l, Forall2 (corrected (jobDocs st)) l l).
  { intros l. rewrite <- (map_id l) at 2. apply Forall2_map_r_In.
    intros a _. repeat split. now left. }
  assert (Hjobs : jobDocs (syncJobCounts st) = jobDocs st).
  { unfold syncJobCounts.
    pose proof (roundTrip_frame st) as [_ Hj].
    destruct (roundTrip st) as [[] st1]; cbn [fst snd] in *; [|exact Hj].
    pose proof (roundTrip_frame st1) as [_ Hj1].
    destruct (roundTrip st1) as [[] st2]; cbn [fst snd] in *; [|congruence].
    destruct (promiseAllUsers_touched (countJobs (jobDocs st1)) (userDocs st2) st2)
      as [Hj2 _]. congruence. }
  assert (Hrun : Forall2 (corrected (jobDocs st)) (userDocs st)
                         (userDocs (syncJobCounts st)) /\
                 (answering st ->
                  Forall (counted (jobDocs st)) (userDocs (syncJobCounts st)))).
  { unfold syncJobCounts.
    pose proof (roundTrip_frame st) as [Hu Hj].
    pose proof (roundTrip_answering st) as Ha.
    destruct (roundTrip st) as [[] st1]; cbn [fst snd] in *.
    2:{ rewrite Hu. split; [apply Hsame|].
        intro H. apply Ha in H. destruct H; discriminate. }
    pose proof (roundTrip_frame st1) as [Hu1 Hj1].
    pose proof (roundTrip_answering st1) as Ha1.
    destruct (roundTrip st1) as [[] st2]; cbn [fst snd] in *.
    2:{ rewrite Hu1, Hu. split; [apply Hsame|].
        intro H. apply Ha in H. destruct H as [_ H]. apply Ha1 in H.
        destruct H; discriminate. }
    rewrite Hj. assert (Hu2 : userDocs st2 = userDocs st) by congruence.
    split.
    - destruct (promiseAllUsers_touched (countJobs (jobDocs st)) (userDocs st2) st2)
        as [_ Ht].
      rewrite Hu2 in Ht at 2. rewrite Hu2 in Ht at 1.
      revert Ht. apply Forall2_impl_In.
      intros a b Hin (Hi & Hn & Hm & Hv). repeat split; trivial.
      destruct Hv as [-> | (x & Hx & Hid & Hv)]; [now left|].
      right. rewrite Hv, countJobs_count.
      assert (x = a) as -> by (apply (NoDup_fst_inj (userDocs st)); trivial).
      reflexivity.
    - intro H. apply Ha in H. destruct H as [_ H]. apply Ha1 in H. destruct H as [_ H].
      rewrite promiseAllUsers_answering;
        [| exact H | now rewrite Hu2 | now rewrite Hu2 | apply incl_refl].
      apply Forall_forall. intros d' Hd'. apply in_map_iff in Hd'.
      destruct Hd' as (d & <- & Hd).
      assert (He : existsb (fun x => Nat.eqb (fst x) (fst d)) (userDocs st2) = true).
      { apply existsb_exists. exists d. split; [exact Hd | apply Nat.eqb_refl]. }
      rewrite He. apply counted_synced. }
  destruct Hrun as [Hc Hall]. now repeat split.
Qed.

(** X20. [syncJobCounts] never touches the job documents, and of a user
    document it changes at most the counter, which it can only set to
    the number of job documents of that user.  When every request is
    answered, every counter then agrees with the job documents, and a
    second run changes nothing; when the counters agree already, it
    writes nothing. *)
Theorem syncJobCounts_establishes_counts (st : Roster) :
  NoDup (map fst (userDocs st)) ->
  let st' := syncJobCounts st in
  jobDocs st' = jobDocs st /\
  Forall2 (corrected (jobDocs st)) (userDocs st) (userDocs st') /\
  (answering st ->
   Forall (counted (jobDocs st')) (userDocs st') /\
   userDocs (syncJobCounts st') = userDocs st') /\
  (Forall (counted (jobDocs st)) (userDocs st) -> userDocs st' = userDocs st).
Proof.
  intros Hnd. cbv zeta.
  destruct (syncJobCounts_run st Hnd) as (Hjobs & Hc & Hall).
  split; [exact Hjobs|]. split; [exact Hc|]. split.
  - intro Ha. specialize (Hall Ha). rewrite Hjobs.
    split; [exact Hall|]. apply syncJobCounts_idle. now rewrite Hjobs.
  - apply syncJobCounts_idle.
Qed.

Lemma syncJobCounts_establishes_counts_witness :
  Forall (counted (jobDocs (syncJobCounts someRoster))) (userDocs (syncJobCounts someRoster)) /\
  userDocs (syncJobCounts someRoster)
  = [ (0%nat, User.mk "ana" (Some "Ana") (Some 2)); (1%nat, User.mk "bo" None (Some 1)) ].
Proof.
  split; [|reflexivity].
  destruct (syncJobCounts_establishes_counts someRoster) as (_ & _ & H & _).
  - repeat constructor; cbn; intuition discriminate.
  - apply H. constructor.
Defined.

(** ** Fetching the roster in batches *)

Lemma promiseAllFetches_map {A : Type} (f : A -> option (UserStats * list Event))
    (g : A -> UserStats * list Event) (l : list A) :
  (forall a, In a l -> f a = Some (g a)) ->
  promiseAllFetches (map f l) = Some (map g l).
Proof.
  induction l as [|a l IH]; intros H; cbn [map promiseAllFetches]; [reflexivity|].
  rewrite (H a) by now left. rewrite IH; [reflexivity|].
  intros b Hb. apply H. now right.
Qed.

Lemma skipn_cons_nth {A : Type} (l : list A) (i : nat) (a : A) (rest : list A) :
  skipn i l = a :: rest -> nth_error l i = Some a /\ skipn (S i) l = rest.
Proof.
  revert l. induction i as [|i IH]; intros l H.
  - cbn [skipn] in H. subst l. split; reflexivity.
  - destruct l as [|b l]; [discriminate|]. cbn [skipn] in H. apply IH in H.
    exact H.
Qed.

Lemma addNames_map (usersToFetch : list (DocId * User.Doc))
    (h : DocId * User.Doc -> UserStats) (l : list (DocId * User.Doc)) (idx : nat) :
  skipn idx usersToFetch = l ->
  addNames usersToFetch idx (map h l)
  = map (fun u => withName (h u) (User.name (snd u))) l.
Proof.
  revert idx. induction l as [|u l IH]; intros idx H; cbn [map addNames]; [reflexivity|].
  apply skipn_cons_nth in H. destruct H as [Hn Hs].
  rewrite Hn. f_equal. now apply IH.
Qed.

(** The loop from index [i] on: the results of the remaining users are
    appended in their order. *)
Lemma fetchInBatches_spec (net : string -> nat -> FetchOutcome)
    (g : DocId * User.Doc -> UserStats * list Event)
    (usersToFetch : list (DocId * User.Doc)) (fuel i : nat)
    (stats : list UserStats) (log : list BatchEvent) :
  (forall u, fetchFor net u = Some (g u)) ->
  (List.length usersToFetch - i < fuel)%nat ->
  exists log',
    fetchInBatches fuel net usersToFetch i stats log
    = Some ((stats ++ map (fun u => fst (g u)) (skipn i usersToFetch))%list,
            (log ++ log')%list) /\
    tracesOf log' = map (fun u => snd (g u)) (skipn i usersToFetch) /\
    Forall (fun n => (1 <= n <= BATCH_SIZE)%nat) (batchSizes log') /\
    (BATCH_SIZE * pauses log' < List.length usersToFetch - i
       \/ List.length usersToFetch <= i /\ pauses log' = 0)%nat /\
    (List.length usersToFetch - i <= BATCH_SIZE * pauses log' + BATCH_SIZE)%nat.
Proof.
  intros Hg. revert i stats log.
  induction fuel as [|fuel IH]; intros i stats log Hfuel; [lia|].
  cbn [fetchInBatches].
  destruct (Nat.ltb_spec i (List.length usersToFetch)) as [Hlt | Hge].
  - cbv zeta.
    rewrite (promiseAllFetches_map _ g) by (intros u _; apply Hg).
    destruct (IH (i + BATCH_SIZE)%nat
                 (stats ++ map fst (map g (firstn BATCH_SIZE (skipn i usersToFetch))))%list
                 (log ++ Batch (map snd (map g (firstn BATCH_SIZE (skipn i usersToFetch))))
                      :: (if (i + BATCH_SIZE <? List.length usersToFetch)%nat
                          then [Paused 1000] else []))%list)
      as (log' & Hrun & Htr & Hsz & Hp & Hq); [unfold BATCH_SIZE; lia|].
    exists (Batch (map snd (map g (firstn BATCH_SIZE (skipn i usersToFetch))))
            :: (if (i + BATCH_SIZE <? List.length usersToFetch)%nat
                then [Paused 1000] else []) ++ log')%list.
    assert (Hskip : skipn (i + BATCH_SIZE) usersToFetch
                    = skipn BATCH_SIZE (skipn i usersToFetch))
      by (rewrite skipn_skipn; f_equal; lia).
    assert (Hlen : List.length (firstn BATCH_SIZE (skipn i usersToFetch))
                   = Nat.min BATCH_SIZE (List.length usersToFetch - i))
      by (now rewrite length_firstn, length_skipn).
    repeat match goal with |- _ /\ _ => split end.
    + rewrite Hrun. f_equal. f_equal.
      * rewrite <- app_assoc. f_equal. rewrite Hskip, !map_map, <- map_app.
        now rewrite firstn_skipn.
      * rewrite <- app_assoc. reflexivity.
    + unfold tracesOf in *. cbn [flat_map]. rewrite flat_map_app, Htr.
      replace (flat_map _ (if (i + BATCH_SIZE <? List.length usersToFetch)%nat
                           then [Paused 1000] else [])) with (@nil (list Event))
        by (destruct (i + BATCH_SIZE <? List.length usersToFetch)%nat; reflexivity).
      cbn [app]. rewrite Hskip, !map_map, <- map_app. now rewrite firstn_skipn.
    + unfold batchSizes in *. cbn [flat_map]. rewrite flat_map_app.
      replace (flat_map _ (if (i + BATCH_SIZE <? List.length usersToFetch)%nat
                           then [Paused 1000] else [])) with (@nil nat)
        by (destruct (i + BATCH_SIZE <? List.length usersToFetch)%nat; reflexivity).
      cbn [app]. constructor; [|exact Hsz].
      rewrite !length_map, Hlen. unfold BATCH_SIZE. lia.
    + left. unfold pauses in *. cbn [filter]. rewrite filter_app, length_app.
      destruct (Nat.ltb_spec (i + BATCH_SIZE) (List.length usersToFetch));
        cbn [filter List.length]; unfold BATCH_SIZE in *; lia.
    + unfold pauses in *. cbn [filter]. rewrite filter_app, length_app.
      destruct (Nat.ltb_spec (i + BATCH_SIZE) (List.length usersToFetch));
        cbn [filter List.length]; unfold BATCH_SIZE in *; lia.
  - exists []. rewrite skipn_all2 by exact Hge. cbn [map]. rewrite !app_nil_r.
    repeat match goal with |- _ /\ _ => split end; try reflexivity.
    + constructor.
    + right. split; [exact Hge | reflexivity].
    + cbn. lia.
Qed.

Lemma fetchFor_fetched (net : string -> nat -> FetchOutcome) (u : DocId * User.Doc) :
  fetchFor net u = Some (fetchedFor net u) /\
  username (fst (fetchedFor net u)) = User.username (snd u) /\
  jobsApplied (fst (fetchedFor net u)) = optOrZero (User.jobsApplied (snd u)).
Proof.
  unfold fetchedFor, fetchFor, fetchUserStats.
  destruct (fetchLoop_total (net (User.username (snd u))) (User.username (snd u))
              (optOrZero (User.jobsApplied (snd u))) (maxRetries + 2) 0 0)
    as (stats & trace & -> & (Hu & Hj & _) & _); [unfold maxRetries; lia | lia |].
  cbn [fst]. now repeat split.
Qed.

Lemma Forall2_map_r {A B : Type} (R : A -> B -> Prop) (f : A -> B) (l : list A) :
  (forall a, R a (f a)) -> Forall2 R l (map f l).
Proof.
  intros H. induction l as [|a l IH]; cbn [map]; constructor; [apply H | exact IH].
Qed.

Lemma fetchRoster_rows (net : string -> nat -> FetchOutcome)
    (usersToFetch : list (DocId * User.Doc)) :
  exists rows log,
    fetchRoster net usersToFetch = Some (rows, log) /\
    Forall2 rowOf usersToFetch rows.
Proof.
  unfold fetchRoster.
  destruct (fetchInBatches_spec net (fetchedFor net) usersToFetch
              (S (List.length usersToFetch)) 0 [] [])
    as (log & Hrun & _);
    [intro u; apply fetchFor_fetched | lia |].
  rewrite Hrun. cbn [app skipn] in *.
  rewrite (addNames_map usersToFetch (fun u => fst (fetchedFor net u)) usersToFetch 0
             eq_refl).
  eexists. exists log. split; [reflexivity|].
  apply Forall2_map_r. intros u. destruct (fetchFor_fetched net u) as (_ & Hu & Hj).
  unfold rowOf, withName. cbn. now repeat split.
Qed.


Lemma roundTrip_keeps_answering (st : Roster) :
  answering st -> answering (snd (roundTrip st)).
Proof. intros H. now apply roundTrip_answering. Qed.

Lemma syncUser_keeps_answering (c : list (string * Z)) (x : DocId * User.Doc)
    (st : Roster) :
  answering st -> answering (snd (syncUser c x st)).
Proof.
  intros Ha. unfold syncUser. cbv zeta. destruct (negb _); [|exact Ha].
  unfold updateJobsApplied.
  pose proof (roundTrip_answering st Ha) as [_ Ha1].
  destruct (roundTrip st) as [[] st1]; cbn [snd] in *; [|exact Ha1].
  destruct (existsb _ (userDocs st1)); exact Ha1.
Qed.

Lemma promiseAllUsers_keeps_answering (c : list (string * Z))
    (items : list (DocId * User.Doc)) (st : Roster) :
  answering st -> answering (snd (promiseAllUsers (syncUser c) items st)).
Proof.
  revert st. induction items as [|x rest IH]; intros st Ha; cbn [promiseAllUsers];
    [exact Ha|].
  pose proof (syncUser_keeps_answering c x st Ha) as Ha1.
  destruct (syncUser c x st) as [ok st1]. cbn [snd] in Ha1.
  specialize (IH st1 Ha1).
  destruct (promiseAllUsers (syncUser c) rest st1) as [ok' st2]. exact IH.
Qed.

Lemma syncJobCounts_keeps_answering (st : Roster) :
  answering st -> answering (syncJobCounts st).
Proof.
  intros Ha. unfold syncJobCounts.
  pose proof (roundTrip_answering st Ha) as [_ Ha1].
  destruct (roundTrip st) as [[] st1]; cbn [snd] in *; [|exact Ha1].
  pose proof (roundTrip_answering st1 Ha1) as [_ Ha2].
  destruct (roundTrip st1) as [[] st2]; cbn [snd] in *; [|exact Ha2].
  now apply promiseAllUsers_keeps_answering.
Qed.

(** X22. The job count of every row of a load is the number of job
    documents of the user, whatever the stored counter said: on a store
    that answers, the load first corrects the counters, then reads the
    roster, and every row carries the username and the display name of
    its user document and the number of the user's job documents.  When
    the caller passes a roster of its own, the rows carry the counters of
    that roster instead. *)
Theorem loadCurrentStats_counts_jobs (net : string -> nat -> FetchOutcome)
    (st : Roster) :
  NoDup (map fst (userDocs st)) ->
  answering st ->
  (exists rows log,
     fst (loadCurrentStats net None st) = Some (rows, log) /\
     Forall2 (fun d row =>
                username row = User.username (snd d) /\
                name row = User.name (snd d) /\
                jobsApplied row = jobCount (jobDocs st) (User.username (snd d)))
             (userDocs st) rows) /\
  (forall override, exists rows log,
     fst (loadCurrentStats net (Some override) st) = Some (rows, log) /\
     Forall2 rowOf override rows) /\
  (forall usersOverride,
     jobDocs (snd (loadCurrentStats net usersOverride st)) = jobDocs st /\
     Forall (counted (jobDocs st)) (userDocs (snd (loadCurrentStats net usersOverride st)))).
Proof.
  intros Hnd Ha.
  destruct (syncJobCounts_run st Hnd) as (Hjobs & Hcorr & Hcounted).
  specialize (Hcounted Ha).
  pose proof (syncJobCounts_keeps_answering st Ha) as Ha1.
  pose proof (roundTrip_frame (syncJobCounts st)) as [Hu1 Hj1].
  pose proof (roundTrip_answering (syncJobCounts st) Ha1) as [Hok _].
  repeat match goal with |- _ /\ _ => split end.
  - unfold loadCurrentStats, loadUsersFromFirestore. cbv zeta.
    destruct (roundTrip (syncJobCounts st)) as [ok st2]. cbn [fst snd] in *. subst ok.
    destruct (fetchRoster_rows net (userDocs st2)) as (rows & log & Hrun & Hrows).
    exists rows, log. split; [exact Hrun|].
    rewrite Hu1 in Hrows.
    apply (Forall2_compose (fun d d' => corrected (jobDocs st) d d' /\ counted (jobDocs st) d')
                           rowOf _ _ (userDocs (syncJobCounts st))).
    + intros d d' row [(_ & Hn & Hm & _) Hc] (Hr1 & Hr2 & Hr3).
      unfold counted in Hc. repeat split; congruence.
    + clear - Hcorr Hcounted. induction Hcorr as [|d d' l l' Hd _ IH]; constructor.
      * split; [exact Hd|]. now inversion Hcounted.
      * apply IH. now inversion Hcounted.
    + exact Hrows.
  - intros override. unfold loadCurrentStats. cbv zeta. cbn [fst].
    destruct (fetchRoster_rows net override) as (rows & log & Hrun & Hrows).
    now exists rows, log.
  - intros usersOverride. unfold loadCurrentStats, loadUsersFromFirestore. cbv zeta.
    destruct usersOverride as [override|]; cbn [snd]; [split; assumption|].
    destruct (roundTrip (syncJobCounts st)) as [[] st2]; cbn [snd] in *;
      (split; [congruence | now rewrite Hu1]).
Qed.

Lemma loadCurrentStats_counts_jobs_witness :
  exists rows log,
    fst (loadCurrentStats (fun _ _ => Rejected (JsError "Failed to fetch")) None someRoster)
    = Some (rows, log) /\
    Forall2 (fun d row =>
               username row = User.username (snd d) /\
               name row = User.name (snd d) /\
               jobsApplied row = jobCount (jobDocs someRoster) (User.username (snd d)))
            (userDocs someRoster) rows.
Proof.
  destruct (loadCurrentStats_counts_jobs (fun _ _ => Rejected (JsError "Failed to fetch"))
              someRoster) as (H & _).
  - repeat constructor; cbn; intuition discriminate.
  - constructor.
  - exact H.
Defined.

